(* ===================================================================== *)
(* prepare_network.py (PyPSA-Eur): the network transformation pipeline   *)
(* A shallow embedding of scripts/prepare_network.py and its properties. *)
(* ===================================================================== *)
(* Conventions of the embedding.
   - A float64 cell is an IEEE 754 binary64 value [float]: a signed zero, a
     finite value, plus or minus infinity, or NaN (which is also pandas'
     missing value).  The arithmetic is the binary64 arithmetic of the
     standard library's specification of floating-point numbers, which
     rounds every result to the nearest value, ties to even.
   - A pandas table with one row per entity is a list of records, in row
     order, each carrying its index label in a [*_name] field.
   - A Python dict is a [gmap]; a time-indexed DataFrame is a [frame].
   - A Python exception is a value of [exn]; code that can raise returns
     [exn + A]. *)

From Stdlib Require Import ZArith Ascii String SpecFloat.
From stdpp Require Import gmap strings list fin_maps.

Local Open Scope Z_scope.

(* --------------------------------------------------------------------- *)
(* float64 values                                                         *)
(* --------------------------------------------------------------------- *)

Abbreviation float := spec_float.
Abbreviation NaN := S754_nan.
Abbreviation PInf := (S754_infinity false).
Abbreviation NInf := (S754_infinity true).

(* binary64: 53 bits of precision, exponents below 1024 *)
Definition prec : Z := 53.
Definition emax : Z := 1024.

(* float(z) for an int z *)
Definition float_of_Z (z : Z) : float := binary_normalize prec emax z 0 false.
Definition f0 : float := S754_zero false.
Definition f1 : float := S754_finite false 4503599627370496 (-52).

Definition isnan (x : float) : bool :=
  match x with NaN => true | _ => false end.

(* np.isfinite *)
Definition isfinite (x : float) : bool :=
  match x with S754_zero _ | S754_finite _ _ _ => true | _ => false end.

Definition fadd (x y : float) : float := SFadd prec emax x y.
Definition fmul (x y : float) : float := SFmul prec emax x y.

(* numpy division: x/0 is an infinity, 0/0 is NaN *)
Definition fdiv (x y : float) : float := SFdiv prec emax x y.

(* x > y; every comparison with NaN is False *)
Definition fgtb (x y : float) : bool := SFltb y x.

(* Series.sum(): NaN entries are skipped, the empty sum is 0.0, and the
   entries are added from left to right *)
Definition fsum (l : list float) : float :=
  match filter (fun x => isnan x = false) l with
  | [] => f0
  | x :: xs => foldl fadd x xs
  end.

(* Series.mean(): NaN entries are skipped, the mean of nothing is NaN *)
Definition fmean (l : list float) : float :=
  let vs := filter (fun x => isnan x = false) l in
  match vs with
  | [] => NaN
  | _ => fdiv (fsum vs) (float_of_Z (Z.of_nat (length vs)))
  end.

(* Series.dot / the @ operator: NaN is not skipped *)
Definition fdot (xs ys : list float) : float :=
  foldl fadd f0 (zip_with fmul xs ys).

(* Series.clip(upper=u): a NaN threshold means no bound, NaN cells stay *)
Definition clip_upper (u x : float) : float :=
  if isnan u then x else if fgtb x u then u else x.

(* --------------------------------------------------------------------- *)
(* Python values and exceptions                                           *)
(* --------------------------------------------------------------------- *)

Inductive exn : Type :=
  | KeyError (key : string)
  | IndexError
  | ValueError (arg : string)
  | TypeError
  | AssertionError (what : string)
  | ModuleNotFoundError (what : string)
  | ZeroDivisionError.

Abbreviation result A := (exn + A)%type.

(* Python values that the configuration and the option tokens may hold *)
Inductive pyval : Type :=
  | PNone
  | PBool (b : bool)
  | PInt (z : Z)
  | PFloat (x : float)
  | PStr (s : string).

(* truth value testing: None, False, 0, 0.0 and the empty string are false *)
Definition truthy (v : pyval) : bool :=
  match v with
  | PNone => false
  | PBool b => b
  | PInt z => negb (z =? 0)
  | PFloat x => negb (SFeqb x f0)
  | PStr s => negb (bool_decide (s = ""))
  end.

(* x or y *)
Definition py_or (x y : pyval) : pyval := if truthy x then x else y.

(* Code that mutates a state S in place and may raise: the exception, or the
   value, together with the state as it is when control leaves. *)
Definition M (S A : Type) : Type := S -> result A * S.

Definition ret {S A : Type} (a : A) : M S A := fun s => (inr a, s).
Definition raise {S A : Type} (e : exn) : M S A := fun s => (inl e, s).
Definition bind {S A B : Type} (m : M S A) (k : A -> M S B) : M S B :=
  fun s => match m s with
           | (inl e, s') => (inl e, s')
           | (inr a, s') => k a s'
           end.
Definition get {S : Type} : M S S := fun s => (inr s, s).
Definition put {S : Type} (s : S) : M S unit := fun _ => (inr tt, s).
Definition modify {S : Type} (f : S -> S) : M S unit := fun s => (inr tt, f s).
Definition when {S : Type} (b : bool) (m : M S unit) : M S unit :=
  if b then m else ret tt.
Definition or_raise {S A : Type} (e : exn) (o : option A) : M S A :=
  match o with Some a => ret a | None => raise e end.

Notation "'let*' x ':=' m 'in' k" := (bind m (fun x => k))
  (at level 10, x name, m at level 100, k at level 200).
Notation "m ';;' k" := (bind m (fun _ => k))
  (at level 100, k at level 200, right associativity).

(* for o in l: body(o) *)
Fixpoint for_each {S A : Type} (l : list A) (body : A -> M S unit) : M S unit :=
  match l with
  | [] => ret tt
  | o :: l' => body o ;; for_each l' body
  end.

(* --------------------------------------------------------------------- *)
(* The Network Model                                                      *)
(* --------------------------------------------------------------------- *)

(* A DataFrame indexed by time stamps (nanoseconds since the epoch): the
   column labels and the rows in index order, each row one cell per column. *)
Record frame : Type := Frame {
  columns : list string;
  rows : list (Z * list float)
}.

Record bus : Type := Bus {
  bus_name : string;
  country : string;
  v_nom : float
}.

(* A row of n.carriers; its numeric cells by column label, a label that is
   not a key being a missing (NaN) cell. *)
Record carrier : Type := Carrier {
  carrier_name : string;
  carrier_attrs : gmap string float
}.

Record line_type : Type := LineType {
  line_type_name : string;
  i_nom : float
}.

Record line : Type := Line {
  line_name : string;
  line_bus0 : string;
  line_bus1 : string;
  type : string;
  num_parallel : float;
  length_km : float;
  s_nom : float;
  s_nom_min : float;
  s_nom_max : float;
  s_nom_extendable : bool;
  s_max_pu : float;
  line_capital_cost : float
}.

Record link : Type := Link {
  link_name : string;
  link_bus0 : string;
  link_bus1 : string;
  link_carrier : string;
  link_length : float;
  p_nom : float;
  p_nom_min : float;
  p_nom_max : float;
  p_nom_extendable : bool;
  link_capital_cost : float;
  link_marginal_cost : float
}.

Record generator : Type := Generator {
  gen_name : string;
  gen_carrier : string;
  efficiency : float;
  gen_p_nom_max : float;
  gen_capital_cost : float;
  gen_marginal_cost : float
}.

Record storage_unit : Type := StorageUnit {
  su_name : string;
  su_carrier : string;
  efficiency_dispatch : float;
  su_p_nom_max : float;
  su_capital_cost : float;
  su_marginal_cost : float
}.

Record store : Type := Store {
  store_name : string;
  store_carrier : string;
  store_capital_cost : float;
  store_marginal_cost : float
}.

Record load : Type := Load {
  load_name : string;
  load_bus : string
}.

Record global_constraint : Type := GlobalConstraint {
  gc_name : string;
  gc_type : string;
  carrier_attribute : string;
  sense : string;
  constant : float
}.

(* pnl: for each component list name ("generators", "loads", ...) the dict
   of its time-varying tables by attribute, as in n.generators_t. *)
Record network : Type := Network {
  snapshots : list Z;
  snapshot_weightings : frame;
  buses : list bus;
  carriers : list carrier;
  line_types : list line_type;
  lines : list line;
  links : list link;
  generators : list generator;
  storage_units : list storage_unit;
  stores : list store;
  loads : list load;
  global_constraints : list global_constraint;
  pnl : gmap string (gmap string frame)
}.

Definition set_lines (ls : list line) (n : network) : network :=
  Network (snapshots n) (snapshot_weightings n) (buses n) (carriers n)
    (line_types n) ls (links n) (generators n) (storage_units n) (stores n)
    (loads n) (global_constraints n) (pnl n).

Definition set_links (ks : list link) (n : network) : network :=
  Network (snapshots n) (snapshot_weightings n) (buses n) (carriers n)
    (line_types n) (lines n) ks (generators n) (storage_units n) (stores n)
    (loads n) (global_constraints n) (pnl n).

Definition set_carriers (cs : list carrier) (n : network) : network :=
  Network (snapshots n) (snapshot_weightings n) (buses n) cs
    (line_types n) (lines n) (links n) (generators n) (storage_units n)
    (stores n) (loads n) (global_constraints n) (pnl n).

Definition set_generators (gs : list generator) (n : network) : network :=
  Network (snapshots n) (snapshot_weightings n) (buses n) (carriers n)
    (line_types n) (lines n) (links n) gs (storage_units n) (stores n)
    (loads n) (global_constraints n) (pnl n).

Definition set_storage_units (us : list storage_unit) (n : network) : network :=
  Network (snapshots n) (snapshot_weightings n) (buses n) (carriers n)
    (line_types n) (lines n) (links n) (generators n) us (stores n)
    (loads n) (global_constraints n) (pnl n).

Definition set_stores (ss : list store) (n : network) : network :=
  Network (snapshots n) (snapshot_weightings n) (buses n) (carriers n)
    (line_types n) (lines n) (links n) (generators n) (storage_units n) ss
    (loads n) (global_constraints n) (pnl n).

Definition set_global_constraints (gcs : list global_constraint)
    (n : network) : network :=
  Network (snapshots n) (snapshot_weightings n) (buses n) (carriers n)
    (line_types n) (lines n) (links n) (generators n) (storage_units n)
    (stores n) (loads n) gcs (pnl n).

Definition set_pnl (p : gmap string (gmap string frame)) (n : network) : network :=
  Network (snapshots n) (snapshot_weightings n) (buses n) (carriers n)
    (line_types n) (lines n) (links n) (generators n) (storage_units n)
    (stores n) (loads n) (global_constraints n) p.

Definition set_time (idx : list Z) (w : frame) (n : network) : network :=
  Network idx w (buses n) (carriers n)
    (line_types n) (lines n) (links n) (generators n) (storage_units n)
    (stores n) (loads n) (global_constraints n) (pnl n).

(* field updates of single rows *)
Definition line_with_s_nom_max (v : float) (l : line) : line :=
  Line (line_name l) (line_bus0 l) (line_bus1 l) (type l) (num_parallel l)
    (length_km l) (s_nom l) (s_nom_min l) v (s_nom_extendable l) (s_max_pu l)
    (line_capital_cost l).

Definition line_with_s_max_pu (v : float) (l : line) : line :=
  Line (line_name l) (line_bus0 l) (line_bus1 l) (type l) (num_parallel l)
    (length_km l) (s_nom l) (s_nom_min l) (s_nom_max l) (s_nom_extendable l) v
    (line_capital_cost l).

Definition line_with_capital_cost (v : float) (l : line) : line :=
  Line (line_name l) (line_bus0 l) (line_bus1 l) (type l) (num_parallel l)
    (length_km l) (s_nom l) (s_nom_min l) (s_nom_max l) (s_nom_extendable l)
    (s_max_pu l) v.

(* s_nom_min and s_nom_extendable, written together by the source *)
Definition line_with_extendable (smin : float) (l : line) : line :=
  Line (line_name l) (line_bus0 l) (line_bus1 l) (type l) (num_parallel l)
    (length_km l) (s_nom l) smin (s_nom_max l) true (s_max_pu l)
    (line_capital_cost l).

Definition link_with_p_nom_max (v : float) (k : link) : link :=
  Link (link_name k) (link_bus0 k) (link_bus1 k) (link_carrier k)
    (link_length k) (p_nom k) (p_nom_min k) v (p_nom_extendable k)
    (link_capital_cost k) (link_marginal_cost k).

Definition link_with_capital_cost (v : float) (k : link) : link :=
  Link (link_name k) (link_bus0 k) (link_bus1 k) (link_carrier k)
    (link_length k) (p_nom k) (p_nom_min k) (p_nom_max k) (p_nom_extendable k)
    v (link_marginal_cost k).

Definition link_with_marginal_cost (v : float) (k : link) : link :=
  Link (link_name k) (link_bus0 k) (link_bus1 k) (link_carrier k)
    (link_length k) (p_nom k) (p_nom_min k) (p_nom_max k) (p_nom_extendable k)
    (link_capital_cost k) v.

Definition link_with_extendable (pmin : float) (k : link) : link :=
  Link (link_name k) (link_bus0 k) (link_bus1 k) (link_carrier k)
    (link_length k) (p_nom k) pmin (p_nom_max k) true
    (link_capital_cost k) (link_marginal_cost k).

(* n.links.carrier == "DC" *)
Definition is_dc (k : link) : bool := bool_decide (link_carrier k = "DC").

(* --------------------------------------------------------------------- *)
(* LineCapacityLimiter: set_line_nom_max                                  *)
(* --------------------------------------------------------------------- *)

(* np.isfinite(ext) and ext > 0 *)
Definition budget_given (ext : float) : bool :=
  isfinite ext && fgtb ext f0.

Definition set_line_nom_max (n : network)
    (s_nom_max_set p_nom_max_set s_nom_max_ext p_nom_max_ext : float)
    : network :=
  let n1 :=
    if budget_given s_nom_max_ext
    then set_lines
           (map (fun l => line_with_s_nom_max (fadd (s_nom l) s_nom_max_ext) l)
                (lines n)) n
    else n in
  let n2 :=
    if budget_given p_nom_max_ext
    then set_links
           (map (fun k => if is_dc k
                          then link_with_p_nom_max (fadd (p_nom k) p_nom_max_ext) k
                          else k)
                (links n1)) n1
    else n1 in
  let n3 :=
    set_lines
      (map (fun l => line_with_s_nom_max (clip_upper s_nom_max_set (s_nom_max l)) l)
           (lines n2)) n2 in
  set_links
    (map (fun k => link_with_p_nom_max (clip_upper p_nom_max_set (p_nom_max k)) k)
         (links n3)) n3.

(* a maximum capacity that does not exceed the ceiling *)
Definition within (ceiling x : float) : Prop := fgtb x ceiling = false.

(* --------------------------------------------------------------------- *)
(* pandas and PyPSA primitives                                            *)
(* --------------------------------------------------------------------- *)

(* df.empty: no rows or no columns *)
Definition frame_empty (df : frame) : bool :=
  match columns df, rows df with
  | [], _ | _, [] => true
  | _, _ => false
  end.

(* the cells of one column, by position *)
Definition column_at (j : nat) (rs : list (Z * list float)) : list float :=
  map (fun r => default NaN (r.2 !! j)) rs.

(* a cell of n.carriers *)
Definition cell (c : carrier) (col : string) : float :=
  default NaN (carrier_attrs c !! col).

Definition carrier_with (col : string) (v : float) (c : carrier) : carrier :=
  Carrier (carrier_name c) (<[col := v]> (carrier_attrs c)).

(* series.map(table.column): the cell of the row labelled [key], NaN when
   there is no such row *)
Definition lookup_row {A : Type} (label : A -> string) (key : string)
    (table : list A) : option A :=
  snd <$> list_find (fun a => label a = key) table.

Definition map_float {A : Type} (label : A -> string) (col : A -> float)
    (table : list A) (key : string) : float :=
  from_option col NaN (lookup_row label key table).

(* n.add("GlobalConstraint", name, ...): PyPSA asserts that the name is new *)
Definition n_add_global_constraint (gc : global_constraint) : M network unit :=
  let* n := get in
  if bool_decide (gc_name gc ∈ map gc_name (global_constraints n))
  then raise (AssertionError (gc_name gc))
  else put (set_global_constraints (global_constraints n ++ [gc]) n).

(* --------------------------------------------------------------------- *)
(* ConstraintInjector                                                     *)
(* --------------------------------------------------------------------- *)

Definition add_co2limit (co2limit Nyears : float) : M network unit :=
  n_add_global_constraint
    (GlobalConstraint "CO2Limit" "primary_energy" "co2_emissions" "<="
       (fmul co2limit Nyears)).

Definition gas_carriers : list string := ["OCGT"; "CCGT"; "CHP"].

Definition add_gaslimit (gaslimit Nyears : float) : M network unit :=
  let* n := get in
  let sel := filter (fun name => name ∈ gas_carriers)
                    (map carrier_name (carriers n)) in
  modify (set_carriers
            (map (fun c => if bool_decide (carrier_name c ∈ sel)
                           then carrier_with "gas_usage" f1 c else c)
                 (carriers n))) ;;
  n_add_global_constraint
    (GlobalConstraint "GasLimit" "primary_energy" "gas_usage" "<="
       (fmul gaslimit Nyears)).

(* ep: for each carrier the sum over the priced emission kinds of
   price * intensity, missing cells skipped *)
Definition emission_price (emission_prices : gmap string float) (c : carrier)
    : float :=
  fsum (map (fun kp => fmul kp.2 (cell c (kp.1 +:+ "_emissions")))
            (map_to_list emission_prices)).

Definition generator_with_marginal_cost (v : float) (g : generator) : generator :=
  Generator (gen_name g) (gen_carrier g) (efficiency g) (gen_p_nom_max g)
    (gen_capital_cost g) v.

Definition generator_with_p_nom_max (v : float) (g : generator) : generator :=
  Generator (gen_name g) (gen_carrier g) (efficiency g) v
    (gen_capital_cost g) (gen_marginal_cost g).

Definition generator_with_capital_cost (v : float) (g : generator) : generator :=
  Generator (gen_name g) (gen_carrier g) (efficiency g) (gen_p_nom_max g)
    v (gen_marginal_cost g).

Definition storage_unit_with_marginal_cost (v : float) (u : storage_unit)
    : storage_unit :=
  StorageUnit (su_name u) (su_carrier u) (efficiency_dispatch u)
    (su_p_nom_max u) (su_capital_cost u) v.

Definition storage_unit_with_p_nom_max (v : float) (u : storage_unit)
    : storage_unit :=
  StorageUnit (su_name u) (su_carrier u) (efficiency_dispatch u)
    v (su_capital_cost u) (su_marginal_cost u).

Definition storage_unit_with_capital_cost (v : float) (u : storage_unit)
    : storage_unit :=
  StorageUnit (su_name u) (su_carrier u) (efficiency_dispatch u)
    (su_p_nom_max u) v (su_marginal_cost u).

(* gen_ep = n.generators.carrier.map(ep) / n.generators.efficiency *)
Definition gen_ep (n : network) (emission_prices : gmap string float)
    (g : generator) : float :=
  fdiv (map_float carrier_name (emission_price emission_prices)
          (carriers n) (gen_carrier g))
       (efficiency g).

(* su_ep = n.storage_units.carrier.map(ep) / n.storage_units.efficiency_dispatch *)
Definition su_ep (n : network) (emission_prices : gmap string float)
    (u : storage_unit) : float :=
  fdiv (map_float carrier_name (emission_price emission_prices)
          (carriers n) (su_carrier u))
       (efficiency_dispatch u).

(* n.generators_t, n.loads_t, ...: the tables of one component *)
Definition pnl_of (n : network) (list_name : string) : gmap string frame :=
  default ∅ (pnl n !! list_name).

Definition set_pnl_table (list_name attr : string) (df : frame) (n : network)
    : network :=
  set_pnl (<[list_name := <[attr := df]> (pnl_of n list_name)]> (pnl n)) n.

(* df += series: the series, given here by column position, is added to
   every row *)
Definition frame_add_columns (incs : list float) (df : frame) : frame :=
  Frame (columns df) (map (fun r => (r.1, zip_with fadd r.2 incs)) (rows df)).

(* series[labels]: selection by a list of labels raises on an unknown one *)
Fixpoint select_labels {A : Type} (label : A -> string) (val : A -> float)
    (table : list A) (labels : list string) : result (list float) :=
  match labels with
  | [] => inr []
  | k :: ks =>
      match lookup_row label k table with
      | None => inl (KeyError k)
      | Some a =>
          match select_labels label val table ks with
          | inl e => inl e
          | inr vs => inr (val a :: vs)
          end
      end
  end.

Definition of_result {S A : Type} (r : result A) : M S A :=
  match r with inl e => raise e | inr a => ret a end.

(* The state of a call of add_emission_prices: the dict object bound to
   emission_prices, which the call may mutate, and the network. *)
Definition on_network {D : Type} (f : network -> network)
    : M (D * network) unit :=
  modify (fun s => (s.1, f s.2)).

Definition add_emission_prices (exclude_co2 : bool)
    : M (gmap string float * network) unit :=
  when exclude_co2
    (let* s := get in
     match s.1 !! "co2" with
     | Some _ => put (delete "co2" s.1, s.2)
     | None => raise (KeyError "co2")
     end) ;;
  let* s := get in
  let emission_prices := s.1 in
  let n := s.2 in
  let gen_ep := gen_ep n emission_prices in
  on_network (set_generators
            (map (fun g => generator_with_marginal_cost
                             (fadd (gen_marginal_cost g) (gen_ep g)) g)
                 (generators n))) ;;
  let* df := or_raise (KeyError "marginal_cost")
               (pnl_of n "generators" !! "marginal_cost") in
  let* incs := of_result (select_labels gen_name gen_ep (generators n)
                            (columns df)) in
  on_network (set_pnl_table "generators" "marginal_cost"
            (frame_add_columns incs df)) ;;
  let su_ep := su_ep n emission_prices in
  on_network (set_storage_units
            (map (fun u => storage_unit_with_marginal_cost
                             (fadd (su_marginal_cost u) (su_ep u)) u)
                 (storage_units n))).

(* The function object with its default argument: the dict {"co2": 0.0} is
   created once, when the def statement runs, and every call that omits the
   argument is handed that same object. *)
Record module_state : Type := ModuleState {
  default_emission_prices : gmap string float
}.

Definition initial_module_state : module_state :=
  ModuleState {[ "co2" := f0 ]}.

(* A call site.  The argument is either omitted or a dict owned by the
   caller; the result is the caller's dict as the call leaves it (None for
   an omitted argument, whose object lives in the module state). *)
Definition call_add_emission_prices (arg : option (gmap string float))
    (exclude_co2 : bool)
    : module_state * network ->
      result unit * option (gmap string float) * (module_state * network) :=
  fun '(ms, n) =>
    match arg with
    | Some d =>
        let '(r, (d', n')) := add_emission_prices exclude_co2 (d, n) in
        (r, Some d', (ms, n'))
    | None =>
        let '(r, (d', n')) :=
          add_emission_prices exclude_co2 (default_emission_prices ms, n) in
        (r, None, (ModuleState d', n'))
    end.

(* --------------------------------------------------------------------- *)
(* TransmissionLimiter: set_transmission_limit                            *)
(* --------------------------------------------------------------------- *)

(* np.sqrt(3) as a float64: 0x1.bb67ae8584caap+0 *)
Definition sqrt3 : float := S754_finite false 7800463371553962 (-52).

(* n.lines.s_nom.where(n.lines.type == "", _lines_s_nom) *)
Definition lines_s_nom (n : network) (l : line) : float :=
  if bool_decide (type l = "") then s_nom l
  else fmul (fmul (fmul sqrt3
                     (map_float line_type_name i_nom (line_types n) (type l)))
               (num_parallel l))
         (map_float bus_name v_nom (buses n) (line_bus0 l)).

(* col = "capital_cost" if ll_type == "c" else "length" *)
Definition line_col (ll_type : string) (l : line) : float :=
  if bool_decide (ll_type = "c") then line_capital_cost l else length_km l.
Definition link_col (ll_type : string) (k : link) : float :=
  if bool_decide (ll_type = "c") then link_capital_cost k else link_length k.

Definition transmission_ref (n : network) (ll_type : string) : float :=
  let dc := filter (fun k => is_dc k = true) (links n) in
  fadd (fdot (map (lines_s_nom n) (lines n)) (map (line_col ll_type) (lines n)))
       (fdot (map p_nom dc) (map (link_col ll_type) dc)).

Section Collaborators.
(* float(s) and int(s) on a str: None when Python raises ValueError *)
Variable py_float : string -> option float.
Variable py_int : string -> option Z.

(* the cost table of add_electricity.load_costs *)
Variable costs : Type.
Variable line_cost : costs -> line -> float.
Variable link_cost : costs -> link -> float.

(** Modelled from the spec: add_electricity.update_transmission_costs, which
    is not part of the sources at hand.  It refreshes the transmission
    capital costs from the cost table: the capital cost of every line and
    link is rewritten, by [line_cost] and [link_cost], and nothing else
    changes. *)
Definition update_transmission_costs (c : costs) : M network unit :=
  modify (fun n =>
    set_links (map (fun k => link_with_capital_cost (link_cost c k) k) (links n))
      (set_lines (map (fun l => line_with_capital_cost (line_cost c l) l)
                      (lines n)) n)).

(* float(v): the value, when Python returns one *)
Definition float_value (v : pyval) : option float :=
  match v with
  | PFloat x => Some x
  | PInt z => Some (float_of_Z z)
  | PBool b => Some (if b then f1 else f0)
  | PStr s => py_float s
  | PNone => None
  end.

(* float(v), with ValueError for a str and TypeError for None *)
Definition float_of {S : Type} (v : pyval) : M S float :=
  or_raise (match v with PStr s => ValueError s | _ => TypeError end)
           (float_value v).

(* v == "opt" *)
Definition is_opt (v : pyval) : bool :=
  match v with PStr s => bool_decide (s = "opt") | _ => false end.

Definition set_transmission_limit (ll_type : string) (factor : pyval)
    (c : costs) (Nyears : float) : M network unit :=
  let* n := get in
  let lines_s_nom := map (lines_s_nom n) (lines n) in
  let ref := transmission_ref n ll_type in
  update_transmission_costs c ;;
  let* extend :=
    (if is_opt factor then ret true
     else let* x := float_of factor in ret (fgtb x f1)) in
  when extend
    (modify (fun n =>
       set_links
         (map (fun k => if is_dc k then link_with_extendable (p_nom k) k else k)
              (links n))
         (set_lines (zip_with line_with_extendable lines_s_nom (lines n)) n))) ;;
  when (negb (is_opt factor))
    (let con_type := if bool_decide (ll_type = "c")
                     then "expansion_cost" else "volume_expansion" in
     let* x := float_of factor in
     let rhs := fmul x ref in
     n_add_global_constraint
       (GlobalConstraint ("l" +:+ ll_type +:+ "_limit")
          ("transmission_" +:+ con_type +:+ "_limit")
          "AC, DC" "<=" rhs)).
End Collaborators.

(* --------------------------------------------------------------------- *)
(* AutarkyEnforcer: enforce_autarky                                       *)
(* --------------------------------------------------------------------- *)

(* the entries of l at the positions where the mask holds *)
Fixpoint mask_filter {A : Type} (mask : list bool) (l : list A) : list A :=
  match mask, l with
  | b :: mask', x :: l' =>
      if b then x :: mask_filter mask' l' else mask_filter mask' l'
  | _, _ => []
  end.

(* df.drop(df.columns.intersection(names), axis=1) *)
Definition drop_columns (names : list string) (df : frame) : frame :=
  let keep := map (fun c => bool_decide (c ∉ names)) (columns df) in
  Frame (mask_filter keep (columns df))
        (map (fun r => (r.1, mask_filter keep r.2)) (rows df)).

(* n.mremove("Line", names): the rows leave the static table and their
   columns leave every time-varying table of the component *)
Definition mremove_lines (names : list string) : M network unit :=
  modify (fun n =>
    set_pnl (alter (fmap (drop_columns names)) "lines" (pnl n))
      (set_lines (filter (fun l => line_name l ∉ names) (lines n)) n)).

Definition mremove_links (names : list string) : M network unit :=
  modify (fun n =>
    set_pnl (alter (fmap (drop_columns names)) "links" (pnl n))
      (set_links (filter (fun k => link_name k ∉ names) (links n)) n)).

(* n.lines.bus0.map(n.buses.country): None is the NaN of an unknown bus *)
Definition country_of (n : network) (b : string) : option string :=
  country <$> lookup_row bus_name b (buses n).

(* elementwise != on the mapped columns: NaN differs from everything *)
Definition country_ne (a b : option string) : bool :=
  match a, b with
  | Some x, Some y => bool_decide (x ≠ y)
  | _, _ => true
  end.

Definition enforce_autarky (only_crossborder : bool) : M network unit :=
  let* n := get in
  let lines_rm :=
    if only_crossborder
    then map line_name
           (filter (fun l => country_ne (country_of n (line_bus0 l))
                                        (country_of n (line_bus1 l)) = true)
                   (lines n))
    else map line_name (lines n) in
  let links_rm :=
    if only_crossborder
    then map link_name
           (filter (fun k => country_ne (country_of n (link_bus0 k))
                                        (country_of n (link_bus1 k)) = true)
                   (links n))
    else map link_name (filter (fun k => is_dc k = true) (links n)) in
  mremove_lines lines_rm ;;
  mremove_links links_rm.

(* set_line_s_max_pu: n.lines["s_max_pu"] = s_max_pu *)
Definition set_line_s_max_pu (s_max_pu : float) : M network unit :=
  modify (fun n => set_lines (map (line_with_s_max_pu s_max_pu) (lines n)) n).

(* --------------------------------------------------------------------- *)
(* TemporalAggregator: average_every_nhours                               *)
(* --------------------------------------------------------------------- *)

Definition hour_ns : Z := 3600000000000.
Definition day_ns : Z := 24 * hour_ns.

(* df.resample(offset) for a fixed-width offset (closed and labelled on the
   left, origin "start_day"): the bins are anchored at midnight of the day
   of the earliest label and run, without gaps, up to the bin of the latest
   label. *)
Definition earliest (idx : list Z) : Z := foldr Z.min (hd 0 idx) idx.
Definition latest (idx : list Z) : Z := foldr Z.max (hd 0 idx) idx.

Definition first_edge (width : Z) (idx : list Z) : Z :=
  let first := earliest idx in
  let origin := (first `div` day_ns) * day_ns in
  first - (first - origin) `mod` width.

Definition bin_of (width : Z) (idx : list Z) (t : Z) : nat :=
  Z.to_nat ((t - first_edge width idx) `div` width).

Definition bin_count (width : Z) (idx : list Z) : nat :=
  match idx with
  | [] => 0
  | _ => S (bin_of width idx (latest idx))
  end.

Definition bin_label (width : Z) (idx : list Z) (k : nat) : Z :=
  first_edge width idx + Z.of_nat k * width.

Definition bin_members (width : Z) (idx : list Z) (k : nat)
    (rs : list (Z * list float)) : list (Z * list float) :=
  filter (fun r => bin_of width idx r.1 = k) rs.

(* .resample(offset).sum() with agg = fsum, .mean() with agg = fmean *)
Definition resample (agg : list float -> float) (width : Z) (df : frame) : frame :=
  let idx := map fst (rows df) in
  Frame (columns df)
    (map (fun k =>
            (bin_label width idx k,
             map (fun j => agg (column_at j (bin_members width idx k (rows df))))
                 (seq 0 (length (columns df)))))
         (seq 0 (bin_count width idx))).

(* the component tables by list name, as n.iterate_components() meets them *)
Definition component_sizes (n : network) : list (string * nat) :=
  [ ("buses", length (buses n));
    ("carriers", length (carriers n));
    ("global_constraints", length (global_constraints n));
    ("lines", length (lines n));
    ("line_types", length (line_types n));
    ("links", length (links n));
    ("loads", length (loads n));
    ("generators", length (generators n));
    ("storage_units", length (storage_units n));
    ("stores", length (stores n)) ].

(* n.iterate_components(): components without entities are skipped *)
Definition iterate_components (n : network) : list string :=
  map fst (filter (fun c => c.2 ≠ 0%nat) (component_sizes n)).

(* a time-varying table without columns *)
Definition blank_frame (idx : list Z) : frame :=
  Frame [] (map (fun t => (t, [])) idx).

Section Resampling.
(* pandas' reading of an offset of fixed width such as "3h" or "30min": the
   width of the bucket in nanoseconds, None when pandas refuses the string.
   Offsets whose width follows the calendar (months, years) have no such
   width and are not covered: every statement on average_every_nhours
   assumes that to_offset gives a width. *)
Variable to_offset : pyval -> option Z.

(* m starts as n.copy(with_time=False) with the new snapshots set: the
   static tables of n, and every time-varying table blank.  The loops then
   give m the averaged table for each non-empty table of each component
   that has entities. *)
Definition average_every_nhours (n : network) (offset : pyval)
    : result network :=
  match to_offset offset with
  | None => inl (ValueError "offset")
  | Some width =>
      (* the bins are laid out by dividing by the width *)
      if bool_decide (width = 0) then inl ZeroDivisionError
      else if bool_decide (width < 0) then inl (ValueError "offset")
      else
        let snapshot_weightings :=
          resample fsum width (snapshot_weightings n) in
        let idx := map fst (rows snapshot_weightings) in
        let m := set_time idx snapshot_weightings n in
        inr (set_pnl
               (map_imap
                  (fun (list_name : string) (tables : gmap string frame) =>
                     Some (fmap (M := gmap string)
                             (fun df =>
                                if bool_decide (list_name ∈ iterate_components n)
                                   && negb (frame_empty df)
                                then resample fmean width df
                                else blank_frame idx) tables))
                  (pnl n))
               m)
  end.
End Resampling.

(* --------------------------------------------------------------------- *)
(* TemporalAggregator: apply_time_segmentation                            *)
(* --------------------------------------------------------------------- *)

(* Series.max(): NaN entries are skipped, the maximum of nothing is NaN *)
Definition fmax (l : list float) : float :=
  match filter (fun x => isnan x = false) l with
  | [] => NaN
  | x :: xs => foldl (fun a b => if fgtb b a then b else a) x xs
  end.

(* df.max(): the maximum of each column *)
Definition column_max (df : frame) : list float :=
  map (fun j => fmax (column_at j (rows df))) (seq 0 (length (columns df))).

(* df / series and df * series, the series given by column position *)
Definition frame_div (df : frame) (norm : list float) : frame :=
  Frame (columns df) (map (fun r => (r.1, zip_with fdiv r.2 norm)) (rows df)).
Definition frame_mul (df : frame) (norm : list float) : frame :=
  Frame (columns df) (map (fun r => (r.1, zip_with fmul r.2 norm)) (rows df)).

(* the labels of l that acc does not hold yet, appended to acc *)
Definition union_index (acc l : list Z) : list Z :=
  foldl (fun acc t => if bool_decide (t ∈ acc) then acc else acc ++ [t]) acc l.

(* the row labelled t, a row of NaN when there is none *)
Definition cells_at (df : frame) (t : Z) : list float :=
  match list_find (fun r => r.1 = t) (rows df) with
  | Some (_, r) => r.2
  | None => replicate (length (columns df)) NaN
  end.

(* pd.concat(dfs, axis=1, sort=False): the columns side by side, over the
   union of the row labels *)
Definition concat_columns (dfs : list frame) : frame :=
  let idx := foldl (fun acc df => union_index acc (map fst (rows df))) [] dfs in
  Frame (concat (map columns dfs))
        (map (fun t => (t, concat (map (fun df => cells_at df t) dfs))) idx).

(* df.reindex(idx, fill_value=fill) *)
Definition reindex (fill : float) (idx : list Z) (df : frame) : frame :=
  Frame (columns df)
    (map (fun t =>
            (t, match list_find (fun r => r.1 = t) (rows df) with
                | Some (_, r) => r.2
                | None => replicate (length (columns df)) fill
                end)) idx).

(* np.cumsum *)
Fixpoint cumsum_from (acc : Z) (l : list Z) : list Z :=
  match l with
  | [] => []
  | x :: l' => (acc + x) :: cumsum_from (acc + x) l'
  end.
Definition cumsum (l : list Z) : list Z := cumsum_from 0 l.

Definition position_of (label : string) (cols : list string) : option nat :=
  fst <$> list_find (fun c => c = label) cols.

(* df[labels]: the columns of the given labels, KeyError on an unknown one *)
Fixpoint column_positions (cols labels : list string) : result (list nat) :=
  match labels with
  | [] => inr []
  | c :: cs =>
      match position_of c cols with
      | None => inl (KeyError c)
      | Some j =>
          match column_positions cols cs with
          | inl e => inl e
          | inr js => inr (j :: js)
          end
      end
  end.

Definition select_columns (labels : list string) (df : frame) : result frame :=
  match column_positions (columns df) labels with
  | inl e => inl e
  | inr js =>
      inr (Frame labels
             (map (fun r => (r.1, map (fun j => default NaN (r.2 !! j)) js))
                  (rows df)))
  end.

(* the weightings table of a Series of weights: the setter of
   n.snapshot_weightings gives each of its columns the same values *)
Definition weightings_columns : list string := ["objective"; "stores"; "generators"].

Definition broadcast_weightings (idx : list Z) (ws : list float) : frame :=
  Frame weightings_columns (zip_with (fun t w => (t, [w; w; w])) idx ws).

Section Segmentation.
Variable py_int : string -> option Z.

(* the optional dependency: whether tsam can be imported, and
   TimeSeriesAggregation(raw, hoursPerPeriod, noTypicalPeriods=1, noSegments,
   segmentation=True, solver).createTypicalPeriods(), whose result holds one
   row per segment, labelled here by its "Segment Duration" *)
Variable tsam_available : bool.
Variable tsam_create_typical_periods :
  frame -> nat -> Z -> string -> result frame.

(* the default value of a time-varying attribute, by component and name *)
Variable attr_default : string -> string -> float.

(* int(x) for a float x: the value without its fraction, no value for an
   infinity or NaN *)
Definition float_trunc (x : float) : option Z :=
  match x with
  | S754_zero _ => Some 0
  | S754_finite s m e =>
      Some (cond_Zopp s (if 0 <=? e then Zpos m * 2 ^ e
                         else Zpos m / 2 ^ (- e)))
  | _ => None
  end.

(* int(v): the value, when Python returns one; a float is truncated *)
Definition int_value (v : pyval) : option Z :=
  match v with
  | PInt z => Some z
  | PBool b => Some (if b then 1 else 0)
  | PFloat x => float_trunc x
  | PStr s => py_int s
  | PNone => None
  end.

(* int(v), with ValueError for a str and TypeError for None *)
Definition int_of {S : Type} (v : pyval) : M S Z :=
  or_raise (match v with
            | PStr s => ValueError s
            | PFloat _ => ValueError "float"
            | _ => TypeError
            end)
           (int_value v).

(* n.set_snapshots(idx): every table follows the new index *)
Definition set_snapshots (idx : list Z) (n : network) : network :=
  set_pnl
    (map_imap
       (fun (list_name : string) (tables : gmap string frame) =>
          Some (map_imap
                  (fun (attr : string) (df : frame) =>
                     Some (reindex (attr_default list_name attr) idx df))
                  tables))
       (pnl n))
    (set_time idx (reindex f1 idx (snapshot_weightings n)) n).

Definition pnl_table {S : Type} (n : network) (list_name attr : string)
    : M S frame :=
  or_raise (KeyError attr) (pnl_of n list_name !! attr).

Definition apply_time_segmentation (segments : pyval) (solver_name : string)
    : M network unit :=
  if negb tsam_available
  then raise (ModuleNotFoundError
                "Optional dependency 'tsam' not found.Install via 'pip install tsam'")
  else
    let* n := get in
    let* p_max_pu_t := pnl_table n "generators" "p_max_pu" in
    let p_max_pu_norm := column_max p_max_pu_t in
    let p_max_pu := frame_div p_max_pu_t p_max_pu_norm in
    let* p_set_t := pnl_table n "loads" "p_set" in
    let load_norm := column_max p_set_t in
    let load := frame_div p_set_t load_norm in
    let* inflow_t := pnl_table n "storage_units" "inflow" in
    let inflow_norm := column_max inflow_t in
    let inflow := frame_div inflow_t inflow_norm in
    let raw := concat_columns [p_max_pu; load; inflow] in
    let* no_segments := int_of segments in
    let* segmented :=
      of_result (tsam_create_typical_periods raw (length (rows raw))
                   no_segments solver_name) in
    let weightings := map fst (rows segmented) in
    let offsets := 0 :: cumsum (removelast weightings) in
    let* first := or_raise IndexError (head (snapshots n)) in
    let snapshots := map (fun offset => first + offset * hour_ns) offsets in
    modify (set_snapshots snapshots) ;;
    (if bool_decide (length weightings = length snapshots)
     then modify (fun n =>
                    set_time snapshots
                      (broadcast_weightings snapshots
                         (map float_of_Z weightings)) n)
     else raise (ValueError "Length of values does not match length of index")) ;;
    let segmented :=
      Frame (columns segmented)
            (zip_with (fun t r => (t, r.2)) snapshots (rows segmented)) in
    let* g := of_result (select_columns (columns p_max_pu_t) segmented) in
    modify (set_pnl_table "generators" "p_max_pu" (frame_mul g p_max_pu_norm)) ;;
    let* l := of_result (select_columns (columns p_set_t) segmented) in
    modify (set_pnl_table "loads" "p_set" (frame_mul l load_norm)) ;;
    let* i := of_result (select_columns (columns inflow_t) segmented) in
    modify (set_pnl_table "storage_units" "inflow" (frame_mul i inflow_norm)).
End Segmentation.

(* --------------------------------------------------------------------- *)
(* ConstraintInjector: add_dynamic_emission_prices                        *)
(* --------------------------------------------------------------------- *)

(* x == y on floats; NaN equals nothing *)
Definition feqb (x y : float) : bool := SFeqb x y.

(* co2_price[~co2_price.index.duplicated()]: the first row of each label *)
Fixpoint keep_first (seen : list Z) (rs : list (Z * list float))
    : list (Z * list float) :=
  match rs with
  | [] => []
  | r :: rs' =>
      if bool_decide (r.1 ∈ seen) then keep_first seen rs'
      else r :: keep_first (r.1 :: seen) rs'
  end.

(* fillna(method="ffill") on one column *)
Fixpoint ffill (last : float) (l : list float) : list float :=
  match l with
  | [] => []
  | x :: l' => if isnan x then last :: ffill last l' else x :: ffill x l'
  end.

(* fillna(method="bfill") *)
Definition bfill (l : list float) : list float := rev (ffill NaN (rev l)).

(* The price file is read by pd.read_csv outside this model and handed in
   as a table; its first data column is the price. *)
Definition add_dynamic_emission_prices (co2_price : frame) : M network unit :=
  let* n := get in
  let co2_price := Frame (columns co2_price) (keep_first [] (rows co2_price)) in
  let co2_price := reindex NaN (snapshots n) co2_price in
  let* _ := or_raise IndexError (head (columns co2_price)) in
  let price := bfill (ffill NaN (column_at 0 (rows co2_price))) in
  let emissions (g : generator) :=
    fdiv (map_float carrier_name (fun c => cell c "co2_emissions")
            (carriers n) (gen_carrier g))
         (efficiency g) in
  let* varying := or_raise (KeyError "marginal_cost")
                    (pnl_of n "generators" !! "marginal_cost") in
  (* n.get_switchable_as_dense("Generator", "marginal_cost") *)
  let dynamic (t : Z) (g : generator) : float :=
    match position_of (gen_name g) (columns varying) with
    | Some j => default NaN (cells_at varying t !! j)
    | None => gen_marginal_cost g
    end in
  let marginal_cost (tp : Z * float) (g : generator) : float :=
    fadd (dynamic tp.1 g) (fmul (emissions g) tp.2) in
  let index := zip (snapshots n) price in
  (* marginal_cost.ne(static).any() *)
  let kept :=
    filter (fun g => existsb (fun tp => negb (feqb (marginal_cost tp g)
                                                   (gen_marginal_cost g)))
                             index = true)
           (generators n) in
  modify (set_pnl_table "generators" "marginal_cost"
            (Frame (map gen_name kept)
                   (map (fun tp => (tp.1, map (marginal_cost tp) kept)) index))).

(* --------------------------------------------------------------------- *)
(* Option tokens                                                          *)
(* --------------------------------------------------------------------- *)

(* s.split(sep) for a separator of one character *)
Fixpoint split_on (sep : ascii) (s : string) : list string :=
  match s with
  | EmptyString => [EmptyString]
  | String c s' =>
      if bool_decide (c = sep) then EmptyString :: split_on sep s'
      else match split_on sep s' with
           | [] => [String c EmptyString]
           | piece :: pieces => String c piece :: pieces
           end
  end.

(* sub in s *)
Fixpoint contains (sub s : string) : bool :=
  String.prefix sub s ||
  match s with
  | EmptyString => false
  | String _ s' => contains sub s'
  end.

Definition is_digit (c : ascii) : bool :=
  let k := nat_of_ascii c in (48 <=? k)%nat && (k <=? 57)%nat.

Fixpoint all_digits (s : string) : bool :=
  match s with
  | EmptyString => true
  | String c s' => is_digit c && all_digits s'
  end.

Definition nonempty (s : string) : bool :=
  match s with EmptyString => false | _ => true end.

Fixpoint drop_digits (s : string) : string :=
  match s with
  | String c s' => if is_digit c then drop_digits s' else s
  | EmptyString => EmptyString
  end.

(* s, as a whole, matches [0-9]*\.?[0-9]+ *)
Definition is_number (s : string) : bool :=
  match drop_digits s with
  | EmptyString => nonempty s
  | String "."%char s' => nonempty s' && all_digits s'
  | _ => false
  end.

(* the longest suffix of o that is a number *)
Fixpoint number_suffix (o : string) : option string :=
  if is_number o then Some o
  else match o with
       | EmptyString => None
       | String _ o' => number_suffix o'
       end.

(* o without the newline that ends it, if one does *)
Fixpoint chomp (o : string) : string :=
  match o with
  | EmptyString => EmptyString
  | String c EmptyString =>
      if bool_decide (c = "010"%char) then EmptyString else o
  | String c o' => String c (chomp o')
  end.

(* re.findall("[0-9]*\.?[0-9]+$", o)[0], when there is a match: $ matches
   at the end of the string and before a newline that ends the string, so
   the first match is the longest number that ends there *)
Definition trailing_number (o : string) : option string :=
  number_suffix (chomp o).

Section Orchestrator.
Variable py_float : string -> option float.
Variable py_int : string -> option Z.
Variable to_offset : pyval -> option Z.
Variable tsam_available : bool.
Variable tsam_create_typical_periods :
  frame -> nat -> Z -> string -> result frame.
Variable attr_default : string -> string -> float.
(* series.str.contains(pattern): a regular-expression search *)
Variable str_contains : string -> string -> bool.
(* the order in which Python yields the elements of the set
   {"Generator", "Link", "StorageUnit", "Store"} *)
Variable comps_order : list string.
Variable costs : Type.
Variable line_cost : costs -> line -> float.
Variable link_cost : costs -> link -> float.

(* find_opt: whether a token holds expr, and the float that ends the first
   such token *)
Fixpoint find_opt {S : Type} (opts : list string) (expr : string)
    : M S (bool * option float) :=
  match opts with
  | [] => ret (false, None)
  | o :: opts' =>
      if contains expr o
      then match trailing_number o with
           | Some m0 =>
               let* x := or_raise (ValueError m0) (py_float m0) in
               ret (true, Some x)
           | None => ret (true, None)
           end
      else find_opt opts' expr
  end.

(** Modelled from the spec: _helpers.get_opt, which is not part of the
    sources at hand.  Option tokens are parsed with pattern matching: the
    token that matches the pattern is selected, None when no token is
    present.  The pattern is given by its matcher. *)
Definition get_opt (opts : list string) (pattern : string -> bool) : pyval :=
  match list_find (fun o => pattern o = true) opts with
  | Some (_, o) => PStr o
  | None => PNone
  end.

(* ^\d+h$ and ^\d+seg$ *)
Fixpoint digits_then (suffix : string) (o : string) : bool :=
  match o with
  | String c o' =>
      is_digit c && (bool_decide (o' = suffix) || digits_then suffix o')
  | EmptyString => false
  end.

(* The settings read from snakemake.params, snakemake.config and
   snakemake.wildcards; a setting read with .get(key, default) holds the
   default when the key is absent. *)
Record config : Type := Config {
  wildcard_opts : string;
  wildcard_ll : string;
  lines_s_max_pu : float;
  snapshots_resolution : pyval;
  snapshots_segmentation : pyval;
  solver_name : string;
  co2limit_enable : pyval;
  co2base : float;
  co2limit : float;
  gaslimit_enable : pyval;
  gaslimit : float;
  emission_prices_co2_monthly_prices : pyval;
  emission_prices_enable : pyval;
  emission_prices_co2 : float;
  lines_s_nom_max : float;
  links_p_nom_max : float;
  lines_max_extension : float;
  links_max_extension : float;
  autarky_enable : pyval;
  autarky_by_country : pyval
}.

Variable load_costs : config -> float -> costs.

(* The run: the network bound to n, and the transforms applied to it so
   far, in order. *)
Record run_state : Type := RunState {
  net : network;
  applied : list string
}.

(* a call of a transform that works on the network in place *)
Definition call {A : Type} (name : string) (m : M network A) : M run_state A :=
  fun s =>
    let '(r, n') := m (net s) in
    (r, RunState n' (applied s ++ [name])).

(* n = transform(n, ...) for a transform that returns a new network *)
Definition call_rebind (name : string) (f : network -> result network)
    : M run_state unit :=
  call name (fun n => match f n with
                      | inl e => (inl e, n)
                      | inr m => (inr tt, m)
                      end).

Definition is_nil {A : Type} (l : list A) : bool :=
  match l with [] => true | _ => false end.

(* df[attr] *= factor on the rows that sel holds for; KeyError when the
   table has no such column *)
Definition scale_lines (attr : string) (factor : float) : M network unit :=
  if bool_decide (attr = "capital_cost")
  then modify (fun n =>
         set_lines (map (fun l => line_with_capital_cost
                                    (fmul (line_capital_cost l) factor) l)
                        (lines n)) n)
  else raise (KeyError attr).

Definition scaled {A : Type} (sel : A -> bool) (col : A -> float)
    (with_col : float -> A -> A) (factor : float) (table : list A) : list A :=
  map (fun a => if sel a then with_col (fmul (col a) factor) a else a) table.

Definition scale_generators (carrier attr : string) (factor : float)
    : M network unit :=
  let sel g := str_contains carrier (gen_carrier g) in
  let* n := get in
  if bool_decide (attr = "p_nom_max")
  then put (set_generators
              (scaled sel gen_p_nom_max generator_with_p_nom_max factor
                 (generators n)) n)
  else if bool_decide (attr = "capital_cost")
  then put (set_generators
              (scaled sel gen_capital_cost generator_with_capital_cost factor
                 (generators n)) n)
  else if bool_decide (attr = "marginal_cost")
  then put (set_generators
              (scaled sel gen_marginal_cost generator_with_marginal_cost factor
                 (generators n)) n)
  else raise (KeyError attr).

Definition scale_links (carrier attr : string) (factor : float)
    : M network unit :=
  let sel k := str_contains carrier (link_carrier k) in
  let* n := get in
  if bool_decide (attr = "p_nom_max")
  then put (set_links
              (scaled sel p_nom_max link_with_p_nom_max factor (links n)) n)
  else if bool_decide (attr = "capital_cost")
  then put (set_links
              (scaled sel link_capital_cost link_with_capital_cost factor
                 (links n)) n)
  else if bool_decide (attr = "marginal_cost")
  then put (set_links
              (scaled sel link_marginal_cost link_with_marginal_cost factor
                 (links n)) n)
  else raise (KeyError attr).

Definition scale_storage_units (carrier attr : string) (factor : float)
    : M network unit :=
  let sel u := str_contains carrier (su_carrier u) in
  let* n := get in
  if bool_decide (attr = "p_nom_max")
  then put (set_storage_units
              (scaled sel su_p_nom_max storage_unit_with_p_nom_max factor
                 (storage_units n)) n)
  else if bool_decide (attr = "capital_cost")
  then put (set_storage_units
              (scaled sel su_capital_cost storage_unit_with_capital_cost factor
                 (storage_units n)) n)
  else if bool_decide (attr = "marginal_cost")
  then put (set_storage_units
              (scaled sel su_marginal_cost storage_unit_with_marginal_cost
                 factor (storage_units n)) n)
  else raise (KeyError attr).

(* stores have no p_nom_max column *)
Definition scale_stores (carrier attr : string) (factor : float)
    : M network unit :=
  let sel s := str_contains carrier (store_carrier s) in
  let* n := get in
  if bool_decide (attr = "capital_cost")
  then put (set_stores
              (scaled sel store_capital_cost
                 (fun v s => Store (store_name s) (store_carrier s) v
                               (store_marginal_cost s))
                 factor (stores n)) n)
  else if bool_decide (attr = "marginal_cost")
  then put (set_stores
              (scaled sel store_marginal_cost
                 (fun v s => Store (store_name s) (store_carrier s)
                               (store_capital_cost s) v)
                 factor (stores n)) n)
  else raise (KeyError attr).

(* attr_lookup = {"p": "p_nom_max", "c": "capital_cost", "m": "marginal_cost"} *)
Definition attr_lookup : gmap string string :=
  {[ "p" := "p_nom_max"; "c" := "capital_cost"; "m" := "marginal_cost" ]}.

(* map(lambda c: c.split("-", 2)[0], n.carriers.index) *)
Definition suptechs (n : network) : list string :=
  map (fun c => default EmptyString (head (split_on "-"%char (carrier_name c))))
      (carriers n).

(* the body of "for c in n.iterate_components(comps)": a component whose
   table is empty is skipped, n being the network the loop started from *)
Definition scale_component (n : network) (carrier attr : string)
    (factor : float) (c : string) : M network unit :=
  if bool_decide (c = "Generator")
  then when (negb (is_nil (generators n)))
            (scale_generators carrier attr factor)
  else if bool_decide (c = "Link")
  then when (negb (is_nil (links n)))
            (scale_links carrier attr factor)
  else if bool_decide (c = "StorageUnit")
  then when (negb (is_nil (storage_units n)))
            (scale_storage_units carrier attr factor)
  else if bool_decide (c = "Store")
  then when (negb (is_nil (stores n)))
            (scale_stores carrier attr factor)
  else ret tt.

(* the body of "for o in opts" that scales the attributes of a carrier *)
Definition scale_option (o : string) : M network unit :=
  if negb (contains "+" o) then ret tt
  else
    let oo := split_on "+"%char o in
    let oo0 := default EmptyString (oo !! 0%nat) in
    let oo1 := default EmptyString (oo !! 1%nat) in
    let* n := get in
    if existsb (fun p => String.prefix p oo0) (suptechs n)
    then
      let carrier := oo0 in
      let* code := (match oo1 with
                    | EmptyString => raise IndexError
                    | String c _ => ret (String c EmptyString)
                    end) in
      let* attr := or_raise (KeyError code) (attr_lookup !! code) in
      let* factor := float_of py_float
                       (PStr (match oo1 with
                              | EmptyString => EmptyString
                              | String _ rest => rest
                              end)) in
      if bool_decide (carrier = "AC")
      then scale_lines attr factor
      else
        let comps := comps_order in
        for_each comps (scale_component n carrier attr factor)
    else ret tt.

(* a statement of the script that works on n without being one of the
   transforms *)
Definition on_net {A : Type} (m : M network A) : M run_state A :=
  fun s => let '(r, n') := m (net s) in (r, RunState n' (applied s)).

(* the two steps of the script that reduce the temporal resolution *)
Definition temporal_reduction (cfg : config) (opts : list string)
    : M run_state unit :=
  (* temporal averaging *)
  let nhours_config := snapshots_resolution cfg in
  let nhours_wildcard := get_opt opts (digits_then "h") in
  let nhours := py_or nhours_wildcard nhours_config in
  when (truthy nhours)
    (call_rebind "average_every_nhours"
       (fun n => average_every_nhours to_offset n nhours)) ;;
  (* segments with package tsam *)
  let time_seg_config := snapshots_segmentation cfg in
  let time_seg_wildcard := get_opt opts (digits_then "seg") in
  let time_seg := py_or time_seg_wildcard time_seg_config in
  when (truthy time_seg)
    (call "apply_time_segmentation"
       (apply_time_segmentation py_int tsam_available
          tsam_create_typical_periods attr_default time_seg
          (solver_name cfg))).

(* the loop over the option tokens that scales attributes by carrier *)
Definition scale_options (opts : list string) : M network unit :=
  for_each opts scale_option.

(* The script, from the loaded network to the network that is exported.
   co2_price is the content of the price file. *)
Definition main (cfg : config) (co2_price : frame) : M run_state unit :=
  let opts := split_on "-"%char (wildcard_opts cfg) in
  let* s := get in
  let* j := or_raise (KeyError "objective")
              (position_of "objective"
                 (columns (snapshot_weightings (net s)))) in
  let Nyears :=
    fdiv (fsum (column_at j (rows (snapshot_weightings (net s)))))
         (float_of_Z 8760) in
  let cost_table := load_costs cfg Nyears in
  call "set_line_s_max_pu" (set_line_s_max_pu (lines_s_max_pu cfg)) ;;
  temporal_reduction cfg opts ;;
  let Co2L_config := co2limit_enable cfg in
  let* Co2L := find_opt opts "Co2L" in
  when (Co2L.1 || truthy Co2L_config)
    (match Co2L.2 with
     | Some co2limit_wildcard =>
         call "add_co2limit"
           (add_co2limit (fmul co2limit_wildcard (co2base cfg)) Nyears)
     | None => call "add_co2limit" (add_co2limit (co2limit cfg) Nyears)
     end) ;;
  let CH4L_config := gaslimit_enable cfg in
  let* CH4L := find_opt opts "CH4L" in
  when (CH4L.1 || truthy CH4L_config)
    (match CH4L.2 with
     | Some gaslimit_wildcard =>
         call "add_gaslimit"
           (add_gaslimit (fmul gaslimit_wildcard (float_of_Z 1000000)) Nyears)
     | None => call "add_gaslimit" (add_gaslimit (gaslimit cfg) Nyears)
     end) ;;
  on_net (scale_options opts) ;;
  let Ept_config := emission_prices_co2_monthly_prices cfg in
  let Ept_wildcard := bool_decide ("Ept" ∈ opts) in
  let Ep_config := emission_prices_enable cfg in
  let* Ep := find_opt opts "Ep" in
  (if Ept_wildcard || truthy Ept_config
   then call "add_dynamic_emission_prices"
          (add_dynamic_emission_prices co2_price)
   else
     when (Ep.1 || truthy Ep_config)
       (let co2 := match Ep.2 with
                   | Some co2_wildcard => co2_wildcard
                   | None => emission_prices_co2 cfg
                   end in
        call "add_emission_prices"
          (fun n =>
             let '(r, (_, n')) :=
               add_emission_prices false ({[ "co2" := co2 ]}, n) in
             (r, n')))) ;;
  let* ll_type :=
    (match wildcard_ll cfg with
     | EmptyString => raise IndexError
     | String c _ => ret (String c EmptyString)
     end) in
  let factor := match wildcard_ll cfg with
                | EmptyString => EmptyString
                | String _ rest => rest
                end in
  call "set_transmission_limit"
    (set_transmission_limit py_float costs line_cost link_cost
       ll_type (PStr factor) cost_table Nyears) ;;
  call "set_line_nom_max"
    (modify (fun n =>
       set_line_nom_max n (lines_s_nom_max cfg) (links_p_nom_max cfg)
         (lines_max_extension cfg) (links_max_extension cfg))) ;;
  let autarky_config_enable := autarky_enable cfg in
  when (bool_decide ("ATK" ∈ opts) || truthy autarky_config_enable)
    (let only_crossborder :=
       bool_decide ("ATKc" ∈ opts) || truthy (autarky_by_country cfg) in
     call "enforce_autarky" (enforce_autarky only_crossborder)).
End Orchestrator.

(* --------------------------------------------------------------------- *)
(* Sample networks                                                        *)
(* --------------------------------------------------------------------- *)

(* the float that the literal num/den denotes *)
Definition fq (num : Z) (den : positive) : float :=
  fdiv (float_of_Z num) (float_of_Z (Zpos den)).

Definition no_network : network :=
  Network [] (Frame weightings_columns []) [] [] [] [] [] [] [] [] [] [] ∅.

(* two carriers, none of them with a gas_usage cell *)
Definition gas_network : network :=
  set_carriers
    [ Carrier "OCGT" {[ "co2_emissions" := fq 1 5 ]};
      Carrier "solar" {[ "co2_emissions" := f0 ]} ]
    no_network.

(* one AC line without a line type and two links, one of them DC *)
Definition grid_network : network :=
  set_links
    [ Link "dc1" "b1" "b2" "DC" (fq 100 1) (fq 500 1) f0 PInf false (fq 7 1) f0;
      Link "h2" "b1" "b2" "H2 pipeline" (fq 50 1) (fq 30 1) f0 PInf false (fq 9 1) f0 ]
    (set_lines
       [ Line "l1" "b1" "b2" "" f1 (fq 120 1) (fq 1000 1) f0 PInf false f1 (fq 3 1) ]
       (Network [] (Frame weightings_columns [])
          [ Bus "b1" "PL" (fq 380 1); Bus "b2" "DE" (fq 380 1) ]
          [] [] [] [] [] [] [] [] [] ∅)).

(* a gas generator with a time-varying marginal cost, and a storage unit *)
Definition price_network : network :=
  set_pnl
    {[ "generators" :=
         {[ "marginal_cost" := Frame ["g1"] [(0, [fq 5 1]); (hour_ns, [fq 6 1])] ]};
       "storage_units" := {[ "inflow" := Frame ["su1"] [(0, [f1]); (hour_ns, [f1])] ]} ]}
    (set_storage_units
       [ StorageUnit "su1" "gas" (fq 9 10) PInf f0 f1 ]
       (set_generators
          [ Generator "g1" "gas" (fq 1 2) PInf (fq 100 1) (fq 10 1);
            Generator "g2" "gas" (fq 2 5) PInf (fq 100 1) (fq 20 1) ]
          (set_carriers
             [ Carrier "gas" {[ "co2_emissions" := fq 1 5 ]} ]
             (Network [0; hour_ns]
                (Frame weightings_columns [(0, [f1; f1; f1]); (hour_ns, [f1; f1; f1])])
                [] [] [] [] [] [] [] [] [] [] ∅)))).

(* the lines and links of a network: their names, and the countries of
   the buses they join *)
Definition unique_names (n : network) : Prop :=
  NoDup (map line_name (lines n)) /\ NoDup (map link_name (links n)).

Definition endpoints_known (n : network) : Prop :=
  Forall (fun l => is_Some (country_of n (line_bus0 l)) /\
                   is_Some (country_of n (line_bus1 l))) (lines n) /\
  Forall (fun k => is_Some (country_of n (link_bus0 k)) /\
                   is_Some (country_of n (link_bus1 k))) (links n).

(* grid_network with a domestic line, and a time series for each line *)
Definition border_network : network :=
  set_pnl
    {[ "lines" :=
         {[ "s_max_pu" := Frame ["l1"; "l2"] [(0, [f1; fq 1 2]); (hour_ns, [f1; f1])] ]} ]}
    (set_lines
       [ Line "l1" "b1" "b2" "" f1 (fq 120 1) (fq 1000 1) f0 PInf false f1 (fq 3 1);
         Line "l2" "b1" "b3" "" f1 (fq 80 1) (fq 700 1) f0 PInf false f1 (fq 3 1) ]
       (Network [0; hour_ns]
          (Frame weightings_columns [(0, [f1; f1; f1]); (hour_ns, [f1; f1; f1])])
          [ Bus "b1" "PL" (fq 380 1); Bus "b2" "DE" (fq 380 1);
            Bus "b3" "PL" (fq 380 1) ]
          [] [] []
          [ Link "dc1" "b1" "b2" "DC" (fq 100 1) (fq 500 1) f0 PInf false (fq 7 1) f0;
            Link "h2" "b1" "b3" "H2 pipeline" (fq 50 1) (fq 30 1) f0 PInf false (fq 9 1) f0 ]
          [] [] [] [] [] ∅)).

(* what enforce_autarky is to leave in place: with only_crossborder the
   lines and links whose two buses lie in one country, and otherwise no
   line and the links that are not DC *)
Definition stays_line (n : network) (only_crossborder : bool) (l : line) : Prop :=
  only_crossborder = true /\
  country_of n (line_bus0 l) = country_of n (line_bus1 l).

Definition stays_link (n : network) (only_crossborder : bool) (k : link) : Prop :=
  if only_crossborder
  then country_of n (link_bus0 k) = country_of n (link_bus1 k)
  else link_carrier k ≠ "DC".

#[global] Instance stays_line_dec n b l : Decision (stays_line n b l).
Proof. unfold stays_line. apply _. Defined.

#[global] Instance stays_link_dec n b k : Decision (stays_link n b k).
Proof. unfold stays_link. destruct b; apply _. Defined.

(* --------------------------------------------------------------------- *)
(* Notions used to state the properties                                   *)
(* --------------------------------------------------------------------- *)

(* the rows of a table whose label lies in the bucket that starts at t *)
Definition bucket (width t : Z) (rs : list (Z * list float))
    : list (Z * list float) :=
  filter (fun r => t <= r.1 < t + width) rs.

(* two hourly snapshots with weights 1 and 2 and a load series *)
Definition hourly_network : network :=
  set_pnl
    {[ "loads" := {[ "p_set" := Frame ["d1"] [(0, [fq 4 1]); (hour_ns, [fq 8 1])] ]} ]}
    (Network [0; hour_ns]
       (Frame weightings_columns
          [(0, [f1; f1; f1]); (hour_ns, [fq 2 1; fq 2 1; fq 2 1])])
       [ Bus "b1" "PL" (fq 380 1) ] [] [] [] [] [] [] []
       [ Load "d1" "b1" ] [] ∅).

(* "<k>h" for the offsets used in the examples *)
Definition sample_offset (v : pyval) : option Z :=
  match v with
  | PStr "1h" => Some hour_ns
  | PStr "2h" => Some (2 * hour_ns)
  | PStr "3h" => Some (3 * hour_ns)
  | _ => None
  end.

(* four hourly snapshots with the three series that the segmentation reads *)
Definition series_network : network :=
  let idx := [0; hour_ns; 2 * hour_ns; 3 * hour_ns] in
  set_pnl
    {[ "generators" :=
         {[ "p_max_pu" := Frame ["g1"] (zip idx [[fq 1 2]; [f1]; [fq 1 4]; [f0]]);
            "marginal_cost" := Frame [] (zip idx [[]; []; []; []]) ]};
       "loads" :=
         {[ "p_set" := Frame ["d1"] (zip idx [[fq 4 1]; [fq 8 1]; [fq 6 1]; [fq 2 1]]) ]};
       "storage_units" :=
         {[ "inflow" := Frame ["su1"] (zip idx [[f1]; [f1]; [fq 2 1]; [fq 2 1]]) ]} ]}
    (Network idx
       (Frame weightings_columns (zip idx (replicate 4 [f1; f1; f1])))
       [ Bus "b1" "PL" (fq 380 1); Bus "b2" "DE" (fq 380 1) ]
       [ Carrier "gas" {[ "co2_emissions" := fq 1 5 ]};
         Carrier "hydro" {[ "co2_emissions" := f0 ]} ]
       []
       [ Line "l1" "b1" "b2" "" f1 (fq 120 1) (fq 1000 1) f0 PInf false f1 (fq 3 1) ]
       []
       [ Generator "g1" "gas" (fq 1 2) PInf (fq 100 1) (fq 10 1) ]
       [ StorageUnit "su1" "hydro" (fq 9 10) PInf f0 f1 ]
       []
       [ Load "d1" "b1" ]
       [] ∅).

(* a stand-in for tsam: a single segment that lasts the whole period and
   holds the mean of each series *)
Definition one_segment (raw : frame) (hours_per_period : nat)
    (no_segments : Z) (solver : string) : result frame :=
  inr (Frame (columns raw)
         [(Z.of_nat hours_per_period,
           map (fun j => fmean (column_at j (rows raw)))
               (seq 0 (length (columns raw))))]).

(* float() and int() on the literals of the examples *)
Definition sample_float (s : string) : option float :=
  match s with
  | "1.0" => Some f1
  | "1.5" => Some (fq 3 2)
  | "2" => Some (fq 2 1)
  | _ => None
  end.

Definition sample_int (s : string) : option Z :=
  match s with
  | "1" => Some 1
  | "2" => Some 2
  | _ => None
  end.

(* a run with the option token 2h and, in the configuration file, a
   segmentation into one segment; everything else is switched off *)
Definition both_config : config :=
  Config "2h" "v1.0" (fq 7 10) (PBool false) (PInt 1) "cbc"
    (PBool false) f0 f0 (PBool false) f0
    (PBool false) (PBool false) f0
    PInf PInf PInf PInf (PBool false) (PBool false).

Definition both_run : result unit * run_state :=
  main sample_float sample_int sample_offset true one_segment
    (fun _ _ => NaN) (fun _ _ => false)
    ["Generator"; "Link"; "StorageUnit"; "Store"] unit
    (fun _ l => line_capital_cost l) (fun _ k => link_capital_cost k)
    (fun _ _ => tt)
    both_config (Frame [] []) (RunState series_network []).

(* whether a call returned, rather than raised *)
Definition returned {A : Type} (r : result A) : bool :=
  match r with inr _ => true | inl _ => false end.

Definition sumZ (l : list Z) : Z := foldr Z.add 0 l.

(* unfolds the operations of the state and exception monad *)
Ltac run :=
  unfold bind, get, put, modify, when, ret, raise, or_raise, of_result; simpl.

(* --------------------------------------------------------------------- *)
(* Notions used to state further properties                               *)
(* --------------------------------------------------------------------- *)

(* s[-1], when s is not empty *)
Fixpoint last_char (s : string) : option ascii :=
  match s with
  | EmptyString => None
  | String c EmptyString => Some c
  | String _ s' => last_char s'
  end.

(* every character of s satisfies P *)
Fixpoint all_chars (P : ascii -> bool) (s : string) : bool :=
  match s with
  | EmptyString => true
  | String c s' => P c && all_chars P s'
  end.

(* the characters a match of [0-9]*\.?[0-9]+ is made of *)
Definition number_char (c : ascii) : bool :=
  is_digit c || bool_decide (c = "."%char).

(* gas_network with a GasLimit constraint already in place *)
Definition limited_gas_network : network :=
  set_global_constraints
    [ GlobalConstraint "GasLimit" "primary_energy" "gas_usage" "<=" (fq 7 1) ]
    gas_network.

(* grid_network with a second line whose type names no row of n.line_types *)
Definition typed_network : network :=
  set_lines
    (lines grid_network ++
     [ Line "l9" "b1" "b2" "Al/St 240/40 2-bundle 220.0" f1 (fq 80 1) (fq 700 1)
         f0 PInf false f1 (fq 3 1) ])
    grid_network.

(* the labels that enforce_autarky hands to n.mremove *)
Definition autarky_lines_rm (only_crossborder : bool) (n : network)
    : list string :=
  if only_crossborder
  then map line_name
         (filter (fun l => country_ne (country_of n (line_bus0 l))
                                      (country_of n (line_bus1 l)) = true)
                 (lines n))
  else map line_name (lines n).

Definition autarky_links_rm (only_crossborder : bool) (n : network)
    : list string :=
  if only_crossborder
  then map link_name
         (filter (fun k => country_ne (country_of n (link_bus0 k))
                                      (country_of n (link_bus1 k)) = true)
                 (links n))
  else map link_name (filter (fun k => is_dc k = true) (links n)).

(* a network after n.mremove("Line", lines_rm) and n.mremove("Link", links_rm) *)
Definition without (lines_rm links_rm : list string) (n : network) : network :=
  set_pnl (alter (fmap (drop_columns links_rm)) "links"
             (alter (fmap (drop_columns lines_rm)) "lines" (pnl n)))
    (set_links (filter (fun k => link_name k ∉ links_rm) (links n))
       (set_lines (filter (fun l => line_name l ∉ lines_rm) (lines n)) n)).

(* border_network with a line that ends at a bus the network does not have *)
Definition dangling_network : network :=
  set_lines
    (lines border_network ++
     [ Line "l7" "b1" "zz" "" f1 (fq 10 1) (fq 100 1) f0 PInf false f1 (fq 3 1) ])
    border_network.

(* a price file whose only row lies outside the two hours of price_network *)
Definition stale_price : frame :=
  Frame ["price"] [(5 * hour_ns, [fq 80 1])].

(* two snapshots three hours apart, with a load series: the hours in
   between are missing *)
Definition gap_network : network :=
  set_pnl
    {[ "loads" :=
         {[ "p_set" := Frame ["d1"] [(0, [fq 4 1]); (3 * hour_ns, [fq 8 1])] ]} ]}
    (Network [0; 3 * hour_ns]
       (Frame weightings_columns
          [(0, [f1; f1; f1]); (3 * hour_ns, [f1; f1; f1])])
       [ Bus "b1" "PL" (fq 380 1) ] [] [] [] [] [] [] []
       [ Load "d1" "b1" ] [] ∅).

(* The order of the script.  The transform that prices emissions is the
   dynamic one when the token Ept or the setting co2_monthly_prices asks
   for it, and the static one otherwise. *)
Definition pricing_step (cfg : config) : string :=
  if bool_decide ("Ept" ∈ split_on "-"%char (wildcard_opts cfg))
     || truthy (emission_prices_co2_monthly_prices cfg)
  then "add_dynamic_emission_prices"
  else "add_emission_prices".

Definition script_order (cfg : config) : list string :=
  [ "set_line_s_max_pu"; "average_every_nhours"; "apply_time_segmentation";
    "add_co2limit"; "add_gaslimit"; pricing_step cfg;
    "set_transmission_limit"; "set_line_nom_max"; "enforce_autarky" ].

(* a part of the script that applies transforms out of may, in that order
   and each at most once, and all of must when it returns *)
Definition traces {A : Type} (m : M run_state A) (may must : list string)
    : Prop :=
  forall s,
    exists tr,
      applied (m s).2 = applied s ++ tr /\
      tr `sublist_of` may /\
      (returned (m s).1 = true -> must `sublist_of` tr).

(* grid_network with the carrier AC listed *)
Definition ac_network : network :=
  set_carriers [ Carrier "AC" ∅; Carrier "DC" ∅ ] grid_network.

(* gas_network with a generator and with a store *)
Definition store_network : network :=
  set_stores [ Store "h2" "H2" (fq 11 1) f0 ]
    (set_generators
       [ Generator "s1" "solar" f1 (fq 40 1) (fq 100 1) f0 ]
       gas_network).

(* grid_network with maximum capacities: 1500 MVA for the line, 300 MW for
   the DC link, none for the hydrogen pipeline *)
Definition capped_network : network :=
  set_links
    [ Link "dc1" "b1" "b2" "DC" (fq 100 1) (fq 200 1) f0 (fq 300 1) false
        (fq 7 1) f0;
      Link "h2" "b1" "b2" "H2 pipeline" (fq 50 1) (fq 30 1) f0 PInf false
        (fq 9 1) f0 ]
    (set_lines
       [ Line "l1" "b1" "b2" "" f1 (fq 120 1) (fq 1000 1) f0 (fq 1500 1) false
           f1 (fq 3 1) ]
       grid_network).

(* grid_network with a line type, and a second line of that type whose
   s_nom is not the rating of the type *)
Definition rated_network : network :=
  set_links (links grid_network)
    (Network [] (Frame weightings_columns [])
       [ Bus "b1" "PL" (fq 380 1); Bus "b2" "DE" (fq 380 1) ]
       []
       [ LineType "Al/St 240/40 2-bundle 220.0" (fq 129 100) ]
       [ Line "l1" "b1" "b2" "" f1 (fq 120 1) (fq 1000 1) f0 PInf false f1
           (fq 3 1);
         Line "l9" "b1" "b2" "Al/St 240/40 2-bundle 220.0" f1 (fq 80 1)
           (fq 700 1) f0 PInf false f1 (fq 3 1) ]
       [] [] [] [] [] [] ∅).


(* a stand-in for tsam that cuts a period into three segments: the first
   step, the steps in between, and the last step, each with the values of
   its first step *)
Definition three_segments (raw : frame) (hours_per_period : nat)
    (no_segments : Z) (solver : string) : result frame :=
  let cells (i : nat) := default [] (snd <$> rows raw !! i) in
  inr (Frame (columns raw)
         [ (1, cells 0%nat);
           (Z.of_nat hours_per_period - 2, cells 1%nat);
           (1, cells (hours_per_period - 1)%nat) ]).

(* a stand-in for tsam as it answers for a period that is one step long:
   one segment of duration 1 *)
Definition one_step_segment (raw : frame) (hours_per_period : nat)
    (no_segments : Z) (solver : string) : result frame :=
  inr (Frame (columns raw)
         [ (1, map (fun j => fmean (column_at j (rows raw)))
                   (seq 0 (length (columns raw)))) ]).

(* two snapshots two hours apart, with the three series that the
   segmentation reads *)
Definition two_hourly_network : network :=
  let idx := [0; 2 * hour_ns] in
  set_pnl
    {[ "generators" :=
         {[ "p_max_pu" := Frame ["g1"] (zip idx [[fq 1 2]; [f1]]) ]};
       "loads" := {[ "p_set" := Frame ["d1"] (zip idx [[fq 4 1]; [fq 8 1]]) ]};
       "storage_units" :=
         {[ "inflow" := Frame ["su1"] (zip idx [[f1]; [fq 2 1]]) ]} ]}
    (Network idx
       (Frame weightings_columns (zip idx (replicate 2 [fq 2 1; fq 2 1; fq 2 1])))
       [ Bus "b1" "PL" (fq 380 1) ]
       [ Carrier "gas" {[ "co2_emissions" := fq 1 5 ]};
         Carrier "hydro" {[ "co2_emissions" := f0 ]} ]
       [] [] []
       [ Generator "g1" "gas" (fq 1 2) PInf (fq 100 1) (fq 10 1) ]
       [ StorageUnit "su1" "hydro" (fq 9 10) PInf f0 f1 ]
       []
       [ Load "d1" "b1" ]
       [] ∅).

(* price_network with a wind generator and a battery, whose carriers are
   not rows of n.carriers *)
Definition orphan_network : network :=
  set_storage_units
    (storage_units price_network ++
     [ StorageUnit "su2" "battery" (fq 9 10) PInf f0 (fq 2 1) ])
    (set_generators
       (generators price_network ++
        [ Generator "g3" "wind" f1 PInf (fq 100 1) (fq 3 1) ])
       price_network).

(* ===================================================================== *)
(* Properties                                                             *)
(* ===================================================================== *)

(* --------------------------------------------------------------------- *)
(* float64 facts                                                          *)
(* --------------------------------------------------------------------- *)

Lemma fgtb_irrefl (x : float) : fgtb x x = false.
Proof.
  unfold fgtb, SFltb. destruct x as [[]|[]| |[] m e]; simpl; try done;
    by rewrite Z.compare_refl, Pos.compare_cont_refl.
Qed.

Lemma clip_upper_within (u x : float) : within u (clip_upper u x).
Proof.
  unfold within, clip_upper. destruct (isnan u) eqn:Hu.
  - destruct u; try discriminate. by destruct x.
  - destruct (fgtb x u) eqn:Hx; [apply fgtb_irrefl | done].
Qed.

Lemma clip_upper_fixed (u x : float) : within u x -> clip_upper u x = x.
Proof.
  unfold within, clip_upper. intros ->. by destruct (isnan u).
Qed.

Lemma clip_upper_changes (u x : float) : clip_upper u x = x -> within u x.
Proof. intros <-. apply clip_upper_within. Qed.

Lemma clip_upper_idem (u x : float) :
  clip_upper u (clip_upper u x) = clip_upper u x.
Proof. apply clip_upper_fixed, clip_upper_within. Qed.

(* --------------------------------------------------------------------- *)
(* set_line_nom_max                                                       *)
(* --------------------------------------------------------------------- *)

Section LineNomMax.
Variables (s_set p_set s_ext p_ext : float).

Let limited (n : network) : network :=
  set_line_nom_max n s_set p_set s_ext p_ext.

Lemma set_line_nom_max_lines (n : network) :
  lines (limited n) =
  map (fun l => line_with_s_nom_max
                  (clip_upper s_set
                     (if budget_given s_ext then fadd (s_nom l) s_ext
                      else s_nom_max l)) l)
      (lines n).
Proof.
  unfold limited, set_line_nom_max.
  destruct (budget_given s_ext), (budget_given p_ext); simpl;
    rewrite ?map_map; apply map_ext; by intros [].
Qed.

Lemma set_line_nom_max_links (n : network) :
  links (limited n) =
  map (fun k => link_with_p_nom_max
                  (clip_upper p_set
                     (if budget_given p_ext && is_dc k
                      then fadd (p_nom k) p_ext else p_nom_max k)) k)
      (links n).
Proof.
  unfold limited, set_line_nom_max.
  destruct (budget_given s_ext), (budget_given p_ext); simpl;
    rewrite ?map_map; apply map_ext; intros []; simpl;
    unfold is_dc; simpl; by repeat case_bool_decide.
Qed.

(* everything but the two capacity columns is left alone *)
Lemma set_line_nom_max_frame (n : network) :
  limited n = set_links (links (limited n)) (set_lines (lines (limited n)) n).
Proof.
  unfold limited, set_line_nom_max.
  by destruct (budget_given s_ext), (budget_given p_ext), n.
Qed.

Lemma set_line_nom_max_satisfied (n : network) :
  Forall (fun l => within s_set (s_nom_max l)) (lines (limited n)) /\
  Forall (fun k => within p_set (p_nom_max k)) (links (limited n)).
Proof.
  rewrite set_line_nom_max_lines, set_line_nom_max_links.
  split; apply Forall_map, Forall_true; intros x; simpl;
    apply clip_upper_within.
Qed.

Lemma set_line_nom_max_again (n : network) : limited (limited n) = limited n.
Proof.
  rewrite (set_line_nom_max_frame (limited n)).
  rewrite (set_line_nom_max_lines (limited n)).
  rewrite (set_line_nom_max_links (limited n)).
  etrans; [|symmetry; apply set_line_nom_max_frame].
  rewrite !set_line_nom_max_lines, !set_line_nom_max_links, !map_map.
  rewrite (set_line_nom_max_frame n).
  unfold set_links, set_lines. simpl. f_equal.
  - apply map_ext. intros l. simpl.
    destruct (budget_given s_ext); simpl; by rewrite ?clip_upper_idem.
  - apply map_ext. intros k. unfold is_dc. simpl.
    destruct (budget_given p_ext && _); simpl;
      by rewrite ?clip_upper_idem.
Qed.
End LineNomMax.

(* Without an extension budget the network is left as it is exactly when
   every line and every link, whatever its carrier, is within its ceiling. *)
Lemma set_line_nom_max_unchanged_iff (n : network) (s_set p_set s_ext p_ext : float) :
  budget_given s_ext = false -> budget_given p_ext = false ->
  set_line_nom_max n s_set p_set s_ext p_ext = n <->
  Forall (fun l => within s_set (s_nom_max l)) (lines n) /\
  Forall (fun k => within p_set (p_nom_max k)) (links n).
Proof.
  intros Hs Hp. split.
  - intros Heq.
    destruct (set_line_nom_max_satisfied s_set p_set s_ext p_ext n) as [Hl Hk].
    rewrite Heq in Hl, Hk. done.
  - intros [Hl Hk]. rewrite set_line_nom_max_frame.
    rewrite set_line_nom_max_lines, set_line_nom_max_links, Hs, Hp. simpl.
    replace (map _ (lines n)) with (lines n).
    2:{ rewrite <- (map_id (lines n)) at 1. apply map_ext_Forall.
        eapply Forall_impl; [exact Hl|]. intros [] Hw. simpl in *.
        unfold line_with_s_nom_max. simpl. by rewrite clip_upper_fixed. }
    replace (map _ (links n)) with (links n).
    2:{ rewrite <- (map_id (links n)) at 1. apply map_ext_Forall.
        eapply Forall_impl; [exact Hk|]. intros [] Hw. simpl in *.
        unfold link_with_p_nom_max. simpl. by rewrite clip_upper_fixed. }
    by destruct n.
Qed.

(** C9 (set_line_nom_max on a network that satisfies the ceilings), as the
    code has it.  Let no finite positive extension budget be given.  The
    call leaves the network unchanged exactly when the maximum capacity of
    every line and of every link, whatever the carrier of the link, does
    not exceed its ceiling: the ceiling of the links is applied to all
    links, not to the DC links alone.  And applying the operation to its
    own result with the same arguments changes nothing: applying it twice
    equals applying it once. *)
Theorem set_line_nom_max_satisfied_unchanged (n : network)
    (s_nom_max_set p_nom_max_set s_nom_max_ext p_nom_max_ext : float) :
  budget_given s_nom_max_ext = false ->
  budget_given p_nom_max_ext = false ->
  let once :=
    set_line_nom_max n s_nom_max_set p_nom_max_set s_nom_max_ext p_nom_max_ext in
  (once = n <->
   Forall (fun l => fgtb (s_nom_max l) s_nom_max_set = false) (lines n) /\
   Forall (fun k => fgtb (p_nom_max k) p_nom_max_set = false) (links n)) /\
  set_line_nom_max once s_nom_max_set p_nom_max_set s_nom_max_ext p_nom_max_ext
    = once.
Proof.
  intros Hs Hp once. unfold once. split.
  - apply (set_line_nom_max_unchanged_iff n _ _ _ _ Hs Hp).
  - apply set_line_nom_max_again.
Qed.

(* ceilings of 2000 MVA and 400 MW on capped_network, whose hydrogen
   pipeline has no maximum capacity *)
Lemma set_line_nom_max_satisfied_unchanged_witness :
  let n := capped_network in
  let once := set_line_nom_max n (fq 2000 1) (fq 400 1) PInf PInf in
  budget_given PInf = false /\
  (once = n <->
   Forall (fun l => fgtb (s_nom_max l) (fq 2000 1) = false) (lines n) /\
   Forall (fun k => fgtb (p_nom_max k) (fq 400 1) = false) (links n)) /\
  set_line_nom_max once (fq 2000 1) (fq 400 1) PInf PInf = once.
Proof.
  intros n once. split; [reflexivity|].
  exact (set_line_nom_max_satisfied_unchanged n (fq 2000 1) (fq 400 1)
           PInf PInf eq_refl eq_refl).
Defined.

(** C9, counterexample to the sentence of the specification: on
    capped_network the maximum capacity of the line and of the DC link
    satisfy the ceilings of 2000 MVA and 400 MW, and no extension budget is
    given; yet set_line_nom_max with these ceilings changes the network,
    because the hydrogen pipeline, a link that is not DC, has its maximum
    capacity cut from infinity to 400 MW. *)
Lemma set_line_nom_max_clips_other_links :
  let n := capped_network in
  let after := set_line_nom_max n (fq 2000 1) (fq 400 1) PInf PInf in
  Forall (fun l => fgtb (s_nom_max l) (fq 2000 1) = false) (lines n) /\
  Forall (fun k => link_carrier k = "DC" ->
                   fgtb (p_nom_max k) (fq 400 1) = false) (links n) /\
  after <> n /\
  map (fun k => (link_name k, link_carrier k, p_nom_max k)) (links n)
    = [("dc1", "DC", fq 300 1); ("h2", "H2 pipeline", PInf)] /\
  map (fun k => (link_name k, link_carrier k, p_nom_max k)) (links after)
    = [("dc1", "DC", fq 300 1); ("h2", "H2 pipeline", fq 400 1)].
Proof.
  intros n after.
  assert (map (fun k => (link_name k, link_carrier k, p_nom_max k)) (links after)
          = [("dc1", "DC", fq 300 1); ("h2", "H2 pipeline", fq 400 1)])
    as Hafter by (vm_compute; reflexivity).
  split; [repeat constructor|]. split.
  - repeat constructor; intros H; try discriminate H.
  - split; [|split; [reflexivity | exact Hafter]].
    intros Heq. rewrite Heq in Hafter. vm_compute in Hafter. discriminate Hafter.
Qed.

(* --------------------------------------------------------------------- *)
(* Global constraints                                                     *)
(* --------------------------------------------------------------------- *)

Lemma n_add_global_constraint_fresh (gc : global_constraint) (n : network) :
  gc_name gc ∉ map gc_name (global_constraints n) ->
  n_add_global_constraint gc n
  = (inr tt, set_global_constraints (global_constraints n ++ [gc]) n).
Proof.
  intros Hfresh. unfold n_add_global_constraint. run.
  by rewrite bool_decide_eq_false_2.
Qed.

Lemma n_add_global_constraint_taken (gc : global_constraint) (n : network) :
  gc_name gc ∈ map gc_name (global_constraints n) ->
  n_add_global_constraint gc n = (inl (AssertionError (gc_name gc)), n).
Proof.
  intros Htaken. unfold n_add_global_constraint. run.
  by rewrite bool_decide_eq_true_2.
Qed.

(* --------------------------------------------------------------------- *)
(* add_co2limit and add_gaslimit                                          *)
(* --------------------------------------------------------------------- *)

Lemma add_co2limit_appends (co2limit Nyears : float) (n : network) :
  "CO2Limit" ∉ map gc_name (global_constraints n) ->
  add_co2limit co2limit Nyears n
  = (inr tt,
     set_global_constraints
       (global_constraints n ++
        [GlobalConstraint "CO2Limit" "primary_energy" "co2_emissions" "<="
           (fmul co2limit Nyears)]) n).
Proof. intros H. unfold add_co2limit. by apply n_add_global_constraint_fresh. Qed.

Lemma gas_selection (n : network) (c : carrier) :
  c ∈ carriers n ->
  carrier_name c ∈ filter (fun name => name ∈ gas_carriers)
                     (map carrier_name (carriers n))
  <-> carrier_name c ∈ gas_carriers.
Proof.
  intros Hc. rewrite list_elem_of_filter. split; [by intros [? _]|].
  intros Hg. split; [done|].
  apply list_elem_of_In, in_map, list_elem_of_In, Hc.
Qed.

(** C6 (add_gaslimit), as the code has it. For every network that has no
    global constraint named GasLimit yet, add_gaslimit(limit, years_factor)
    returns normally; it sets the gas_usage cell to 1.0 for exactly the
    carriers of the network that are among OCGT, CCGT and CHP, leaving their
    other cells alone, and leaves every cell of every other carrier as it
    was (so their gas_usage stays missing where it was missing, it is not
    set to 0); and it appends exactly one global constraint, on the
    gas_usage attribute, with sense "<=" and constant limit * years_factor. *)
Theorem add_gaslimit_effects (gaslimit Nyears : float) (n : network) :
  "GasLimit" ∉ map gc_name (global_constraints n) ->
  exists n',
    add_gaslimit gaslimit Nyears n = (inr tt, n') /\
    Forall2 (fun c c' =>
               carrier_name c' = carrier_name c /\
               if bool_decide (carrier_name c ∈ gas_carriers)
               then cell c' "gas_usage" = f1 /\
                    forall col, col ≠ "gas_usage" -> cell c' col = cell c col
               else c' = c)
            (carriers n) (carriers n') /\
    global_constraints n' =
      global_constraints n ++
      [GlobalConstraint "GasLimit" "primary_energy" "gas_usage" "<="
         (fmul gaslimit Nyears)].
Proof.
  intros Hfresh. unfold add_gaslimit. run.
  rewrite n_add_global_constraint_fresh by (by destruct n).
  eexists. split; [reflexivity|]. split; [|by destruct n].
  destruct n; simpl. clear Hfresh.
  apply Forall2_fmap_r, Forall_Forall2_diag, Forall_forall. intros c Hc.
  pose proof (gas_selection
    (Network snapshots0 snapshot_weightings0 buses0 carriers0 line_types0
       lines0 links0 generators0 storage_units0 stores0 loads0
       global_constraints0 pnl0) c Hc) as Hsel. simpl in Hsel.
  unfold compose.
  destruct (decide (carrier_name c ∈ gas_carriers)) as [Hg|Hg].
  - rewrite !bool_decide_eq_true_2 by (done || by apply Hsel).
    split; [done|]. unfold cell, carrier_with; simpl. split.
    + by rewrite lookup_insert_eq.
    + intros col Hcol. by rewrite lookup_insert_ne.
  - rewrite !bool_decide_eq_false_2 by (done || by rewrite Hsel). done.
Qed.

(* a network without a GasLimit constraint: the two carriers of gas_network *)
Lemma add_gaslimit_effects_witness :
  exists n',
    add_gaslimit (fq 5 1) (fq 2 1) gas_network = (inr tt, n') /\
    Forall2 (fun c c' =>
               carrier_name c' = carrier_name c /\
               if bool_decide (carrier_name c ∈ gas_carriers)
               then cell c' "gas_usage" = f1 /\
                    forall col, col ≠ "gas_usage" -> cell c' col = cell c col
               else c' = c)
            (carriers gas_network) (carriers n') /\
    global_constraints n' =
      global_constraints gas_network ++
      [GlobalConstraint "GasLimit" "primary_energy" "gas_usage" "<="
         (fmul (fq 5 1) (fq 2 1))].
Proof.
  apply (add_gaslimit_effects (fq 5 1) (fq 2 1) gas_network).
  simpl. apply not_elem_of_nil.
Defined.

(** C6, counterexample to the sentence of the specification: on a network with the
    carriers OCGT and solar and no gas_usage column, add_gaslimit leaves the
    gas_usage cell of solar missing (NaN), not 0. *)
Lemma add_gaslimit_others_not_zero :
  ~ (forall c', c' ∈ carriers (add_gaslimit (fq 5 1) (fq 2 1) gas_network).2 ->
                carrier_name c' ∉ gas_carriers ->
                cell c' "gas_usage" = f0).
Proof.
  intros Hclaim.
  specialize (Hclaim (Carrier "solar" {[ "co2_emissions" := f0 ]})).
  assert (cell (Carrier "solar" {[ "co2_emissions" := f0 ]}) "gas_usage" = f0)
    as Hcell.
  { apply Hclaim.
    - vm_compute. apply list_elem_of_In. right. left. reflexivity.
    - unfold gas_carriers. simpl. intros Hin.
      apply list_elem_of_In in Hin. simpl in Hin.
      destruct Hin as [H|[H|[H|[]]]]; discriminate H. }
  vm_compute in Hcell. discriminate Hcell.
Qed.

(* --------------------------------------------------------------------- *)
(* set_transmission_limit                                                 *)
(* --------------------------------------------------------------------- *)

Section TransmissionLimit.
Variable py_float : string -> option float.
Variable costs : Type.
Variable line_cost : costs -> line -> float.
Variable link_cost : costs -> link -> float.

Lemma float_of_value (S : Type) (v : pyval) (x : float) (s : S) :
  float_value py_float v = Some x -> float_of py_float v s = (inr x, s).
Proof. unfold float_of. by intros ->. Qed.

Lemma zip_with_extendable (f : line -> float) (g : line -> line) (ls : list line) :
  zip_with line_with_extendable (map f ls) (map g ls)
  = map (fun l => line_with_extendable (f l) (g l)) ls.
Proof. induction ls as [|l ls IH]; simpl; [done | by rewrite IH]. Qed.

Lemma filter_dc (ks : list link) :
  filter (fun k => is_dc k = true) ks
  = filter (fun k => link_carrier k = "DC") ks.
Proof.
  induction ks as [|k ks IH]; [done|].
  rewrite !filter_cons, IH. unfold is_dc.
  destruct (decide (bool_decide (link_carrier k = "DC") = true)) as [Hb|Hb],
           (decide (link_carrier k = "DC")) as [Hc|Hc]; try done.
  - by apply bool_decide_eq_true_1 in Hb.
  - destruct Hb. by apply bool_decide_eq_true_2.
Qed.

(** C1 (set_transmission_limit), as the code has it.  Let the factor be
    the sentinel "opt" ([lim] is None) or read as the number x ([lim] is
    Some x; the name of the limit constraint is then still free).  The
    call returns normally.  All lines and all DC links are marked
    capacity-extendable exactly when the factor is "opt" or x > 1.0;
    otherwise these columns keep their values.  The minimum capacity that
    a line then gets is the capacity that the code computes for it: its
    s_nom when the line names no line type, and else the rating of its
    type, sqrt(3) * i_nom * num_parallel * v_nom of its first bus, which
    need not be the s_nom the line had.  A DC link gets its p_nom.  And
    one global constraint with sense "<=" and constant x * reference is
    appended exactly when the factor is not "opt", the reference being the
    sum over the lines of capacity times cost (or length) plus the sum
    over the DC links of p_nom times cost (or length), all taken before
    the call; for "opt" none is added. *)
Theorem set_transmission_limit_effects (n : network) (ll_type : string)
    (factor : pyval) (c : costs) (Nyears : float) (lim : option float) :
  match lim with
  | None => factor = PStr "opt"
  | Some x =>
      is_opt factor = false /\ float_value py_float factor = Some x /\
      "l" +:+ ll_type +:+ "_limit" ∉ map gc_name (global_constraints n)
  end ->
  let extend := match lim with None => true | Some x => fgtb x f1 end in
  let capacity (l : line) : float :=
    if bool_decide (type l = "") then s_nom l
    else fmul (fmul (fmul sqrt3
                       (map_float line_type_name i_nom (line_types n) (type l)))
                 (num_parallel l))
           (map_float bus_name v_nom (buses n) (line_bus0 l)) in
  let line_weight (l : line) : float :=
    if bool_decide (ll_type = "c") then line_capital_cost l else length_km l in
  let link_weight (k : link) : float :=
    if bool_decide (ll_type = "c") then link_capital_cost k else link_length k in
  let dc := filter (fun k => link_carrier k = "DC") (links n) in
  let reference :=
    fadd (fdot (map capacity (lines n)) (map line_weight (lines n)))
         (fdot (map p_nom dc) (map link_weight dc)) in
  exists n',
    set_transmission_limit py_float costs line_cost link_cost
      ll_type factor c Nyears n = (inr tt, n') /\
    Forall2 (fun l l' =>
               line_name l' = line_name l /\ type l' = type l /\
               s_nom l' = s_nom l /\
               if extend
               then s_nom_extendable l' = true /\ s_nom_min l' = capacity l
               else s_nom_extendable l' = s_nom_extendable l /\
                    s_nom_min l' = s_nom_min l)
            (lines n) (lines n') /\
    Forall2 (fun k k' =>
               link_name k' = link_name k /\
               link_carrier k' = link_carrier k /\ p_nom k' = p_nom k /\
               if extend && bool_decide (link_carrier k = "DC")
               then p_nom_extendable k' = true /\ p_nom_min k' = p_nom k
               else p_nom_extendable k' = p_nom_extendable k /\
                    p_nom_min k' = p_nom_min k)
            (links n) (links n') /\
    global_constraints n' =
      global_constraints n ++
      match lim with
      | None => []
      | Some x =>
          [GlobalConstraint ("l" +:+ ll_type +:+ "_limit")
             ("transmission_" +:+
              (if bool_decide (ll_type = "c")
               then "expansion_cost" else "volume_expansion") +:+ "_limit")
             "AC, DC" "<=" (fmul x reference)]
      end.
Proof.
  intros Hfactor extend capacity line_weight link_weight dc reference.
  assert (transmission_ref n ll_type = reference) as Href.
  { unfold transmission_ref, reference, dc. by rewrite filter_dc. }
  unfold set_transmission_limit.
  unfold bind at 1. unfold get at 1. cbv beta iota zeta.
  rewrite Href. clearbody reference. clear Href dc.
  change (lines_s_nom n) with capacity.
  unfold update_transmission_costs.
  assert (forall (ls : list line) (f : line -> line),
            Forall (fun l =>
                      line_name (f l) = line_name l /\ type (f l) = type l /\
                      s_nom (f l) = s_nom l /\
                      s_nom_extendable (f l) = s_nom_extendable l /\
                      s_nom_min (f l) = s_nom_min l) ls ->
            Forall2 (fun l l' =>
                       line_name l' = line_name l /\ type l' = type l /\
                       s_nom l' = s_nom l /\
                       s_nom_extendable l' = true /\ s_nom_min l' = capacity l)
                    ls (zip_with line_with_extendable (map capacity ls)
                          (map f ls))) as Hlines_ext.
  { intros ls f Hf. rewrite zip_with_extendable.
    apply Forall2_fmap_r, Forall_Forall2_diag.
    eapply Forall_impl; [exact Hf|]. intros l (H1 & H2 & H3 & _). by cbn. }
  assert (forall (ls : list line) (f : line -> line),
            Forall (fun l =>
                      line_name (f l) = line_name l /\ type (f l) = type l /\
                      s_nom (f l) = s_nom l /\
                      s_nom_extendable (f l) = s_nom_extendable l /\
                      s_nom_min (f l) = s_nom_min l) ls ->
            Forall2 (fun l l' =>
                       line_name l' = line_name l /\ type l' = type l /\
                       s_nom l' = s_nom l /\
                       s_nom_extendable l' = s_nom_extendable l /\
                       s_nom_min l' = s_nom_min l)
                    ls (map f ls)) as Hlines_same.
  { intros ls f Hf. apply Forall2_fmap_r, Forall_Forall2_diag.
    eapply Forall_impl; [exact Hf|]. by intros l. }
  assert (Forall (fun l =>
                    line_name (line_with_capital_cost (line_cost c l) l)
                      = line_name l /\
                    type (line_with_capital_cost (line_cost c l) l) = type l /\
                    s_nom (line_with_capital_cost (line_cost c l) l) = s_nom l /\
                    s_nom_extendable (line_with_capital_cost (line_cost c l) l)
                      = s_nom_extendable l /\
                    s_nom_min (line_with_capital_cost (line_cost c l) l)
                      = s_nom_min l) (lines n)) as Hcost_lines.
  { apply Forall_forall. by intros l _. }
  assert (forall b : bool,
            Forall2 (fun k k' =>
                       link_name k' = link_name k /\
                       link_carrier k' = link_carrier k /\ p_nom k' = p_nom k /\
                       if b && bool_decide (link_carrier k = "DC")
                       then p_nom_extendable k' = true /\ p_nom_min k' = p_nom k
                       else p_nom_extendable k' = p_nom_extendable k /\
                            p_nom_min k' = p_nom_min k)
                    (links n)
                    (if b
                     then map (fun k => if is_dc k
                                        then link_with_extendable (p_nom k) k
                                        else k)
                              (map (fun k => link_with_capital_cost
                                               (link_cost c k) k) (links n))
                     else map (fun k => link_with_capital_cost (link_cost c k) k)
                              (links n))) as Hlinks.
  { intros b. destruct b; rewrite ?map_map;
      apply Forall2_fmap_r, Forall_Forall2_diag, Forall_forall;
      intros k _; unfold compose, is_dc; cbn; [|done].
    by case_bool_decide. }
  assert (forall ls ks m, lines (set_links ks (set_lines ls m)) = ls)
    as Hl by (by intros ? ? []).
  assert (forall ls ks m, links (set_links ks (set_lines ls m)) = ks)
    as Hk by (by intros ? ? []).
  assert (forall ls ks m,
            global_constraints (set_links ks (set_lines ls m))
            = global_constraints m) as Hg by (by intros ? ? []).
  assert (forall gcs m, lines (set_global_constraints gcs m) = lines m)
    as Hl' by (by intros ? []).
  assert (forall gcs m, links (set_global_constraints gcs m) = links m)
    as Hk' by (by intros ? []).
  assert (forall gcs m,
            global_constraints (set_global_constraints gcs m) = gcs)
    as Hg' by (by intros ? []).
  destruct lim as [x|].
  - destruct Hfactor as (Hopt & Hval & Hfresh).
    unfold bind at 1. unfold modify at 1. rewrite Hopt.
    unfold bind at 1 2. rewrite (float_of_value _ _ _ _ Hval).
    unfold ret at 1. subst extend. cbn [negb].
    destruct (fgtb x f1) eqn:Hgt; unfold when, modify, ret;
      unfold bind; rewrite (float_of_value _ _ _ _ Hval);
      rewrite n_add_global_constraint_fresh by (by rewrite ?Hg);
      (eexists; split; [reflexivity|]);
      rewrite ?Hl', ?Hk', ?Hg', ?Hl, ?Hk, ?Hg.
    + split; [by apply Hlines_ext|]. split; [apply (Hlinks true) | done].
    + split; [by apply Hlines_same|]. split; [apply (Hlinks false) | done].
  - subst factor. unfold bind, modify, when, ret. cbn [is_opt negb].
    rewrite bool_decide_eq_true_2 by done. cbn [negb].
    eexists; split; [reflexivity|].
    rewrite ?Hl, ?Hk, ?Hg, app_nil_r.
    split; [by apply Hlines_ext|]. split; [apply (Hlinks true) | done].
Qed.
End TransmissionLimit.

(* the call of the testable property, set_transmission_limit("v", 1.5, ...),
   on rated_network, which has a line of a line type *)
Lemma set_transmission_limit_effects_witness :
  let n := rated_network in
  exists n',
    set_transmission_limit (fun _ => None) unit
      (fun (_ : unit) l => line_capital_cost l)
      (fun (_ : unit) k => link_capital_cost k)
      "v" (PFloat (fq 3 2)) tt f1 n = (inr tt, n') /\
    map (fun l => (line_name l, s_nom_extendable l, s_nom_min l)) (lines n')
      = [ ("l1", true, fq 1000 1);
          ("l9", true, fmul (fmul (fmul sqrt3 (fq 129 100)) f1) (fq 380 1)) ] /\
    map (fun k => (link_name k, p_nom_extendable k, p_nom_min k)) (links n')
      = [ ("dc1", true, fq 500 1); ("h2", false, f0) ] /\
    map constant (global_constraints n')
      = [ fmul (fq 3 2)
            (fadd (fadd (fadd f0 (fmul (fq 1000 1) (fq 120 1)))
                     (fmul (fmul (fmul (fmul sqrt3 (fq 129 100)) f1) (fq 380 1))
                           (fq 80 1)))
                  (fadd f0 (fmul (fq 500 1) (fq 100 1)))) ].
Proof.
  intros n.
  destruct (set_transmission_limit_effects (fun _ => None) unit
              (fun _ l => line_capital_cost l) (fun _ k => link_capital_cost k)
              n "v" (PFloat (fq 3 2)) tt f1 (Some (fq 3 2)))
    as (n' & Hrun & _).
  { split; [reflexivity|]. split; [reflexivity|]. apply not_elem_of_nil. }
  exists n'. split; [exact Hrun|].
  vm_compute in Hrun. injection Hrun as <-.
  repeat split; vm_compute; reflexivity.
Defined.

(** C1, counterexample to the sentence of the specification: the line l9 of
    rated_network has the capacity s_nom = 700 MVA and names a line type.
    Made extendable by set_transmission_limit, it gets the minimum
    capacity sqrt(3) * 1.29 * 1 * 380, which lies between 849 and 850 MVA
    and is not the capacity it had before the call. *)
Lemma set_transmission_limit_min_not_capacity :
  let n := rated_network in
  let n' := (set_transmission_limit (fun _ => None) unit
               (fun (_ : unit) l => line_capital_cost l)
               (fun (_ : unit) k => link_capital_cost k)
               "v" (PStr "opt") tt f1 n).2 in
  map (fun l => (line_name l, s_nom l)) (lines n)
    = [("l1", fq 1000 1); ("l9", fq 700 1)] /\
  map (fun l => (line_name l, s_nom_extendable l, s_nom_min l)) (lines n')
    = [ ("l1", true, fq 1000 1);
        ("l9", true, fmul (fmul (fmul sqrt3 (fq 129 100)) f1) (fq 380 1)) ] /\
  fgtb (fmul (fmul (fmul sqrt3 (fq 129 100)) f1) (fq 380 1)) (fq 849 1) = true /\
  fgtb (fq 850 1) (fmul (fmul (fmul sqrt3 (fq 129 100)) f1) (fq 380 1)) = true /\
  ~ Forall2 (fun l l' => s_nom_min l' = s_nom l) (lines n) (lines n').
Proof.
  intros n n'.
  assert (map (fun l => (line_name l, s_nom_extendable l, s_nom_min l)) (lines n')
          = [ ("l1", true, fq 1000 1);
              ("l9", true, fmul (fmul (fmul sqrt3 (fq 129 100)) f1) (fq 380 1)) ])
    as Hafter by (vm_compute; reflexivity).
  split; [reflexivity|]. split; [exact Hafter|].
  split; [vm_compute; reflexivity|]. split; [vm_compute; reflexivity|].
  intros Hall.
  assert (map s_nom_min (lines n') = map s_nom (lines n)) as Heq.
  { clear Hafter. induction Hall as [|l l' ls ls' Hl _ IH]; [done|].
    simpl. by rewrite Hl, IH. }
  vm_compute in Heq. discriminate Heq.
Qed.

(* --------------------------------------------------------------------- *)
(* add_emission_prices                                                    *)
(* --------------------------------------------------------------------- *)

Lemma fsum_single (x : float) : isnan x = false -> fsum [x] = x.
Proof. intros Hx. unfold fsum. by rewrite filter_cons_True by done. Qed.

Lemma fsum_single_nan : fsum [NaN] = f0.
Proof. reflexivity. Qed.

(* with the single price {"co2": p}, ep is p times the CO2 intensity *)
Lemma emission_price_single (p : float) (cr : carrier) :
  isnan (fmul p (cell cr "co2_emissions")) = false ->
  emission_price {[ "co2" := p ]} cr = fmul p (cell cr "co2_emissions").
Proof.
  intros Hnan. unfold emission_price. rewrite map_to_list_singleton. simpl.
  by apply fsum_single.
Qed.

Lemma select_labels_known {A : Type} (label : A -> string) (val : A -> float)
    (table : list A) (labels : list string) :
  Forall (fun k => is_Some (lookup_row label k table)) labels ->
  exists vs,
    select_labels label val table labels = inr vs /\
    Forall2 (fun k v => exists a, lookup_row label k table = Some a /\ v = val a)
            labels vs.
Proof.
  induction 1 as [|k ks [a Ha] Hks (vs & Hvs & IH)]; simpl.
  - exists []. by split.
  - rewrite Ha, Hvs. exists (val a :: vs). split; [done|].
    constructor; [by exists a | done].
Qed.

Lemma pnl_of_set_pnl_table (n : network) (list_name attr : string) (df : frame)
    (list_name' attr' : string) :
  pnl_of (set_pnl_table list_name attr df n) list_name' !! attr'
  = if bool_decide (list_name' = list_name /\ attr' = attr)
    then Some df else pnl_of n list_name' !! attr'.
Proof.
  unfold set_pnl_table, pnl_of at 1. destruct n; simpl.
  destruct (decide (list_name' = list_name)) as [->|Hl].
  - rewrite lookup_insert_eq. simpl.
    destruct (decide (attr' = attr)) as [->|Ha].
    + rewrite lookup_insert_eq. by rewrite bool_decide_eq_true_2.
    + rewrite lookup_insert_ne by done.
      rewrite bool_decide_eq_false_2; [done | tauto].
  - rewrite lookup_insert_ne by done.
    rewrite bool_decide_eq_false_2; [done | tauto].
Qed.

(** C4 (add_emission_prices with a single CO2 price p). Let the network
    have a time-varying marginal_cost table for generators whose columns
    are generators.  The call returns normally and leaves the price map as
    it was.  Each generator keeps its other cells, and its static marginal
    cost grows by the price of its carrier divided by its efficiency, which
    is exactly p * c / e when c is the CO2 intensity of its carrier (and
    p * c is a number); the time-varying marginal-cost table keeps its
    columns and in each of them every cell grows by the increment of the
    generator of that column; each storage unit keeps its other cells, and
    its static marginal cost grows by the price of its carrier divided by
    its dispatch efficiency, p * c / e again; and no other time-varying
    table, in particular none of the storage units, changes. *)
Theorem add_emission_prices_single_co2 (n : network) (p : float) (df : frame) :
  pnl_of n "generators" !! "marginal_cost" = Some df ->
  Forall (fun col => is_Some (lookup_row gen_name col (generators n)))
         (columns df) ->
  let prices : gmap string float := {[ "co2" := p ]} in
  (* the price of a carrier: the sum over the priced emissions, here the
     one of CO2, and nothing for a carrier that is not listed *)
  let price (carrier : string) : float :=
    map_float carrier_name
      (fun cr => fsum [fmul p (cell cr "co2_emissions")])
      (carriers n) carrier in
  exists n',
    add_emission_prices false (prices, n) = (inr tt, (prices, n')) /\
    Forall2 (fun g g' =>
               gen_name g' = gen_name g /\ gen_carrier g' = gen_carrier g /\
               efficiency g' = efficiency g /\
               gen_p_nom_max g' = gen_p_nom_max g /\
               gen_capital_cost g' = gen_capital_cost g /\
               gen_marginal_cost g' =
                 fadd (gen_marginal_cost g)
                      (fdiv (price (gen_carrier g)) (efficiency g)) /\
               forall cr,
                 lookup_row carrier_name (gen_carrier g) (carriers n) = Some cr ->
                 isnan (fmul p (cell cr "co2_emissions")) = false ->
                 gen_marginal_cost g' =
                   fadd (gen_marginal_cost g)
                        (fdiv (fmul p (cell cr "co2_emissions")) (efficiency g)))
            (generators n) (generators n') /\
    (exists incs,
       Forall2 (fun col inc =>
                  exists g, lookup_row gen_name col (generators n) = Some g /\
                            inc = fdiv (price (gen_carrier g)) (efficiency g))
               (columns df) incs /\
       pnl_of n' "generators" !! "marginal_cost"
       = Some (Frame (columns df)
                 (map (fun r => (r.1, zip_with fadd r.2 incs)) (rows df)))) /\
    Forall2 (fun u u' =>
               su_name u' = su_name u /\ su_carrier u' = su_carrier u /\
               efficiency_dispatch u' = efficiency_dispatch u /\
               su_p_nom_max u' = su_p_nom_max u /\
               su_capital_cost u' = su_capital_cost u /\
               su_marginal_cost u' =
                 fadd (su_marginal_cost u)
                      (fdiv (price (su_carrier u)) (efficiency_dispatch u)) /\
               forall cr,
                 lookup_row carrier_name (su_carrier u) (carriers n) = Some cr ->
                 isnan (fmul p (cell cr "co2_emissions")) = false ->
                 su_marginal_cost u' =
                   fadd (su_marginal_cost u)
                        (fdiv (fmul p (cell cr "co2_emissions"))
                              (efficiency_dispatch u)))
            (storage_units n) (storage_units n') /\
    (forall list_name attr,
       ~ (list_name = "generators" /\ attr = "marginal_cost") ->
       pnl_of n' list_name !! attr = pnl_of n list_name !! attr).
Proof.
  intros Hdf Hcols prices price.
  assert (forall carrier,
            map_float carrier_name (emission_price prices) (carriers n) carrier
            = price carrier) as Hprice.
  { intros carrier. unfold price, map_float.
    destruct (lookup_row carrier_name carrier (carriers n)) as [cr|]; [|done].
    cbn [from_option]. unfold emission_price, prices.
    by rewrite map_to_list_singleton. }
  assert (forall carrier cr,
            lookup_row carrier_name carrier (carriers n) = Some cr ->
            isnan (fmul p (cell cr "co2_emissions")) = false ->
            price carrier = fmul p (cell cr "co2_emissions")) as Hpinned.
  { intros carrier cr Hcr Hnan. unfold price, map_float. rewrite Hcr.
    cbn [from_option]. by apply fsum_single. }
  destruct (select_labels_known gen_name (gen_ep n prices) (generators n)
              (columns df) Hcols) as (incs & Hsel & Hincs).
  set (gs := map (fun g => generator_with_marginal_cost
                             (fadd (gen_marginal_cost g) (gen_ep n prices g)) g)
                 (generators n)).
  set (us := map (fun u => storage_unit_with_marginal_cost
                             (fadd (su_marginal_cost u) (su_ep n prices u)) u)
                 (storage_units n)).
  set (n' := set_storage_units us
               (set_pnl_table "generators" "marginal_cost"
                  (frame_add_columns incs df) (set_generators gs n))).
  assert (generators n' = gs) as Hgs by (by destruct n).
  assert (storage_units n' = us) as Hus by (by destruct n).
  assert (forall list_name attr,
            pnl_of n' list_name !! attr
            = if bool_decide (list_name = "generators" /\ attr = "marginal_cost")
              then Some (frame_add_columns incs df)
              else pnl_of n list_name !! attr) as Hpnl.
  { intros list_name attr. unfold n'.
    change (set_storage_units ?us (set_pnl_table ?a ?b ?d ?m))
      with (set_pnl_table a b d (set_storage_units us m)).
    rewrite pnl_of_set_pnl_table. case_bool_decide; [done | by destruct n]. }
  exists n'. split.
  { unfold add_emission_prices, on_network. run. rewrite Hdf. simpl.
    rewrite Hsel. reflexivity. }
  rewrite Hgs, Hus. clearbody n'.
  split; [|split; [|split]].
  - apply Forall2_fmap_r, Forall_Forall2_diag, Forall_forall.
    intros g _. unfold compose, gen_ep. rewrite Hprice. cbn.
    repeat (split; [done|]).
    intros cr Hcr Hnan. by rewrite (Hpinned _ _ Hcr Hnan).
  - exists incs. split.
    + eapply Forall2_impl; [exact Hincs|]. intros col inc (g & Hg & ->).
      exists g. split; [done|]. unfold gen_ep. by rewrite Hprice.
    + rewrite Hpnl. by rewrite bool_decide_eq_true_2.
  - apply Forall2_fmap_r, Forall_Forall2_diag, Forall_forall.
    intros u _. unfold compose, su_ep. rewrite Hprice. cbn.
    repeat (split; [done|]).
    intros cr Hcr Hnan. by rewrite (Hpinned _ _ Hcr Hnan).
  - intros list_name attr Hne.
    rewrite Hpnl. by rewrite bool_decide_eq_false_2.
Qed.

(* the price 30 on price_network: the marginal costs 10 and 20 of the two
   gas generators and 1 of the storage unit grow by 30 * 0.2 divided by
   the efficiencies 0.5, 0.4 and 0.9 *)
Lemma add_emission_prices_single_co2_witness :
  let n := price_network in
  let p := fq 30 1 in
  let prices : gmap string float := {[ "co2" := p ]} in
  exists n',
    add_emission_prices false (prices, n) = (inr tt, (prices, n')) /\
    map (fun g => (gen_name g, gen_marginal_cost g)) (generators n')
      = [ ("g1", fadd (fq 10 1) (fdiv (fmul p (fq 1 5)) (fq 1 2)));
          ("g2", fadd (fq 20 1) (fdiv (fmul p (fq 1 5)) (fq 2 5))) ] /\
    map (fun u => (su_name u, su_marginal_cost u)) (storage_units n')
      = [ ("su1", fadd f1 (fdiv (fmul p (fq 1 5)) (fq 9 10))) ] /\
    pnl_of n' "generators" !! "marginal_cost"
      = Some (Frame ["g1"]
                [ (0, [fadd (fq 5 1) (fdiv (fmul p (fq 1 5)) (fq 1 2))]);
                  (hour_ns, [fadd (fq 6 1) (fdiv (fmul p (fq 1 5)) (fq 1 2))]) ]) /\
    pnl_of n' "storage_units" !! "inflow"
      = pnl_of n "storage_units" !! "inflow".
Proof.
  intros n p prices.
  assert (pnl_of n "generators" !! "marginal_cost"
          = Some (Frame ["g1"] [(0, [fq 5 1]); (hour_ns, [fq 6 1])])) as Hdf
    by reflexivity.
  assert (Forall (fun col => is_Some (lookup_row gen_name col (generators n)))
                 ["g1"]) as Hcols.
  { constructor; [|constructor]. vm_compute. eauto. }
  destruct (add_emission_prices_single_co2 n p _ Hdf Hcols) as (n' & Hrun & _).
  exists n'. split; [exact Hrun|].
  assert (n' = (add_emission_prices false (prices, n)).2.2) as ->
    by exact (eq_sym (f_equal (fun r => r.2.2) Hrun)).
  repeat split; vm_compute; reflexivity.
Defined.

(* whatever happens after the pop, the dict stays as the pop left it *)
Lemma add_emission_prices_dict (exclude_co2 : bool) (d : gmap string float)
    (n : network) :
  (add_emission_prices exclude_co2 (d, n)).2.1
  = if exclude_co2 then delete "co2" d else d.
Proof.
  unfold add_emission_prices, on_network.
  destruct exclude_co2; run.
  - destruct (d !! "co2") as [x|] eqn:Hco2; simpl.
    + destruct (pnl_of n "generators" !! "marginal_cost"); simpl; [|done].
      by destruct (select_labels _ _ _ _).
    + symmetry. by apply delete_id.
  - destruct (pnl_of n "generators" !! "marginal_cost"); simpl; [|done].
    by destruct (select_labels _ _ _ _).
Qed.

Lemma add_emission_prices_no_co2 (d : gmap string float) (n : network) :
  d !! "co2" = None ->
  add_emission_prices true (d, n) = (inl (KeyError "co2"), (d, n)).
Proof. intros Hd. unfold add_emission_prices. run. by rewrite Hd. Qed.

(** C10 (add_emission_prices, mutation of the price map). With
    exclude_co2 = true and a caller-supplied map that has a "co2" entry, the
    caller's own map is left without that entry when the call is over.
    When the argument is omitted, the entry is removed from the one default
    dict of the function: the removal is there for every later call that
    relies on the default, which finds no "co2" entry (and so raises
    KeyError if it passes exclude_co2 = true again). *)
Theorem add_emission_prices_mutates_prices (ms : module_state) (n : network) :
  (forall d : gmap string float,
     is_Some (d !! "co2") ->
     (call_add_emission_prices (Some d) true (ms, n)).1.2
     = Some (delete "co2" d)) /\
  (is_Some (default_emission_prices ms !! "co2") ->
   let after := (call_add_emission_prices None true (ms, n)).2 in
   default_emission_prices after.1 = delete "co2" (default_emission_prices ms) /\
   forall (exclude_co2 : bool) (n2 : network),
     let later := call_add_emission_prices None exclude_co2 (after.1, n2) in
     default_emission_prices later.2.1 !! "co2" = None /\
     (exclude_co2 = true -> later.1.1 = inl (KeyError "co2"))).
Proof.
  assert (forall excl d m,
            (call_add_emission_prices (Some d) excl (ms, m)).1.2
            = Some (if excl then delete "co2" d else d)) as Hsome.
  { intros excl d m. unfold call_add_emission_prices.
    pose proof (add_emission_prices_dict excl d m) as Hd.
    destruct (add_emission_prices excl (d, m)) as [r [d' m']]. simpl in *.
    by subst. }
  assert (forall excl ms0 m,
            default_emission_prices
              (call_add_emission_prices None excl (ms0, m)).2.1
            = if excl then delete "co2" (default_emission_prices ms0)
              else default_emission_prices ms0) as Hnone.
  { intros excl ms0 m. unfold call_add_emission_prices.
    pose proof (add_emission_prices_dict excl (default_emission_prices ms0) m)
      as Hd.
    destruct (add_emission_prices excl (default_emission_prices ms0, m))
      as [r [d' m']]. simpl in *. by subst. }
  split.
  - intros d _. apply Hsome.
  - intros _ after. unfold after. rewrite Hnone. split; [done|].
    intros exclude_co2 n2.
    destruct (call_add_emission_prices None true (ms, n)) as [[r1 a1] [ms1 n1]] eqn:Hcall1.
    pose proof (Hnone true ms n) as Hms1. rewrite Hcall1 in Hms1.
    cbn [fst snd] in *. split.
    + rewrite Hnone, Hms1. destruct exclude_co2;
        by rewrite ?delete_delete_eq, lookup_delete_eq.
    + intros ->. unfold call_add_emission_prices.
      rewrite add_emission_prices_no_co2; [done|].
      rewrite Hms1. apply lookup_delete_eq.
Qed.

(* the default dict of the function as it is created, {"co2": 0.0} *)
Lemma add_emission_prices_mutates_prices_witness :
  is_Some (default_emission_prices initial_module_state !! "co2") /\
  default_emission_prices
    (call_add_emission_prices None true (initial_module_state, price_network)).2.1
  = delete "co2" (default_emission_prices initial_module_state).
Proof.
  assert (is_Some (default_emission_prices initial_module_state !! "co2")) as H.
  { unfold initial_module_state. simpl. rewrite lookup_singleton_eq. eauto. }
  split; [exact H|].
  destruct (add_emission_prices_mutates_prices initial_module_state price_network)
    as [_ Hdefault].
  destruct (Hdefault H) as [Hafter _]. exact Hafter.
Defined.

(* --------------------------------------------------------------------- *)
(* enforce_autarky                                                        *)
(* --------------------------------------------------------------------- *)

Lemma map_is_fmap {A B : Type} (f : A -> B) (l : list A) : map f l = f <$> l.
Proof. reflexivity. Qed.

Lemma name_determines_row {A : Type} (name : A -> string) (ls : list A) (x y : A) :
  NoDup (map name ls) -> x ∈ ls -> y ∈ ls -> name x = name y -> x = y.
Proof.
  induction ls as [|a ls IH]; simpl; intros Hnd Hx Hy Hname.
  - by apply elem_of_nil in Hx.
  - apply NoDup_cons in Hnd as [Ha Hnd].
    rewrite map_is_fmap in Ha.
    apply elem_of_cons in Hx as [->|Hx]; apply elem_of_cons in Hy as [->|Hy].
    + done.
    + destruct Ha. rewrite Hname. by apply list_elem_of_fmap_2.
    + destruct Ha. rewrite <- Hname. by apply list_elem_of_fmap_2.
    + by apply IH.
Qed.

Lemma filter_ext_elem {A : Type} (P Q : A -> Prop)
    `{!forall x, Decision (P x)} `{!forall x, Decision (Q x)} (ls : list A) :
  (forall x, x ∈ ls -> P x <-> Q x) -> filter P ls = filter Q ls.
Proof.
  induction ls as [|a ls IH]; intros Hext; [done|].
  rewrite !filter_cons.
  rewrite IH by (intros x Hx; apply Hext; by right).
  pose proof (Hext a (list_elem_of_here _ _)) as Ha.
  destruct (decide (P a)), (decide (Q a)); tauto.
Qed.

Lemma filter_all {A : Type} (P : A -> Prop) `{!forall x, Decision (P x)}
    (ls : list A) :
  (forall x, P x) -> filter P ls = ls.
Proof.
  intros HP. induction ls as [|a ls IH]; [done|].
  rewrite filter_cons, IH. destruct (decide (P a)) as [|Hn]; [done|].
  destruct Hn. apply HP.
Qed.

(* mremove by label removes exactly the selected rows when labels are unique *)
Lemma drop_by_name {A : Type} (name : A -> string) (Q : A -> Prop)
    `{!forall x, Decision (Q x)} (ls : list A) :
  NoDup (map name ls) ->
  filter (fun x => name x ∉ map name (filter Q ls)) ls
  = filter (fun x => ~ Q x) ls.
Proof.
  intros Hnd. apply filter_ext_elem. intros x Hx.
  rewrite map_is_fmap, list_elem_of_fmap. split.
  - intros Hnot HQ. apply Hnot. exists x. split; [done|].
    by apply list_elem_of_filter.
  - intros HnQ (y & Hname & Hy). apply list_elem_of_filter in Hy as [HQ Hy].
    apply HnQ. by rewrite (name_determines_row name ls x y Hnd Hx Hy Hname).
Qed.

Lemma mask_filter_map {A : Type} (P : A -> Prop) `{!forall x, Decision (P x)}
    (l : list A) :
  mask_filter (map (fun x => bool_decide (P x)) l) l = filter P l.
Proof.
  induction l as [|a l IH]; cbn [map mask_filter]; [done|].
  rewrite filter_cons, IH.
  destruct (decide (P a));
    [rewrite bool_decide_eq_true_2 | rewrite bool_decide_eq_false_2]; done.
Qed.

(* the columns that drop_columns keeps *)
Lemma columns_drop_columns (names : list string) (df : frame) :
  columns (drop_columns names df) = filter (fun c => c ∉ names) (columns df).
Proof. unfold drop_columns. simpl. apply mask_filter_map. Qed.

Lemma country_ne_spec (a b : option string) :
  is_Some a -> is_Some b -> country_ne a b = true <-> a ≠ b.
Proof.
  intros [x ->] [y ->]. simpl. rewrite bool_decide_eq_true. naive_solver.
Qed.

Lemma pnl_of_alter (p : gmap string (gmap string frame)) (n : network)
    (f : frame -> frame) (c c' attr : string) :
  pnl_of (set_pnl (alter (fmap f) c p) n) c' !! attr
  = (if bool_decide (c' = c) then fmap f else id)
      (pnl_of (set_pnl p n) c' !! attr).
Proof.
  unfold pnl_of. destruct n; simpl. rewrite lookup_alter.
  case_bool_decide as Hc; case_decide; try congruence.
  - subst. destruct (p !! c); simpl; [by rewrite lookup_fmap|].
    by rewrite !lookup_empty.
  - done.
Qed.

Lemma mask_filter_nil {A : Type} (mask : list bool) :
  mask_filter mask (@nil A) = [].
Proof. by destruct mask. Qed.

(* a cell under a mask that keeps it is found again after the cells that
   are kept before it *)
Lemma mask_filter_lookup {A : Type} (mask : list bool) (l : list A) (j : nat) :
  mask !! j = Some true ->
  mask_filter mask l !! length (filter (fun b => b = true) (take j mask))
  = l !! j.
Proof.
  revert l j. induction mask as [|b mask IH]; intros l j Hj; [done|].
  destruct j as [|j]; cbn in Hj.
  - injection Hj as ->. by destruct l.
  - destruct l as [|x l]; [by rewrite mask_filter_nil|].
    cbn [take]. rewrite filter_cons. cbn [mask_filter].
    destruct b; [rewrite decide_True by done | rewrite decide_False by done];
      cbn; by apply IH.
Qed.

(* what is left of a table after the columns of some labels are dropped:
   the other columns, in their order and with their cells, on the same
   index *)
Lemma drop_columns_spec (names : list string) (df : frame) :
  columns (drop_columns names df) = filter (fun c => c ∉ names) (columns df) /\
  map fst (rows (drop_columns names df)) = map fst (rows df) /\
  forall j c,
    columns df !! j = Some c -> c ∉ names ->
    exists j',
      columns (drop_columns names df) !! j' = Some c /\
      column_at j' (rows (drop_columns names df)) = column_at j (rows df).
Proof.
  split; [apply columns_drop_columns|]. split.
  { unfold drop_columns. cbn [rows]. rewrite map_map. by apply map_ext. }
  intros j c Hj Hc. unfold drop_columns. cbn [columns rows].
  set (keep := map (fun c => bool_decide (c ∉ names)) (columns df)).
  assert (keep !! j = Some true) as Hkeep.
  { unfold keep. rewrite map_is_fmap, list_lookup_fmap, Hj. cbn.
    by rewrite bool_decide_eq_true_2. }
  exists (length (filter (fun b => b = true) (take j keep))). split.
  - by rewrite mask_filter_lookup.
  - unfold column_at. rewrite map_map. apply map_ext. intros r. cbn [snd].
    by rewrite mask_filter_lookup.
Qed.

(** C8 (enforce_autarky). Let the lines and the links of the network have
    unique names and, for the cross-border case, let the buses they join be
    buses of the network.  With only_crossborder = true the call removes
    exactly the lines and the links whose two endpoint buses lie in
    different countries, and no others; with only_crossborder = false it
    removes every line and every DC link, and no other link.  The time
    series of the removed entities are deleted as well: every
    time-varying table of the lines, and of the links, keeps its index
    and is left with exactly the columns that are not labelled by a
    removed entity, each with the cells it had.  The tables of the other
    components are left alone. *)
Theorem enforce_autarky_effects (n : network) (only_crossborder : bool) :
  unique_names n ->
  (only_crossborder = true -> endpoints_known n) ->
  let lines_rm :=
    map line_name
      (filter (fun l => ~ stays_line n only_crossborder l) (lines n)) in
  let links_rm :=
    map link_name
      (filter (fun k => ~ stays_link n only_crossborder k) (links n)) in
  (* df' is df without the columns of the labels removed *)
  let without_series (removed : list string) (df df' : frame) : Prop :=
    columns df' = filter (fun c => c ∉ removed) (columns df) /\
    map fst (rows df') = map fst (rows df) /\
    forall j c,
      columns df !! j = Some c -> c ∉ removed ->
      exists j',
        columns df' !! j' = Some c /\
        column_at j' (rows df') = column_at j (rows df) in
  exists n',
    enforce_autarky only_crossborder n = (inr tt, n') /\
    lines n' = filter (stays_line n only_crossborder) (lines n) /\
    links n' = filter (stays_link n only_crossborder) (links n) /\
    (forall attr,
       match pnl_of n "lines" !! attr with
       | Some df =>
           exists df', pnl_of n' "lines" !! attr = Some df' /\
                       without_series lines_rm df df'
       | None => pnl_of n' "lines" !! attr = None
       end) /\
    (forall attr,
       match pnl_of n "links" !! attr with
       | Some df =>
           exists df', pnl_of n' "links" !! attr = Some df' /\
                       without_series links_rm df df'
       | None => pnl_of n' "links" !! attr = None
       end) /\
    (forall c attr, c ≠ "lines" -> c ≠ "links" ->
       pnl_of n' c !! attr = pnl_of n c !! attr).
Proof.
  intros [Hlines Hlinks] Hknown lines_rm links_rm without_series.
  (* the selections of the source select the same rows *)
  assert ((if only_crossborder
           then map line_name
                  (filter (fun l => country_ne (country_of n (line_bus0 l))
                                      (country_of n (line_bus1 l)) = true)
                          (lines n))
           else map line_name (lines n)) = lines_rm) as Hsel_lines.
  { unfold lines_rm. destruct only_crossborder.
    - f_equal. apply filter_ext_elem. intros l Hl.
      destruct (Hknown eq_refl) as [Hk _].
      rewrite Forall_forall in Hk.
      destruct (Hk l Hl) as [H0 H1].
      rewrite (country_ne_spec _ _ H0 H1). unfold stays_line. tauto.
    - f_equal. symmetry. apply filter_all.
      intros l. unfold stays_line. intros [? _]. done. }
  assert ((if only_crossborder
           then map link_name
                  (filter (fun k => country_ne (country_of n (link_bus0 k))
                                      (country_of n (link_bus1 k)) = true)
                          (links n))
           else map link_name (filter (fun k => is_dc k = true) (links n)))
          = links_rm) as Hsel_links.
  { unfold links_rm. destruct only_crossborder.
    - f_equal. apply filter_ext_elem. intros k Hk'.
      destruct (Hknown eq_refl) as [_ Hk].
      rewrite Forall_forall in Hk.
      destruct (Hk k Hk') as [H0 H1].
      rewrite (country_ne_spec _ _ H0 H1). unfold stays_link. tauto.
    - f_equal. apply filter_ext_elem. intros k _.
      unfold stays_link, is_dc. rewrite bool_decide_eq_true.
      destruct (decide (link_carrier k = "DC")); tauto. }
  exists (set_pnl (alter (fmap (drop_columns links_rm)) "links"
                     (alter (fmap (drop_columns lines_rm)) "lines" (pnl n)))
            (set_links (filter (fun k => link_name k ∉ links_rm) (links n))
               (set_lines (filter (fun l => line_name l ∉ lines_rm) (lines n))
                  n))).
  split.
  { unfold enforce_autarky, mremove_lines, mremove_links.
    unfold bind, get, modify. rewrite Hsel_lines, Hsel_links.
    by destruct n. }
  split; [|split].
  - transitivity (filter (fun l => line_name l ∉ lines_rm) (lines n));
      [by destruct n|].
    unfold lines_rm. rewrite (drop_by_name line_name _ _ Hlines).
    apply filter_ext_elem. intros l _.
    destruct (decide (stays_line n only_crossborder l)); tauto.
  - transitivity (filter (fun k => link_name k ∉ links_rm) (links n));
      [by destruct n|].
    unfold links_rm. rewrite (drop_by_name link_name _ _ Hlinks).
    apply filter_ext_elem. intros k _.
    destruct (decide (stays_link n only_crossborder k)); tauto.
  - assert (forall c attr,
              pnl_of (set_pnl (alter (fmap (drop_columns links_rm)) "links"
                        (alter (fmap (drop_columns lines_rm)) "lines" (pnl n)))
                        (set_links (filter (fun k => link_name k ∉ links_rm) (links n))
                           (set_lines
                              (filter (fun l => line_name l ∉ lines_rm) (lines n))
                              n))) c !! attr
              = (if bool_decide (c = "links")
                 then fmap (drop_columns links_rm) else id)
                  ((if bool_decide (c = "lines")
                    then fmap (drop_columns lines_rm) else id)
                     (pnl_of n c !! attr))) as Hpnl.
    { intros c attr. rewrite !pnl_of_alter. by destruct n. }
    split; [|split].
    + intros attr. rewrite Hpnl.
      rewrite bool_decide_eq_false_2 by done.
      rewrite bool_decide_eq_true_2 by done. cbn [id].
      destruct (pnl_of n "lines" !! attr) as [df|]; [|done].
      exists (drop_columns lines_rm df). split; [done|].
      apply drop_columns_spec.
    + intros attr. rewrite Hpnl.
      rewrite bool_decide_eq_true_2 by done.
      rewrite bool_decide_eq_false_2 by done. cbn [id].
      destruct (pnl_of n "links" !! attr) as [df|]; [|done].
      exists (drop_columns links_rm df). split; [done|].
      apply drop_columns_spec.
    + intros c attr Hc1 Hc2. rewrite Hpnl.
      by rewrite !bool_decide_eq_false_2.
Qed.

(* border_network in cross-border mode: the line l1 and the DC link dc1
   join Poland and Germany and are removed, and the series of l1 with them *)
Lemma enforce_autarky_effects_witness :
  unique_names border_network /\
  endpoints_known border_network /\
  exists n',
    enforce_autarky true border_network = (inr tt, n') /\
    map line_name (lines n') = ["l2"] /\
    map link_name (links n') = ["h2"] /\
    pnl_of border_network "lines" !! "s_max_pu"
      = Some (Frame ["l1"; "l2"] [(0, [f1; fq 1 2]); (hour_ns, [f1; f1])]) /\
    pnl_of n' "lines" !! "s_max_pu"
      = Some (Frame ["l2"] [(0, [fq 1 2]); (hour_ns, [f1])]).
Proof.
  assert (unique_names border_network) as Hnames.
  { split; simpl;
      repeat (apply NoDup_cons; split;
              [intros Hin; apply list_elem_of_In in Hin; simpl in Hin;
               repeat destruct Hin as [Hin|Hin]; try discriminate Hin;
               exact Hin|]);
      apply NoDup_nil; done. }
  assert (endpoints_known border_network) as Hknown.
  { split; simpl; repeat (constructor; [split; vm_compute; eauto|]);
      constructor. }
  split; [exact Hnames|]. split; [exact Hknown|].
  destruct (enforce_autarky_effects border_network true Hnames (fun _ => Hknown))
    as (n' & Hrun & _).
  exists n'. split; [exact Hrun|].
  assert (n' = (enforce_autarky true border_network).2) as ->
    by exact (eq_sym (f_equal snd Hrun)).
  repeat split; vm_compute; reflexivity.
Defined.

(* --------------------------------------------------------------------- *)
(* average_every_nhours: buckets                                          *)
(* --------------------------------------------------------------------- *)

Lemma earliest_le (idx : list Z) (t : Z) : t ∈ idx -> earliest idx <= t.
Proof.
  unfold earliest. generalize (hd 0 idx). intros d.
  induction idx as [|a idx IH]; intros Ht; [by apply elem_of_nil in Ht|].
  apply elem_of_cons in Ht as [->|Ht]; simpl; [lia|].
  specialize (IH Ht). lia.
Qed.

Lemma latest_ge (idx : list Z) (t : Z) : t ∈ idx -> t <= latest idx.
Proof.
  unfold latest. generalize (hd 0 idx). intros d.
  induction idx as [|a idx IH]; intros Ht; [by apply elem_of_nil in Ht|].
  apply elem_of_cons in Ht as [->|Ht]; simpl; [lia|].
  specialize (IH Ht). lia.
Qed.

Lemma first_edge_le (width : Z) (idx : list Z) (t : Z) :
  0 < width -> t ∈ idx -> first_edge width idx <= t.
Proof.
  intros Hw Ht. unfold first_edge.
  pose proof (earliest_le idx t Ht).
  pose proof (Z.mod_pos_bound
                (earliest idx - earliest idx `div` day_ns * day_ns) width Hw).
  lia.
Qed.

(* every label falls into one of the bins that resample lays out *)
Lemma bin_of_lt_count (width : Z) (idx : list Z) (t : Z) :
  0 < width -> t ∈ idx -> (bin_of width idx t < bin_count width idx)%nat.
Proof.
  intros Hw Ht. unfold bin_count.
  destruct idx as [|a idx']; [by apply elem_of_nil in Ht|].
  set (idx := a :: idx') in *.
  pose proof (latest_ge idx t Ht) as Hle.
  unfold bin_of.
  assert ((t - first_edge width idx) `div` width
          <= (latest idx - first_edge width idx) `div` width).
  { apply Z.div_le_mono; lia. }
  lia.
Qed.

(* the bin of a label is the half-open interval that starts at the bin's
   label and is one width long *)
Lemma bin_of_interval (width : Z) (idx : list Z) (t : Z) (k : nat) :
  0 < width -> t ∈ idx ->
  bin_of width idx t = k <->
  bin_label width idx k <= t < bin_label width idx k + width.
Proof.
  intros Hw Ht. unfold bin_of, bin_label.
  pose proof (first_edge_le width idx t Hw Ht) as He.
  set (e := first_edge width idx) in *.
  pose proof (Z.div_mod (t - e) width ltac:(lia)) as Hdm.
  pose proof (Z.mod_pos_bound (t - e) width Hw) as Hmod.
  assert (0 <= (t - e) `div` width) as Hq by (apply Z.div_pos; lia).
  set (q := (t - e) `div` width) in *.
  split.
  - intros <-. rewrite Z2Nat.id by done. nia.
  - intros [H1 H2]. apply Nat2Z.inj. rewrite Z2Nat.id by done. nia.
Qed.

(* --------------------------------------------------------------------- *)
(* average_every_nhours: sums over buckets                                *)
(* --------------------------------------------------------------------- *)

Lemma resample_columns (agg : list float -> float) (width : Z) (df : frame) :
  columns (resample agg width df) = columns df.
Proof. reflexivity. Qed.


Lemma resample_column (agg : list float -> float) (width : Z) (df : frame)
    (j : nat) :
  (j < length (columns df))%nat ->
  column_at j (rows (resample agg width df))
  = map (fun k => agg (column_at j
                         (bin_members width (map fst (rows df)) k (rows df))))
        (seq 0 (bin_count width (map fst (rows df)))).
Proof.
  intros Hj. unfold resample, column_at at 1. simpl. rewrite map_map.
  apply map_ext. intros k. simpl.
  by rewrite map_is_fmap, list_lookup_fmap, lookup_seq_lt.
Qed.

Lemma bin_members_bucket (width : Z) (df : frame) (k : nat) :
  0 < width ->
  bin_members width (map fst (rows df)) k (rows df)
  = bucket width (bin_label width (map fst (rows df)) k) (rows df).
Proof.
  intros Hw. unfold bin_members, bucket. apply filter_ext_elem.
  intros r Hr. apply bin_of_interval; [done|].
  rewrite map_is_fmap. by apply list_elem_of_fmap_2.
Qed.

Lemma resample_index (agg : list float -> float) (width : Z) (df : frame) :
  map fst (rows (resample agg width df))
  = map (bin_label width (map fst (rows df)))
        (seq 0 (bin_count width (map fst (rows df)))).
Proof. unfold resample. cbn [rows]. rewrite map_map. by apply map_ext. Qed.



Section Averaging.
Variable to_offset : pyval -> option Z.

Lemma averaged_weightings (n m : network) (offset : pyval) (width : Z) :
  to_offset offset = Some width -> 0 < width ->
  average_every_nhours to_offset n offset = inr m ->
  snapshot_weightings m = resample fsum width (snapshot_weightings n) /\
  snapshots m = map fst (rows (snapshot_weightings m)).
Proof.
  intros Hoff Hw. unfold average_every_nhours. rewrite Hoff.
  rewrite !bool_decide_eq_false_2 by lia. intros [= <-]. by destruct n.
Qed.

Lemma averaged_table (n m : network) (offset : pyval) (width : Z)
    (c attr : string) (df : frame) :
  to_offset offset = Some width -> 0 < width ->
  average_every_nhours to_offset n offset = inr m ->
  c ∈ iterate_components n ->
  pnl_of n c !! attr = Some df ->
  frame_empty df = false ->
  pnl_of m c !! attr = Some (resample fmean width df).
Proof.
  intros Hoff Hw. unfold average_every_nhours. rewrite Hoff.
  rewrite !bool_decide_eq_false_2 by lia. intros [= <-] Hc Hdf Hne.
  unfold pnl_of in *. destruct n; simpl in *.
  rewrite map_lookup_imap.
  destruct (pnl0 !! c) as [tables|] eqn:Htables; simpl in *.
  - rewrite lookup_fmap, Hdf. simpl.
    rewrite bool_decide_eq_true_2 by done. by rewrite Hne.
  - by rewrite lookup_empty in Hdf.
Qed.


End Averaging.



(* --------------------------------------------------------------------- *)
(* Scaling tokens of the orchestrator                                     *)
(* --------------------------------------------------------------------- *)

Lemma prefix_empty (s : string) : String.prefix "" s = true.
Proof. by destruct s. Qed.

(* a token that splits into several pieces holds the separator *)
Lemma split_on_contains (sep : ascii) (s : string) (piece : string)
    (pieces : list string) :
  split_on sep s = piece :: pieces -> pieces ≠ [] ->
  contains (String sep "") s = true.
Proof.
  revert piece pieces. induction s as [|c s IH]; intros piece pieces Hs Hne.
  - simpl in Hs. injection Hs as _ <-. done.
  - cbn [contains]. cbn [split_on] in Hs.
    destruct (decide (c = sep)) as [->|Hc].
    + cbn [String.prefix]. destruct (ascii_dec sep sep); [|done].
      by rewrite prefix_empty.
    + rewrite bool_decide_eq_false_2 in Hs by done.
      destruct (split_on sep s) as [|p ps] eqn:Hsplit.
      * injection Hs as _ <-. done.
      * injection Hs as _ <-. rewrite (IH p ps eq_refl Hne).
        apply orb_true_r.
Qed.

Section Scaling.
Variable py_float : string -> option float.
Variable str_contains : string -> string -> bool.
Variable comps_order : list string.

Lemma attr_lookup_unknown (code : string) :
  code ∉ ["p"; "c"; "m"] -> attr_lookup !! code = None.
Proof.
  intros Hcode. unfold attr_lookup.
  rewrite !lookup_insert_ne, lookup_singleton_ne; [done|..];
    intros <-; apply Hcode; set_solver.
Qed.

Lemma scale_option_raises (o carrier factor : string) (code : ascii)
    (more : list string) (n : network) :
  split_on "+" o = carrier :: String code factor :: more ->
  existsb (fun p => String.prefix p carrier) (suptechs n) = true ->
  String code "" ∉ ["p"; "c"; "m"] ->
  scale_option py_float str_contains comps_order o n
  = (inl (KeyError (String code "")), n).
Proof.
  intros Hsplit Hcarrier Hcode. unfold scale_option.
  rewrite (split_on_contains _ _ _ _ Hsplit) by done.
  rewrite Hsplit. cbn [negb lookup list_lookup default].
  unfold bind at 1. unfold get at 1. simpl default. unfold id.
  rewrite Hcarrier.
  unfold bind at 1 2. unfold ret at 1.
  rewrite (attr_lookup_unknown _ Hcode). reflexivity.
Qed.

Lemma for_each_app {A : Type} (l1 l2 : list A) (body : A -> M network unit)
    (n0 n1 : network) :
  for_each l1 body n0 = (inr tt, n1) ->
  for_each (l1 ++ l2) body n0 = for_each l2 body n1.
Proof.
  revert n0. induction l1 as [|a l1 IH]; intros n0; simpl.
  - unfold ret. by intros [= ->].
  - unfold bind. destruct (body a n0) as [[e|[]] n'] eqn:Ha; [done|].
    apply IH.
Qed.

(** C7 (unknown attribute code in a scaling token), as the code has it.
    Suppose the token o splits at "+" into a carrier and a second piece
    that starts with the attribute code, the carrier starts with the prefix
    of a network carrier, and the code is none of p, c and m.  Handling the
    token raises KeyError, and what the error carries is the attribute
    code, the first character after "+" (not the token); the network is as
    it was before the token, no attribute is scaled by it.  In the loop
    over the tokens the error ends the loop with the network as the tokens
    before o have left it. *)
Theorem scale_option_unknown_code (o carrier factor : string) (code : ascii)
    (more pre post : list string) (n0 n : network) :
  split_on "+" o = carrier :: String code factor :: more ->
  existsb (fun p => String.prefix p carrier) (suptechs n) = true ->
  String code "" ∉ ["p"; "c"; "m"] ->
  scale_option py_float str_contains comps_order o n
  = (inl (KeyError (String code "")), n) /\
  (scale_options py_float str_contains comps_order pre n0 = (inr tt, n) ->
   scale_options py_float str_contains comps_order (pre ++ o :: post) n0
   = (inl (KeyError (String code "")), n)).
Proof.
  intros Hsplit Hcarrier Hcode.
  pose proof (scale_option_raises o carrier factor code more n
                Hsplit Hcarrier Hcode) as Hraise.
  split; [exact Hraise|].
  intros Hpre. unfold scale_options in *.
  rewrite (for_each_app _ _ _ _ _ Hpre). cbn [for_each]. unfold bind.
  by rewrite Hraise.
Qed.
End Scaling.

(* the token solar+x2 on a network with the carriers OCGT and solar *)
Lemma scale_option_unknown_code_witness :
  let scale := scale_option (fun _ => None) (fun _ _ => false)
                 ["Store"; "Link"; "Generator"; "StorageUnit"] in
  split_on "+" "solar+x2" = ["solar"; "x2"] /\
  existsb (fun p => String.prefix p "solar") (suptechs gas_network) = true /\
("x" ∉ ["p"; "c"; "m"]) /\
  scale "solar+x2" gas_network = (inl (KeyError "x"), gas_network).
Proof.
  intros scale.
  assert ("x" ∉ ["p"; "c"; "m"]) as Hcode.
  { intros Hin. apply list_elem_of_In in Hin. simpl in Hin.
    destruct Hin as [H|[H|[H|[]]]]; discriminate H. }
  split; [reflexivity|]. split; [reflexivity|]. split; [exact Hcode|].
  exact (proj1 (scale_option_unknown_code (fun _ => None) (fun _ _ => false)
                  ["Store"; "Link"; "Generator"; "StorageUnit"]
                  "solar+x2" "solar" "2" "x" [] [] [] gas_network gas_network
                  eq_refl eq_refl Hcode)).
Defined.

(** C7, counterexample to the sentence of the specification: the tokens solar+x2 and
    solar+x9 are different and both are refused with the same error,
    KeyError "x"; the error does not tell which token was the offending
    one. *)
Lemma scale_option_error_hides_token :
  let scale := scale_option (fun _ => None) (fun _ _ => false)
                 ["Store"; "Link"; "Generator"; "StorageUnit"] in
  ~ (exists token_of : exn -> string,
        forall o e, o ∈ ["solar+x2"; "solar+x9"] ->
                    (scale o gas_network).1 = inl e -> token_of e = o).
Proof.
  intros scale [token_of Hid].
  assert (token_of (KeyError "x") = "solar+x2") as H2.
  { apply Hid; [set_solver | reflexivity]. }
  assert (token_of (KeyError "x") = "solar+x9") as H9.
  { apply Hid; [set_solver | reflexivity]. }
  rewrite H2 in H9. discriminate H9.
Qed.

(* --------------------------------------------------------------------- *)
(* Temporal reduction in the orchestrator                                 *)
(* --------------------------------------------------------------------- *)

Section TemporalReduction.
Variable py_int : string -> option Z.
Variable to_offset : pyval -> option Z.
Variable tsam_available : bool.
Variable tsam_create_typical_periods :
  frame -> nat -> Z -> string -> result frame.
Variable attr_default : string -> string -> float.

Lemma call_applied {A : Type} (name : string) (m : M network A)
    (s : run_state) :
  applied (call name m s).2 = applied s ++ [name].
Proof. unfold call. by destruct (m (net s)). Qed.

(** C3 (averaging and segmentation in one run), as the code has it.
    average_every_nhours is applied exactly when an hours token or a
    configured resolution is given, and apply_time_segmentation exactly
    when a segment token or a configured segmentation is given (and the
    averaging, if there was one, has returned).  The two are decided
    independently of each other: at most one of them is applied whenever
    at most one of the two is given, and when both are given both are
    applied, the averaging first. *)
Theorem temporal_reduction_applies (cfg : config) (opts : list string)
    (s : run_state) :
  let nhours :=
    py_or (get_opt opts (digits_then "h")) (snapshots_resolution cfg) in
  let time_seg :=
    py_or (get_opt opts (digits_then "seg")) (snapshots_segmentation cfg) in
  let averaged :=
    returned (average_every_nhours to_offset (net s) nhours) in
  let out :=
    temporal_reduction py_int to_offset tsam_available
      tsam_create_typical_periods attr_default cfg opts s in
  applied out.2 =
    applied s
    ++ (if truthy nhours then ["average_every_nhours"] else [])
    ++ (if truthy time_seg && (negb (truthy nhours) || averaged)
        then ["apply_time_segmentation"] else []).
Proof.
  intros nhours time_seg averaged out.
  unfold out, temporal_reduction. fold nhours. fold time_seg.
  unfold bind, when.
  destruct (truthy nhours) eqn:Hn.
  - unfold call_rebind.
    pose proof (call_applied "average_every_nhours"
                  (fun n => match average_every_nhours to_offset n nhours with
                            | inl e => (inl e, n)
                            | inr m => (inr tt, m)
                            end) s) as Hcall.
    destruct (call _ _ s) as [[e|[]] s1] eqn:Hs1; simpl in Hcall.
    + assert (averaged = false) as ->.
      { unfold averaged. unfold call in Hs1.
        destruct (average_every_nhours to_offset (net s) nhours); [done|].
        by injection Hs1. }
      rewrite andb_false_r. cbn [snd]. by rewrite Hcall, app_nil_r.
    + assert (averaged = true) as ->.
      { unfold averaged. unfold call in Hs1.
        destruct (average_every_nhours to_offset (net s) nhours); [|done].
        by injection Hs1. }
      rewrite andb_true_r. destruct (truthy time_seg).
      * rewrite call_applied, Hcall. by rewrite <- app_assoc.
      * unfold ret. cbn [snd]. by rewrite Hcall, app_nil_r.
  - unfold ret at 1. cbn [negb orb]. rewrite andb_true_r.
    destruct (truthy time_seg).
    + by rewrite call_applied.
    + unfold ret. cbn [snd app]. by rewrite app_nil_r.
Qed.
End TemporalReduction.

(** C3, counterexample to the sentence of the specification: a run with the option token
    2h and a segmentation configured in the configuration file returns
    normally and has applied both average_every_nhours and
    apply_time_segmentation to the network. *)
Lemma both_reductions_applied :
  both_run.1 = inr tt /\
  "average_every_nhours" ∈ applied both_run.2 /\
  "apply_time_segmentation" ∈ applied both_run.2.
Proof.
  assert (applied both_run.2
          = ["set_line_s_max_pu"; "average_every_nhours";
             "apply_time_segmentation"; "set_transmission_limit";
             "set_line_nom_max"]) as Happlied by (vm_compute; reflexivity).
  split; [vm_compute; reflexivity|].
  rewrite Happlied. clear Happlied.
  split; apply list_elem_of_In; simpl; tauto.
Qed.

(* --------------------------------------------------------------------- *)
(* apply_time_segmentation: labels of the segments                        *)
(* --------------------------------------------------------------------- *)

Lemma prefix_sums_cons (acc x : Z) (l : list Z) :
  map (fun i => acc + sumZ (take i (x :: l))) (seq 0 (S (length l)))
  = acc :: map (fun i => acc + x + sumZ (take i l)) (seq 0 (length l)).
Proof.
  cbn [seq map]. f_equal; [cbn; lia|].
  rewrite <- seq_shift, map_map. apply map_ext. intros i.
  cbn [take sumZ foldr]. fold (sumZ (take i l)). lia.
Qed.

Lemma cumsum_from_prefix (acc : Z) (l : list Z) :
  l ≠ [] ->
  acc :: cumsum_from acc (removelast l)
  = map (fun i => acc + sumZ (take i l)) (seq 0 (length l)).
Proof.
  revert acc. induction l as [|x l IH]; intros acc Hne; [done|].
  change (length (x :: l)) with (S (length l)). rewrite prefix_sums_cons.
  f_equal. destruct l as [|y l]; [done|].
  change (removelast (x :: y :: l)) with (x :: removelast (y :: l)).
  cbn [cumsum_from]. by apply IH.
Qed.

(* np.insert(np.cumsum(weightings[:-1]), 0, 0): the offset of a segment is
   the total duration of the segments before it *)
Lemma segment_offsets (ws : list Z) :
  ws ≠ [] ->
  0 :: cumsum (removelast ws)
  = map (fun i => sumZ (take i ws)) (seq 0 (length ws)).
Proof.
  intros Hne. unfold cumsum. rewrite cumsum_from_prefix by done.
  apply map_ext. intros i. lia.
Qed.

Lemma union_index_app (acc l : list Z) :
  NoDup l -> (forall t, t ∈ l -> t ∉ acc) -> union_index acc l = acc ++ l.
Proof.
  unfold union_index. revert acc.
  induction l as [|t l IH]; intros acc Hnd Hfresh; simpl.
  - by rewrite app_nil_r.
  - apply NoDup_cons in Hnd as [Ht Hnd].
    rewrite bool_decide_eq_false_2 by (apply Hfresh; left).
    rewrite IH; [by rewrite <- app_assoc | done |].
    intros u Hu Hin. apply elem_of_app in Hin as [Hin|Hin].
    + apply (Hfresh u); [by right | done].
    + apply list_elem_of_singleton in Hin as ->. done.
Qed.

Lemma union_index_absorb (acc l : list Z) :
  (forall t, t ∈ l -> t ∈ acc) -> union_index acc l = acc.
Proof.
  unfold union_index. induction l as [|t l IH]; intros Hin; simpl; [done|].
  rewrite bool_decide_eq_true_2 by (apply Hin; left).
  apply IH. intros u Hu. apply Hin. by right.
Qed.

(* three tables over the same labels are concatenated row by row *)
Lemma concat_columns_index (a b c : frame) (idx : list Z) :
  NoDup idx ->
  map fst (rows a) = idx -> map fst (rows b) = idx -> map fst (rows c) = idx ->
  map fst (rows (concat_columns [a; b; c])) = idx.
Proof.
  intros Hnd Ha Hb Hc. unfold concat_columns. cbn [foldl rows].
  rewrite Ha, Hb, Hc.
  rewrite (union_index_app [] idx Hnd) by (intros t _; apply not_elem_of_nil).
  cbn [app].
  rewrite !(union_index_absorb idx idx) by (intros t Ht; exact Ht).
  rewrite map_map. cbn [fst]. apply map_id.
Qed.

Lemma frame_div_index (df : frame) (norm : list float) :
  map fst (rows (frame_div df norm)) = map fst (rows df).
Proof. unfold frame_div. cbn [rows]. rewrite map_map. by apply map_ext. Qed.

Lemma column_positions_known (cols labels : list string) :
  Forall (fun c => c ∈ cols) labels ->
  exists js, column_positions cols labels = inr js.
Proof.
  induction 1 as [|c cs Hc Hcs [js IH]]; simpl; [by eexists|].
  unfold position_of.
  destruct (list_find_elem_of (fun x => x = c) cols c Hc eq_refl) as [[j x] Hj].
  rewrite Hj, IH. simpl. by eexists.
Qed.

Lemma select_columns_known (labels : list string) (df : frame) :
  Forall (fun c => c ∈ columns df) labels ->
  exists g, select_columns labels df = inr g /\ columns g = labels.
Proof.
  intros Hl. unfold select_columns.
  destruct (column_positions_known _ _ Hl) as [js ->]. by eexists.
Qed.

Lemma broadcast_weightings_column (idx : list Z) (ws : list float) (j : nat) :
  length idx = length ws -> (j < 3)%nat ->
  column_at j (rows (broadcast_weightings idx ws)) = ws.
Proof.
  unfold broadcast_weightings, column_at. cbn [rows]. revert ws.
  induction idx as [|t idx IH]; intros [|w ws] Hlen Hj; try done.
  cbn [zip_with map]. rewrite IH by (simpl in Hlen; lia). f_equal.
  destruct j as [|[|[|j]]]; try done. lia.
Qed.

Section SegmentationEffects.
Variable py_int : string -> option Z.
Variable tsam_create_typical_periods :
  frame -> nat -> Z -> string -> result frame.
Variable attr_default : string -> string -> float.

(** C5 (apply_time_segmentation), as the code has it.  Let tsam be
    available, let the network have its three series tables, each indexed
    by the snapshots of the network, and let the segment count be read as
    an integer for which tsam returns at least one segment, with a column
    for every series it was given.  The call returns normally.  The new
    snapshot weightings are the durations of the segments that tsam
    returned, in each column of the weightings; there is one new snapshot
    for each segment, and its label is the first original snapshot plus as
    many hours as all the segments before it last.  (The durations are
    taken from tsam as they are: the code does not check that they add up
    to the number of original snapshots.) *)
Theorem apply_time_segmentation_effects (n : network) (segments : pyval)
    (solver : string) (no_segments first : Z)
    (p_max_pu p_set inflow segmented : frame) :
  pnl_of n "generators" !! "p_max_pu" = Some p_max_pu ->
  pnl_of n "loads" !! "p_set" = Some p_set ->
  pnl_of n "storage_units" !! "inflow" = Some inflow ->
  map fst (rows p_max_pu) = snapshots n ->
  map fst (rows p_set) = snapshots n ->
  map fst (rows inflow) = snapshots n ->
  NoDup (snapshots n) ->
  head (snapshots n) = Some first ->
  int_value py_int segments = Some no_segments ->
  let raw :=
    concat_columns [frame_div p_max_pu (column_max p_max_pu);
                    frame_div p_set (column_max p_set);
                    frame_div inflow (column_max inflow)] in
  tsam_create_typical_periods raw (length (rows raw)) no_segments solver
    = inr segmented ->
  rows segmented <> [] ->
  (forall c, c ∈ columns raw -> c ∈ columns segmented) ->
  let durations := map fst (rows segmented) in
  exists n',
    apply_time_segmentation py_int true tsam_create_typical_periods
      attr_default segments solver n = (inr tt, n') /\
    columns (snapshot_weightings n') = ["objective"; "stores"; "generators"] /\
    map fst (rows (snapshot_weightings n')) = snapshots n' /\
    (forall j, (j < 3)%nat ->
       column_at j (rows (snapshot_weightings n'))
       = map float_of_Z durations) /\
    length (snapshots n') = length durations /\
    (forall i s,
       snapshots n' !! i = Some s ->
       s = first + sumZ (take i durations) * hour_ns).
Proof.
  intros Hpm Hps Hinf Ipm Ips Iinf Hnd Hfirst Hint raw Htsam Hsome Hcols
    durations.
  assert (durations ≠ []) as Hne.
  { unfold durations. by destruct (rows segmented). }
  set (labels := map (fun offset => first + offset * hour_ns)
                     (0 :: cumsum (removelast durations))).
  assert (labels = map (fun i => first + sumZ (take i durations) * hour_ns)
                       (seq 0 (length durations))) as Hlabels.
  { unfold labels. rewrite segment_offsets by done. by rewrite map_map. }
  assert (length durations = length labels) as Hlen.
  { by rewrite Hlabels, !length_map, length_seq. }
  set (seg := Frame (columns segmented)
                (zip_with (fun t r => (t, r.2)) labels (rows segmented))).
  assert (forall c, c ∈ columns raw -> c ∈ columns seg) as Hseg by done.
  assert (columns raw
          = columns p_max_pu ++ columns p_set ++ columns inflow) as Hrawcols.
  { unfold raw, concat_columns. cbn [columns map concat frame_div].
    by rewrite app_nil_r. }
  destruct (select_columns_known (columns p_max_pu) seg) as (g & Hg & _).
  { apply Forall_forall. intros c Hc. apply Hseg. rewrite Hrawcols.
    apply elem_of_app. by left. }
  destruct (select_columns_known (columns p_set) seg) as (l & Hl & _).
  { apply Forall_forall. intros c Hc. apply Hseg. rewrite Hrawcols.
    rewrite !elem_of_app. right. by left. }
  destruct (select_columns_known (columns inflow) seg) as (i & Hi & _).
  { apply Forall_forall. intros c Hc. apply Hseg. rewrite Hrawcols.
    rewrite !elem_of_app. right. by right. }
  eexists. split.
  { unfold apply_time_segmentation. cbn [negb].
    unfold bind at 1. unfold get at 1.
    unfold pnl_table. rewrite Hpm, Hps, Hinf.
    unfold bind at 1 2 3. unfold or_raise at 1 2 3. unfold ret at 1 2 3.
    unfold int_of. rewrite Hint. unfold bind at 1. unfold or_raise at 1.
    unfold ret at 1. fold raw. rewrite Htsam.
    unfold bind at 1. unfold of_result at 1. unfold ret at 1.
    rewrite Hfirst. unfold bind at 1. unfold or_raise at 1. unfold ret at 1.
    fold durations. fold labels.
    rewrite bool_decide_eq_true_2 by done.
    fold seg. rewrite Hg, Hl, Hi.
    unfold bind, modify, of_result, ret. reflexivity. }
  assert (forall ln a df m, snapshots (set_pnl_table ln a df m) = snapshots m)
    as Hs by (by intros ? ? ? []).
  assert (forall ln a df m,
            snapshot_weightings (set_pnl_table ln a df m)
            = snapshot_weightings m) as Hw by (by intros ? ? ? []).
  rewrite !Hs, !Hw.
  assert (forall idx w m, snapshots (set_time idx w m) = idx)
    as Hst by (by intros ? ? []).
  assert (forall idx w m, snapshot_weightings (set_time idx w m) = w)
    as Hwt by (by intros ? ? []).
  rewrite !Hst, !Hwt.
  split; [done|]. split; [|split; [|split]].
  - unfold broadcast_weightings. cbn [rows].
    assert (forall (idx : list Z) (ws : list float),
              length ws = length idx ->
              map fst (zip_with (fun t w => (t, [w; w; w])) idx ws) = idx)
      as Hzip.
    { induction idx as [|t idx IH]; intros [|w ws] Hl'; try done.
      cbn. f_equal. apply IH. by injection Hl'. }
    apply Hzip. by rewrite length_map.
  - intros j Hj. apply broadcast_weightings_column; [|done].
    by rewrite length_map.
  - done.
  - intros k s. rewrite Hlabels, map_is_fmap, list_lookup_fmap.
    destruct (seq 0 (length durations) !! k) as [k'|] eqn:Hk; [|done].
    apply lookup_seq in Hk as [-> _]. by intros [= <-].
Qed.
End SegmentationEffects.

(* the four hourly snapshots of series_network, cut into the segments of
   one, two and one hour: the new snapshots are at 0h, 1h and 3h *)
Lemma apply_time_segmentation_effects_witness :
  exists n',
    apply_time_segmentation sample_int true three_segments (fun _ _ => NaN)
      (PInt 3) "cbc" series_network = (inr tt, n') /\
    snapshots n' = [0; hour_ns; 3 * hour_ns] /\
    rows (snapshot_weightings n')
      = [ (0, [float_of_Z 1; float_of_Z 1; float_of_Z 1]);
          (hour_ns, [float_of_Z 2; float_of_Z 2; float_of_Z 2]);
          (3 * hour_ns, [float_of_Z 1; float_of_Z 1; float_of_Z 1]) ].
Proof.
  assert (NoDup (snapshots series_network)) as Hnd.
  { simpl. repeat (apply NoDup_cons; split;
                   [intros Hin; apply list_elem_of_In in Hin; simpl in Hin;
                    repeat destruct Hin as [Hin|Hin]; try discriminate Hin;
                    exact Hin|]).
    apply NoDup_nil. done. }
  destruct (apply_time_segmentation_effects sample_int three_segments
              (fun _ _ => NaN) series_network (PInt 3) "cbc" 3 0
              _ _ _ _
              eq_refl eq_refl eq_refl eq_refl eq_refl eq_refl Hnd
              eq_refl eq_refl eq_refl)
    as (n' & Hrun & _).
  { discriminate. }
  { intros c Hc. exact Hc. }
  exists n'. split; [exact Hrun|].
  assert (n' = (apply_time_segmentation sample_int true three_segments
                  (fun _ _ => NaN) (PInt 3) "cbc" series_network).2) as ->
    by exact (eq_sym (f_equal snd Hrun)).
  split; vm_compute; reflexivity.
Defined.

(** C5, counterexample to the sentence of the specification: on
    two_hourly_network, whose two snapshots are two hours apart, let tsam
    answer as it does for a period that is one step long, with one segment
    of duration 1.  The call returns normally, the one new snapshot has
    the weighting 1.0, and the durations add up to 1, which is not the
    number of original snapshots, 2. *)
Lemma segment_durations_not_snapshot_count :
  let n := two_hourly_network in
  exists n',
    apply_time_segmentation sample_int true one_step_segment (fun _ _ => NaN)
      (PInt 1) "cbc" n = (inr tt, n') /\
    length (snapshots n) = 2%nat /\
    snapshots n' = [0] /\
    rows (snapshot_weightings n')
      = [(0, [float_of_Z 1; float_of_Z 1; float_of_Z 1])] /\
    fsum (column_at 0 (rows (snapshot_weightings n'))) = float_of_Z 1 /\
    feqb (fsum (column_at 0 (rows (snapshot_weightings n')))) (float_of_Z 2)
      = false.
Proof.
  intros n. eexists. split; [vm_compute; reflexivity|].
  repeat split; vm_compute; reflexivity.
Qed.

(* ===================================================================== *)
(* Further properties of the code                                         *)
(* ===================================================================== *)

(* --------------------------------------------------------------------- *)
(* find_opt and the number that ends a token                              *)
(* --------------------------------------------------------------------- *)

Lemma dot_or_not (c : ascii) (s : string) (yes no : bool) :
  match String c s with
  | String "."%char s' => yes
  | _ => no
  end = if bool_decide (c = "."%char) then yes else no.
Proof.
  destruct c as [[] [] [] [] [] [] [] []]; try reflexivity.
Qed.

Lemma is_number_unfold (s : string) :
  is_number s =
  match drop_digits s with
  | EmptyString => nonempty s
  | String c s' =>
      bool_decide (c = "."%char) && (nonempty s' && all_digits s')
  end.
Proof.
  unfold is_number. destruct (drop_digits s) as [|c s']; [done|].
  destruct c as [[] [] [] [] [] [] [] []]; reflexivity.
Qed.

Lemma append_cons (c : ascii) (d r : string) :
  String c d +:+ r = String c (d +:+ r).
Proof. reflexivity. Qed.

Lemma append_empty (r : string) : "" +:+ r = r.
Proof. reflexivity. Qed.

Lemma drop_digits_split (s : string) :
  exists d, s = d +:+ drop_digits s /\ all_digits d = true.
Proof.
  induction s as [|c s (d & Hs & Hd)]; cbn [drop_digits].
  - by exists "".
  - destruct (is_digit c) eqn:Hc.
    + exists (String c d). cbn [all_digits]. rewrite Hc, Hd, append_cons.
      split; [f_equal; exact Hs | done].
    + by exists "".
Qed.

Lemma last_char_app (d r : string) :
  r <> "" -> last_char (d +:+ r) = last_char r.
Proof.
  intros Hr. induction d as [|c d IH]; [done|].
  rewrite append_cons. cbn [last_char]. rewrite IH.
  destruct (d +:+ r) eqn:Hdr; [|done].
  destruct d; [by rewrite append_empty in Hdr | by rewrite append_cons in Hdr].
Qed.

Lemma all_digits_last (s : string) (c : ascii) :
  all_digits s = true -> last_char s = Some c -> is_digit c = true.
Proof.
  induction s as [|a s IH]; [done|].
  cbn [all_digits]. intros [Ha Hs]%andb_true_iff. destruct s as [|b s].
  - cbn [last_char]. intros [= <-]. exact Ha.
  - change (last_char (String a (String b s))) with (last_char (String b s)).
    by apply IH.
Qed.

Lemma last_char_nonempty (s : string) : nonempty s = true -> is_Some (last_char s).
Proof.
  induction s as [|a s IH]; simpl; [done|]. intros _.
  destruct s; [by eexists | by apply IH].
Qed.

(* a match of the number pattern ends in a digit *)
Lemma is_number_last (m : string) :
  is_number m = true ->
  exists c, last_char m = Some c /\ is_digit c = true.
Proof.
  rewrite is_number_unfold.
  destruct (drop_digits_split m) as (d & Hm & Hd).
  destruct (drop_digits m) as [|a s'] eqn:Hdrop.
  - intros Hne. destruct (last_char_nonempty m Hne) as [c Hc].
    exists c. split; [done|]. apply (all_digits_last m); [|done].
    rewrite Hm. clear Hm Hc. induction d as [|x d IHd]; [done|].
    rewrite append_cons. cbn [all_digits] in *.
    apply andb_true_iff in Hd as [Hx Hd]. rewrite Hx. by apply IHd.
  - intros [_ [Hne Hs']%andb_true_iff]%andb_true_iff.
    destruct (last_char_nonempty s' Hne) as [c Hc]. exists c.
    split; [|by apply (all_digits_last s')].
    rewrite Hm, last_char_app by done.
    simpl. destruct s'; [done | exact Hc].
Qed.

Lemma all_chars_app (P : ascii -> bool) (a b : string) :
  all_chars P (a +:+ b) = all_chars P a && all_chars P b.
Proof.
  induction a as [|c a IH]; [done|].
  rewrite append_cons. cbn [all_chars]. rewrite IH. by rewrite andb_assoc.
Qed.

Lemma all_digits_number_chars (s : string) :
  all_digits s = true -> all_chars number_char s = true.
Proof.
  induction s as [|c s IH]; [done|]. cbn [all_digits all_chars].
  intros [Hc Hs]%andb_true_iff. unfold number_char. rewrite Hc. by apply IH.
Qed.

(* a match of the number pattern holds digits and dots only *)
Lemma is_number_chars (s : string) :
  is_number s = true -> all_chars number_char s = true.
Proof.
  rewrite is_number_unfold.
  destruct (drop_digits_split s) as (d & Hs & Hd).
  destruct (drop_digits s) as [|a s'] eqn:Hdrop.
  - intros _. rewrite Hs, all_chars_app.
    by rewrite all_digits_number_chars.
  - intros [Ha [_ Hs']%andb_true_iff]%andb_true_iff.
    rewrite Hs, all_chars_app, all_digits_number_chars by done.
    cbn [all_chars]. unfold number_char at 1. rewrite Ha, orb_true_r.
    by rewrite all_digits_number_chars.
Qed.

Lemma number_suffix_found (o m : string) :
  number_suffix o = Some m ->
  is_number m = true /\ exists p, o = p +:+ m.
Proof.
  induction o as [|c o IH]; cbn [number_suffix].
  - destruct (is_number "") eqn:Hn; [|done]. intros [= <-]. split; [done|].
    by exists "".
  - destruct (is_number (String c o)) eqn:Hn.
    + intros [= <-]. split; [done|]. by exists "".
    + intros Hm. destruct (IH Hm) as [Hnum [p ->]]. split; [done|].
      by exists (String c p).
Qed.

Lemma number_suffix_exists (p m : string) :
  is_number m = true -> is_Some (number_suffix (p +:+ m)).
Proof.
  intros Hm. induction p as [|c p IH].
  - rewrite append_empty. destruct m as [|a m]; [done|].
    cbn [number_suffix]. rewrite Hm. by eexists.
  - rewrite append_cons. cbn [number_suffix].
    destruct (is_number (String c (p +:+ m))); [by eexists | exact IH].
Qed.

Lemma last_char_split (o : string) (c : ascii) :
  last_char o = Some c -> exists p, o = p +:+ String c "".
Proof.
  induction o as [|a o IH]; [done|]. destruct o as [|b o].
  - intros [= <-]. by exists "".
  - change (last_char (String a (String b o))) with (last_char (String b o)).
    intros Hc. destruct (IH Hc) as [p ->]. by exists (String a p).
Qed.

Lemma is_number_digit (c : ascii) :
  is_digit c = true -> is_number (String c "") = true.
Proof.
  intros Hc. unfold is_number. cbn [drop_digits]. by rewrite Hc.
Qed.

(* a token that does not end with a newline is matched as it is *)
Lemma chomp_fixed (o : string) (c : ascii) :
  last_char o = Some c -> c <> "010"%char -> chomp o = o.
Proof.
  induction o as [|a o IH]; [done|]. destruct o as [|b o].
  - intros [= <-] Hc. cbn [chomp]. by rewrite bool_decide_eq_false_2.
  - change (last_char (String a (String b o))) with (last_char (String b o)).
    intros Hlast Hc. change (chomp (String a (String b o)))
      with (String a (chomp (String b o))).
    by rewrite IH.
Qed.

Lemma digit_not_newline (c : ascii) : is_digit c = true -> c <> "010"%char.
Proof. by intros Hd ->. Qed.

(** X1 (find_opt, the trailing number). A number is found at the end of a
    token exactly when the token ends in a digit, a newline that ends the
    token not counted: the pattern [0-9]*\.?[0-9]+$ has a match in o if and
    only if o, without the newline that may end it, ends in a digit. *)
Theorem trailing_number_iff_last_digit (o : string) :
  is_Some (trailing_number o) <->
  exists c, last_char (chomp o) = Some c /\ is_digit c = true.
Proof.
  unfold trailing_number. split.
  - intros [m Hm].
    destruct (number_suffix_found (chomp o) m Hm) as [Hnum [p Hp]].
    destruct (is_number_last m Hnum) as (c & Hc & Hd).
    exists c. split; [|done]. rewrite Hp, last_char_app; [done|].
    intros ->. done.
  - intros (c & Hc & Hd). destruct (last_char_split (chomp o) c Hc) as [p ->].
    apply number_suffix_exists. by apply is_number_digit.
Qed.

Lemma number_suffix_after_separator (pre num : string) (c : ascii) :
  number_char c = false ->
  is_number num = true ->
  number_suffix (pre +:+ String c num) = Some num.
Proof.
  intros Hc Hnum.
  assert (forall q, is_number (q +:+ String c num) = false) as Hno.
  { intros q. destruct (is_number (q +:+ String c num)) eqn:Hq; [|done].
    apply is_number_chars in Hq. rewrite all_chars_app in Hq.
    cbn [all_chars] in Hq. rewrite Hc in Hq.
    by rewrite andb_false_r in Hq. }
  induction pre as [|a pre IH].
  - rewrite append_empty. cbn [number_suffix].
    pose proof (Hno "") as H0. rewrite append_empty in H0. rewrite H0.
    destruct num; cbn [number_suffix]; by rewrite Hnum.
  - rewrite append_cons. cbn [number_suffix].
    pose proof (Hno (String a pre)) as H1. rewrite append_cons in H1.
    rewrite H1. exact IH.
Qed.

(** X2 (find_opt, the trailing number). When a number follows a character
    that is neither a digit nor a dot, the number found in the token is
    exactly that number: digits earlier in the token, as the 2 of Co2L0.5,
    are not part of it. *)
Theorem trailing_number_after_separator (pre num : string) (c : ascii) :
  number_char c = false ->
  is_number num = true ->
  trailing_number (pre +:+ String c num) = Some num.
Proof.
  intros Hc Hnum. unfold trailing_number.
  destruct (is_number_last num Hnum) as (d & Hlast & Hd).
  rewrite (chomp_fixed _ d).
  - by apply number_suffix_after_separator.
  - replace (pre +:+ String c num) with ((pre +:+ String c "") +:+ num).
    + rewrite last_char_app; [done|]. intros ->. done.
    + clear. induction pre as [|a pre IH].
      * by rewrite !append_empty, append_cons, append_empty.
      * by rewrite !append_cons, IH.
  - by apply digit_not_newline.
Qed.

(* the token Co2L0.5 *)
Lemma trailing_number_after_separator_witness :
  number_char "L" = false /\ is_number "0.5" = true /\
  trailing_number "Co2L0.5" = Some "0.5".
Proof.
  split; [reflexivity|]. split; [reflexivity|].
  exact (trailing_number_after_separator "Co2" "0.5" "L" eq_refl eq_refl).
Defined.

Section FindOpt.
Variable py_float : string -> option float.
Context {S : Type}.

Lemma find_opt_skip (pre opts : list string) (expr : string) (s : S) :
  Forall (fun o => contains expr o = false) pre ->
  find_opt py_float (pre ++ opts) expr s = find_opt py_float opts expr s.
Proof.
  induction 1 as [|o pre Ho Hpre IH]; [done|].
  cbn [app find_opt]. by rewrite Ho.
Qed.

(** X3 (find_opt). find_opt reports (False, None) exactly when no token
    holds the expression. *)
Theorem find_opt_absent_iff (opts : list string) (expr : string) (s : S) :
  find_opt py_float opts expr s = (inr (false, None), s) <->
  Forall (fun o => contains expr o = false) opts.
Proof.
  split.
  - induction opts as [|o opts IH]; [by constructor|].
    cbn [find_opt]. destruct (contains expr o) eqn:Ho.
    + destruct (trailing_number o) as [m|]; [|done].
      unfold bind, or_raise. destruct (py_float m); done.
    + intros Hrest. constructor; [done | by apply IH].
  - intros Hall. rewrite <- (app_nil_r opts).
    by rewrite find_opt_skip.
Qed.

(** X4 (find_opt). The first token that holds the expression decides: the
    tokens after it are not looked at, so when that token ends in no number
    the result is (True, None) even if a later token carries one. *)
Theorem find_opt_first_token (pre post : list string) (o expr : string) (s : S) :
  Forall (fun t => contains expr t = false) pre ->
  contains expr o = true ->
  find_opt py_float (pre ++ o :: post) expr s =
  match trailing_number o with
  | None => (inr (true, None), s)
  | Some m0 =>
      match py_float m0 with
      | Some x => (inr (true, Some x), s)
      | None => (inl (ValueError m0), s)
      end
  end.
Proof.
  intros Hpre Ho. rewrite find_opt_skip by done.
  cbn [find_opt]. rewrite Ho.
  destruct (trailing_number o) as [m0|]; [|done].
  unfold bind, or_raise. by destruct (py_float m0).
Qed.
End FindOpt.

(* the tokens Ept and Ep30: the first one holds Ep and ends in no number *)
Lemma find_opt_first_token_witness :
  contains "Ep" "Ept" = true /\
  find_opt sample_float ["Ept"; "Ep30"] "Ep" tt = (inr (true, None), tt).
Proof.
  split; [reflexivity|].
  exact (find_opt_first_token sample_float [] ["Ep30"] "Ept" "Ep" tt
           (List.Forall_nil _) eq_refl).
Defined.

(* --------------------------------------------------------------------- *)
(* Global limits: what happens when the constraint is there already       *)
(* --------------------------------------------------------------------- *)

(** X5 (add_co2limit). On a network without a CO2Limit constraint the call
    appends the constraint; any further call of add_co2limit then raises
    the AssertionError of n.add and leaves the network as it is: the limit
    cannot be set twice, nor replaced. *)
Theorem add_co2limit_only_once (co2limit Nyears : float) (n : network) :
  "CO2Limit" ∉ map gc_name (global_constraints n) ->
  exists n1,
    add_co2limit co2limit Nyears n = (inr tt, n1) /\
    forall co2limit' Nyears',
      add_co2limit co2limit' Nyears' n1
      = (inl (AssertionError "CO2Limit"), n1).
Proof.
  intros Hfresh. eexists. split.
  - unfold add_co2limit. by apply n_add_global_constraint_fresh.
  - intros c' y'. unfold add_co2limit.
    apply (n_add_global_constraint_taken
             (GlobalConstraint "CO2Limit" "primary_energy" "co2_emissions" "<="
                (fmul c' y'))).
    destruct n; simpl. rewrite map_app. apply elem_of_app. right.
    simpl. apply list_elem_of_here.
Qed.

Lemma add_co2limit_only_once_witness :
("CO2Limit" ∉ map gc_name (global_constraints gas_network)) /\
  exists n1,
    add_co2limit (fq 100 1) (fq 2 1) gas_network = (inr tt, n1) /\
    add_co2limit (fq 50 1) (fq 2 1) n1 = (inl (AssertionError "CO2Limit"), n1).
Proof.
  assert ("CO2Limit" ∉ map gc_name (global_constraints gas_network)) as H
    by (simpl; apply not_elem_of_nil).
  split; [exact H|].
  destruct (add_co2limit_only_once (fq 100 1) (fq 2 1) gas_network H)
    as (n1 & Hrun & Hagain).
  exists n1. split; [exact Hrun | apply Hagain].
Defined.

(** X6 (add_gaslimit). When a GasLimit constraint exists already, the call
    raises the AssertionError of n.add, and by then the carriers have been
    marked: in the network it leaves, the gas_usage cell of every carrier
    among OCGT, CCGT and CHP is 1.0, while the global constraints are as
    they were. *)
Theorem add_gaslimit_marks_before_failing (gaslimit Nyears : float)
    (n : network) :
  "GasLimit" ∈ map gc_name (global_constraints n) ->
  exists n',
    add_gaslimit gaslimit Nyears n = (inl (AssertionError "GasLimit"), n') /\
    global_constraints n' = global_constraints n /\
    Forall2 (fun c c' =>
               carrier_name c' = carrier_name c /\
               (carrier_name c ∈ gas_carriers -> cell c' "gas_usage" = f1))
            (carriers n) (carriers n').
Proof.
  intros Htaken. unfold add_gaslimit. run.
  rewrite n_add_global_constraint_taken by (by destruct n).
  eexists. split; [reflexivity|]. split; [by destruct n|].
  destruct n; simpl. clear Htaken.
  apply Forall2_fmap_r, Forall_Forall2_diag, Forall_forall. intros c Hc.
  pose proof (gas_selection
    (Network snapshots0 snapshot_weightings0 buses0 carriers0 line_types0
       lines0 links0 generators0 storage_units0 stores0 loads0
       global_constraints0 pnl0) c Hc) as Hsel. simpl in Hsel.
  unfold compose. case_bool_decide as Hin.
  - split; [done|]. intros _. unfold cell, carrier_with. simpl.
    by rewrite lookup_insert_eq.
  - split; [done|]. intros Hg. destruct Hin. by apply Hsel.
Qed.

Lemma add_gaslimit_marks_before_failing_witness :
  "GasLimit" ∈ map gc_name (global_constraints limited_gas_network) /\
  exists n',
    add_gaslimit (fq 5 1) (fq 2 1) limited_gas_network
    = (inl (AssertionError "GasLimit"), n') /\
    global_constraints n' = global_constraints limited_gas_network.
Proof.
  assert ("GasLimit" ∈ map gc_name (global_constraints limited_gas_network))
    as H by (simpl; apply list_elem_of_here).
  split; [exact H|].
  destruct (add_gaslimit_marks_before_failing (fq 5 1) (fq 2 1)
              limited_gas_network H) as (n' & Hrun & Hgc & _).
  exists n'. split; [exact Hrun | exact Hgc].
Defined.

(* --------------------------------------------------------------------- *)
(* set_transmission_limit: a factor that is no number, a line type that   *)
(* is not known                                                           *)
(* --------------------------------------------------------------------- *)

Section TransmissionLimitErrors.
Variable py_float : string -> option float.
Variable costs : Type.
Variable line_cost : costs -> line -> float.
Variable link_cost : costs -> link -> float.

(** X7 (set_transmission_limit). When the factor is a string that is
    neither "opt" nor a number, the call raises ValueError, and it does so
    after the transmission costs have been refreshed: the network it leaves
    has the new capital costs, no line or link has been made extendable, and
    no constraint has been added. *)
Theorem set_transmission_limit_bad_factor (n : network) (ll_type s : string)
    (c : costs) (Nyears : float) :
  s <> "opt" ->
  py_float s = None ->
  exists n',
    set_transmission_limit py_float costs line_cost link_cost
      ll_type (PStr s) c Nyears n = (inl (ValueError s), n') /\
    lines n' = map (fun l => line_with_capital_cost (line_cost c l) l) (lines n) /\
    links n' = map (fun k => link_with_capital_cost (link_cost c k) k) (links n) /\
    global_constraints n' = global_constraints n.
Proof.
  intros Hopt Hfloat.
  unfold set_transmission_limit, update_transmission_costs.
  unfold bind at 1 2 3. unfold get, modify.
  unfold is_opt. rewrite bool_decide_eq_false_2 by done.
  unfold bind, float_of, float_value. rewrite Hfloat.
  unfold or_raise, raise.
  eexists. split; [reflexivity|]. by destruct n.
Qed.
End TransmissionLimitErrors.

(* the factor "abc" *)
Lemma set_transmission_limit_bad_factor_witness :
  "abc" <> "opt" /\ sample_float "abc" = None /\
  exists n',
    set_transmission_limit sample_float unit
      (fun _ l => line_capital_cost l) (fun _ k => link_capital_cost k)
      "v" (PStr "abc") tt f1 grid_network = (inl (ValueError "abc"), n').
Proof.
  assert ("abc" <> "opt") as H by discriminate.
  split; [exact H|]. split; [reflexivity|].
  destruct (set_transmission_limit_bad_factor sample_float unit
              (fun _ l => line_capital_cost l) (fun _ k => link_capital_cost k)
              grid_network "v" "abc" tt f1 H eq_refl) as (n' & Hrun & _).
  exists n'. exact Hrun.
Defined.

Lemma fadd_NaN_r (x : float) : fadd x NaN = NaN.
Proof. by destruct x. Qed.

Lemma fmul_NaN_r (x : float) : fmul x NaN = NaN.
Proof. by destruct x. Qed.

Lemma fmul_NaN_l (x : float) : fmul NaN x = NaN.
Proof. by destruct x. Qed.

Lemma fadd_NaN_l (x : float) : fadd NaN x = NaN.
Proof. done. Qed.

Lemma foldl_fadd_NaN (xs : list float) : foldl fadd NaN xs = NaN.
Proof. induction xs as [|x xs IH]; [done|]. exact IH. Qed.

Lemma fsum_all_NaN (xs : list float) (a : float) :
  NaN ∈ xs -> foldl fadd a xs = NaN.
Proof.
  revert a. induction xs as [|x xs IH]; intros a Hin;
    [by apply elem_of_nil in Hin|].
  apply elem_of_cons in Hin as [<-|Hin]; cbn [foldl].
  - rewrite fadd_NaN_r. apply foldl_fadd_NaN.
  - by apply IH.
Qed.

(* a NaN factor at some position makes the dot product NaN *)
Lemma fdot_NaN {A : Type} (f g : A -> float) (ls : list A) (a : A) :
  a ∈ ls -> f a = NaN -> fdot (map f ls) (map g ls) = NaN.
Proof.
  intros Ha Hf. unfold fdot. apply fsum_all_NaN.
  induction ls as [|b ls IH]; [by apply elem_of_nil in Ha|].
  apply elem_of_cons in Ha as [<-|Ha]; cbn [map zip_with].
  - rewrite Hf. rewrite fmul_NaN_l. left.
  - right. by apply IH.
Qed.

(** X8 (set_transmission_limit, the reference). The reference is a dot
    product and does not skip missing values: as soon as one line has a line
    type that is not a row of n.line_types, the reference is NaN, and so is
    the constant factor * reference of the limit, for every factor. *)
Theorem transmission_ref_unknown_line_type (n : network) (ll_type : string)
    (l : line) :
  l ∈ lines n ->
  type l <> "" ->
  lookup_row line_type_name (type l) (line_types n) = None ->
  transmission_ref n ll_type = NaN /\
  forall factor, fmul factor (transmission_ref n ll_type) = NaN.
Proof.
  intros Hl Htype Hrow.
  assert (transmission_ref n ll_type = NaN) as Href.
  { unfold transmission_ref.
    rewrite (fdot_NaN (lines_s_nom n) (line_col ll_type) (lines n) l Hl).
    - done.
    - unfold lines_s_nom. rewrite bool_decide_eq_false_2 by done.
      unfold map_float. rewrite Hrow. cbn [from_option].
      by rewrite fmul_NaN_r, !fmul_NaN_l. }
  split; [done|]. intros factor. rewrite Href. apply fmul_NaN_r.
Qed.

Lemma transmission_ref_unknown_line_type_witness :
  let l := Line "l9" "b1" "b2" "Al/St 240/40 2-bundle 220.0" f1 (fq 80 1)
             (fq 700 1) f0 PInf false f1 (fq 3 1) in
  l ∈ lines typed_network /\
  type l <> "" /\
  lookup_row line_type_name (type l) (line_types typed_network) = None /\
  transmission_ref typed_network "v" = NaN.
Proof.
  intros l.
  assert (l ∈ lines typed_network) as Hl.
  { apply list_elem_of_In. simpl. right. left. reflexivity. }
  assert (type l <> "") as Ht by discriminate.
  split; [exact Hl|]. split; [exact Ht|]. split; [reflexivity|].
  exact (proj1 (transmission_ref_unknown_line_type typed_network "v" l
                  Hl Ht eq_refl)).
Defined.

(* --------------------------------------------------------------------- *)
(* set_line_nom_max: ceilings only tighten                                *)
(* --------------------------------------------------------------------- *)

Lemma SFcompare_antisym (x y : float) :
  SFcompare y x = option_map CompOpp (SFcompare x y).
Proof.
  destruct x as [[]|[]| |[] m1 e1], y as [[]|[]| |[] m2 e2]; cbn; try done;
    rewrite (Z.compare_antisym e1 e2); destruct (e1 ?= e2); cbn; try done;
    repeat f_equal; symmetry; exact (Pos.compare_cont_antisym m1 m2 Eq).
Qed.

Lemma fgtb_asym (x y : float) : fgtb x y = true -> fgtb y x = false.
Proof.
  unfold fgtb, SFltb. rewrite (SFcompare_antisym x y).
  by destruct (SFcompare x y) as [[]|].
Qed.

(* a clipped value is never above the value it came from *)
Lemma clip_upper_not_above (u x : float) : fgtb (clip_upper u x) x = false.
Proof.
  unfold clip_upper. destruct (isnan u); [apply fgtb_irrefl|].
  destruct (fgtb x u) eqn:Hx; [by apply fgtb_asym | apply fgtb_irrefl].
Qed.

(** X9 (set_line_nom_max without an extension budget). When no finite
    positive budget is given, the call only tightens: each line and each
    link, whatever its carrier, keeps all its cells except the maximum
    capacity, and its new maximum capacity is the old one clipped to the
    ceiling, never above the old one. *)
Theorem set_line_nom_max_only_tightens (n : network)
    (s_nom_max_set p_nom_max_set s_nom_max_ext p_nom_max_ext : float) :
  budget_given s_nom_max_ext = false ->
  budget_given p_nom_max_ext = false ->
  let n' := set_line_nom_max n s_nom_max_set p_nom_max_set
              s_nom_max_ext p_nom_max_ext in
  Forall2 (fun l l' =>
             l' = line_with_s_nom_max (clip_upper s_nom_max_set (s_nom_max l)) l /\
             fgtb (s_nom_max l') (s_nom_max l) = false)
          (lines n) (lines n') /\
  Forall2 (fun k k' =>
             k' = link_with_p_nom_max (clip_upper p_nom_max_set (p_nom_max k)) k /\
             fgtb (p_nom_max k') (p_nom_max k) = false)
          (links n) (links n').
Proof.
  intros Hs Hp n'. unfold n'.
  rewrite set_line_nom_max_lines, set_line_nom_max_links, Hs, Hp.
  cbn [andb].
  split; apply Forall2_fmap_r, Forall_Forall2_diag, Forall_forall;
    intros x _; unfold compose; (split; [done|]); destruct x; simpl;
    apply clip_upper_not_above.
Qed.

(* a budget of zero is no budget; ceilings of 900 MW and 400 MW *)
Lemma set_line_nom_max_only_tightens_witness :
  budget_given f0 = false /\
  let n' := set_line_nom_max grid_network (fq 900 1) (fq 400 1) f0 f0 in
  Forall2 (fun l l' =>
             l' = line_with_s_nom_max (clip_upper (fq 900 1) (s_nom_max l)) l /\
             fgtb (s_nom_max l') (s_nom_max l) = false)
          (lines grid_network) (lines n').
Proof.
  assert (budget_given f0 = false) as H by reflexivity.
  split; [exact H|].
  exact (proj1 (set_line_nom_max_only_tightens grid_network (fq 900 1)
                  (fq 400 1) f0 f0 H H)).
Defined.

(** X10 (set_line_nom_max with its default ceilings). With ceilings of
    plus infinity, the defaults, and no finite positive budget the call
    changes nothing: every network is returned as it is. *)
Theorem set_line_nom_max_defaults (n : network)
    (s_nom_max_ext p_nom_max_ext : float) :
  budget_given s_nom_max_ext = false ->
  budget_given p_nom_max_ext = false ->
  set_line_nom_max n PInf PInf s_nom_max_ext p_nom_max_ext = n.
Proof.
  intros Hs Hp. apply set_line_nom_max_unchanged_iff; [done..|].
  assert (forall x : float, fgtb x PInf = false) as Hinf
    by (by intros [[]|[]| |[] ? ?]).
  split; apply Forall_forall; intros x _; apply Hinf.
Qed.

(* the defaults of all four arguments *)
Lemma set_line_nom_max_defaults_witness :
  budget_given PInf = false /\
  set_line_nom_max grid_network PInf PInf PInf PInf = grid_network.
Proof.
  split; [reflexivity|].
  exact (set_line_nom_max_defaults grid_network PInf PInf eq_refl eq_refl).
Defined.

(* --------------------------------------------------------------------- *)
(* add_emission_prices: a price of zero, a carrier that is not known      *)
(* --------------------------------------------------------------------- *)

(* the network that a call without exclude_co2 leaves *)
Lemma add_emission_prices_run (prices : gmap string float) (n : network)
    (df : frame) :
  pnl_of n "generators" !! "marginal_cost" = Some df ->
  Forall (fun col => is_Some (lookup_row gen_name col (generators n)))
         (columns df) ->
  exists n',
    add_emission_prices false (prices, n) = (inr tt, (prices, n')) /\
    generators n'
    = map (fun g => generator_with_marginal_cost
                      (fadd (gen_marginal_cost g) (gen_ep n prices g)) g)
          (generators n) /\
    storage_units n'
    = map (fun u => storage_unit_with_marginal_cost
                      (fadd (su_marginal_cost u) (su_ep n prices u)) u)
          (storage_units n).
Proof.
  intros Hdf Hcols.
  destruct (select_labels_known gen_name (gen_ep n prices) (generators n)
              (columns df) Hcols) as (incs & Hsel & _).
  eexists. split.
  { unfold add_emission_prices, on_network. run. rewrite Hdf. simpl.
    rewrite Hsel. reflexivity. }
  by destruct n.
Qed.

(* a price of zero on a finite intensity, over a finite efficiency: a
   zero, or NaN when the efficiency is a zero *)
Lemma zero_price_increment (c eff : float) :
  isfinite c = true -> isfinite eff = true ->
  fdiv (fmul f0 c) eff
  = if feqb eff f0 then NaN
    else S754_zero (xorb (match c with
                          | S754_zero s | S754_finite s _ _ => s
                          | _ => false
                          end)
                         (match eff with
                          | S754_finite s _ _ => s
                          | _ => false
                          end)).
Proof.
  destruct c as [sc| | |sc mc ec], eff as [se| | |se me ee]; try done;
    by destruct sc, se.
Qed.

(* adding a zero changes nothing but the sign of the zero -0.0, which
   +0.0 turns into +0.0 *)
Lemma fadd_zero (x : float) (s : bool) :
  fadd x (S754_zero s) = x \/ (x = S754_zero true /\ fadd x (S754_zero s) = f0).
Proof. destruct x as [[]|[]| |[] m e], s; cbn; auto. Qed.

(* a marginal cost of -0.0 does not survive the increment 0.0 * 0.2 / 0.5 *)
Lemma zero_price_negative_zero :
  fadd (S754_zero true) (fdiv (fmul f0 (fq 1 5)) (fq 1 2)) = f0.
Proof. vm_compute. reflexivity. Qed.

(** X11 (add_emission_prices with a price of zero, as in the default
    argument). For a generator whose carrier has a finite CO2 intensity, a
    CO2 price of 0.0 leaves the generator as it is when its efficiency is a
    finite number other than zero (but for a marginal cost of -0.0, which
    may come out as 0.0), and turns its marginal cost into NaN when its
    efficiency is zero (the increment is 0/0). *)
Theorem add_emission_prices_zero_price (n : network) (df : frame) :
  pnl_of n "generators" !! "marginal_cost" = Some df ->
  Forall (fun col => is_Some (lookup_row gen_name col (generators n)))
         (columns df) ->
  let prices : gmap string float := {[ "co2" := f0 ]} in
  exists n',
    add_emission_prices false (prices, n) = (inr tt, (prices, n')) /\
    Forall2 (fun g g' =>
               forall cr,
                 lookup_row carrier_name (gen_carrier g) (carriers n) = Some cr ->
                 isfinite (cell cr "co2_emissions") = true ->
                 isfinite (efficiency g) = true ->
                 (feqb (efficiency g) f0 = false ->
                  g' = g \/
                  (gen_marginal_cost g = S754_zero true /\
                   g' = generator_with_marginal_cost f0 g)) /\
                 (feqb (efficiency g) f0 = true ->
                  gen_marginal_cost g' = NaN))
            (generators n) (generators n').
Proof.
  intros Hdf Hcols prices.
  destruct (add_emission_prices_run prices n df Hdf Hcols)
    as (n' & Hrun & Hgs & _).
  exists n'. split; [exact Hrun|]. rewrite Hgs.
  apply Forall2_fmap_r, Forall_Forall2_diag, Forall_forall.
  intros g _. unfold compose. intros cr Hcr Hcell He.
  assert (gen_ep n prices g
          = fdiv (fmul f0 (cell cr "co2_emissions")) (efficiency g)) as Hep.
  { unfold gen_ep, map_float. rewrite Hcr. cbn [from_option].
    unfold prices. rewrite emission_price_single; [done|].
    by destruct (cell cr "co2_emissions") as [[]|[]| |[] ? ?]. }
  rewrite Hep, (zero_price_increment _ _ Hcell He). split.
  - intros ->.
    destruct (fadd_zero (gen_marginal_cost g)
                (xorb (match cell cr "co2_emissions" with
                       | S754_zero s | S754_finite s _ _ => s
                       | _ => false
                       end)
                      (match efficiency g with
                       | S754_finite s _ _ => s
                       | _ => false
                       end))) as [Hsame | [Hneg Hpos]].
    + left. rewrite Hsame. by destruct g.
    + right. split; [done|]. by rewrite Hpos.
  - intros ->. destruct g; cbn. apply fadd_NaN_r.
Qed.

(* the two gas generators of price_network, with the efficiencies 0.5 and
   0.4, are left as they are *)
Lemma add_emission_prices_zero_price_witness :
  let n := price_network in
  let prices : gmap string float := {[ "co2" := f0 ]} in
  exists n',
    add_emission_prices false (prices, n) = (inr tt, (prices, n')) /\
    generators n' = generators n.
Proof.
  intros n prices.
  assert (pnl_of n "generators" !! "marginal_cost"
          = Some (Frame ["g1"] [(0, [fq 5 1]); (hour_ns, [fq 6 1])])) as Hdf
    by reflexivity.
  assert (Forall (fun col => is_Some (lookup_row gen_name col (generators n)))
                 ["g1"]) as Hcols.
  { constructor; [|constructor]. vm_compute. eauto. }
  destruct (add_emission_prices_zero_price n _ Hdf Hcols) as (n' & Hrun & _).
  exists n'. split; [exact Hrun|].
  assert (n' = (add_emission_prices false (prices, n)).2.2) as ->
    by exact (eq_sym (f_equal (fun r => r.2.2) Hrun)).
  vm_compute. reflexivity.
Defined.

Lemma fdiv_NaN_l (x : float) : fdiv NaN x = NaN.
Proof. by destruct x. Qed.

(** X12 (add_emission_prices, unknown carriers). Whatever the prices, a
    generator or a storage unit whose carrier is not a row of n.carriers
    ends with a marginal cost of NaN: the lookup of its carrier gives a
    missing value, which the addition passes on. *)
Theorem add_emission_prices_unknown_carrier (prices : gmap string float)
    (n : network) (df : frame) :
  pnl_of n "generators" !! "marginal_cost" = Some df ->
  Forall (fun col => is_Some (lookup_row gen_name col (generators n)))
         (columns df) ->
  exists n',
    add_emission_prices false (prices, n) = (inr tt, (prices, n')) /\
    Forall2 (fun g g' =>
               lookup_row carrier_name (gen_carrier g) (carriers n) = None ->
               gen_marginal_cost g' = NaN)
            (generators n) (generators n') /\
    Forall2 (fun u u' =>
               lookup_row carrier_name (su_carrier u) (carriers n) = None ->
               su_marginal_cost u' = NaN)
            (storage_units n) (storage_units n').
Proof.
  intros Hdf Hcols.
  destruct (add_emission_prices_run prices n df Hdf Hcols)
    as (n' & Hrun & Hgs & Hus).
  exists n'. split; [exact Hrun|]. rewrite Hgs, Hus.
  split; apply Forall2_fmap_r, Forall_Forall2_diag, Forall_forall;
    intros x _; unfold compose; intros Hrow; destruct x; simpl in *;
    unfold gen_ep, su_ep, map_float; simpl; rewrite Hrow; simpl;
    rewrite ?fdiv_NaN_l; apply fadd_NaN_r.
Qed.

(* the wind generator and the battery of orphan_network, whose carriers are
   not listed, at a CO2 price of 30 *)
Lemma add_emission_prices_unknown_carrier_witness :
  let n := orphan_network in
  let prices : gmap string float := {[ "co2" := fq 30 1 ]} in
  lookup_row carrier_name "wind" (carriers n) = None /\
  lookup_row carrier_name "battery" (carriers n) = None /\
  exists n',
    add_emission_prices false (prices, n) = (inr tt, (prices, n')) /\
    map (fun g => (gen_name g, gen_carrier g, isnan (gen_marginal_cost g)))
        (generators n)
      = [("g1", "gas", false); ("g2", "gas", false); ("g3", "wind", false)] /\
    map (fun g => (gen_name g, gen_carrier g, isnan (gen_marginal_cost g)))
        (generators n')
      = [("g1", "gas", false); ("g2", "gas", false); ("g3", "wind", true)] /\
    map (fun u => (su_name u, su_carrier u, su_marginal_cost u))
        (storage_units n')
      = [ ("su1", "gas", fadd f1 (fdiv (fmul (fq 30 1) (fq 1 5)) (fq 9 10)));
          ("su2", "battery", NaN) ].
Proof.
  intros n prices.
  assert (pnl_of n "generators" !! "marginal_cost"
          = Some (Frame ["g1"] [(0, [fq 5 1]); (hour_ns, [fq 6 1])])) as Hdf
    by reflexivity.
  assert (Forall (fun col => is_Some (lookup_row gen_name col (generators n)))
                 ["g1"]) as Hcols.
  { constructor; [|constructor]. vm_compute. eauto. }
  split; [reflexivity|]. split; [reflexivity|].
  destruct (add_emission_prices_unknown_carrier prices n _ Hdf Hcols)
    as (n' & Hrun & _).
  exists n'. split; [exact Hrun|].
  assert (n' = (add_emission_prices false (prices, n)).2.2) as ->
    by exact (eq_sym (f_equal (fun r => r.2.2) Hrun)).
  repeat split; vm_compute; reflexivity.
Defined.

(* --------------------------------------------------------------------- *)
(* enforce_autarky: unknown buses, and applying it again                  *)
(* --------------------------------------------------------------------- *)

Lemma enforce_autarky_run (only_crossborder : bool) (n : network) :
  enforce_autarky only_crossborder n
  = (inr tt, without (autarky_lines_rm only_crossborder n)
               (autarky_links_rm only_crossborder n) n).
Proof.
  unfold enforce_autarky, mremove_lines, mremove_links, without,
    autarky_lines_rm, autarky_links_rm.
  unfold bind, get, modify. by destruct n, only_crossborder.
Qed.

(** X13 (enforce_autarky, cross-border mode). A line or a link one of whose
    endpoint buses is not a bus of the network is removed in cross-border
    mode, whatever its other endpoint is: the missing country compares as
    different from everything, itself included. *)
Theorem enforce_autarky_unknown_bus (n : network) :
  let n' := (enforce_autarky true n).2 in
  (forall l, l ∈ lines n ->
     country_of n (line_bus0 l) = None \/ country_of n (line_bus1 l) = None ->
     l ∉ lines n') /\
  (forall k, k ∈ links n ->
     country_of n (link_bus0 k) = None \/ country_of n (link_bus1 k) = None ->
     k ∉ links n').
Proof.
  intros n'. unfold n'. rewrite enforce_autarky_run. cbn [snd].
  unfold without, autarky_lines_rm, autarky_links_rm.
  split.
  - intros l Hl Hnone. replace (lines _) with
      (filter (fun l => line_name l ∉
                 map line_name
                   (filter (fun l => country_ne (country_of n (line_bus0 l))
                                       (country_of n (line_bus1 l)) = true)
                           (lines n))) (lines n)) by (by destruct n).
    rewrite list_elem_of_filter. intros [Hnot _]. apply Hnot.
    rewrite map_is_fmap. apply list_elem_of_fmap_2.
    apply list_elem_of_filter. split; [|done].
    destruct Hnone as [-> | ->]; [done|].
    by destruct (country_of n (line_bus0 l)).
  - intros k Hk Hnone. replace (links _) with
      (filter (fun k => link_name k ∉
                 map link_name
                   (filter (fun k => country_ne (country_of n (link_bus0 k))
                                       (country_of n (link_bus1 k)) = true)
                           (links n))) (links n)) by (by destruct n).
    rewrite list_elem_of_filter. intros [Hnot _]. apply Hnot.
    rewrite map_is_fmap. apply list_elem_of_fmap_2.
    apply list_elem_of_filter. split; [|done].
    destruct Hnone as [-> | ->]; [done|].
    by destruct (country_of n (link_bus0 k)).
Qed.

Lemma enforce_autarky_unknown_bus_witness :
  let l := Line "l7" "b1" "zz" "" f1 (fq 10 1) (fq 100 1) f0 PInf false f1
             (fq 3 1) in
  l ∈ lines dangling_network /\
  country_of dangling_network (line_bus1 l) = None /\
  l ∉ lines (enforce_autarky true dangling_network).2.
Proof.
  intros l.
  assert (l ∈ lines dangling_network) as Hl.
  { apply list_elem_of_In. simpl. right. right. left. reflexivity. }
  assert (country_of dangling_network (line_bus1 l) = None) as Hb
    by reflexivity.
  split; [exact Hl|]. split; [exact Hb|].
  exact (proj1 (enforce_autarky_unknown_bus dangling_network) l Hl
           (or_intror Hb)).
Defined.

Lemma mask_filter_length_le {A B : Type} (mask : list bool)
    (xs : list A) (ys : list B) :
  (length mask <= length xs)%nat ->
  (length (mask_filter mask ys) <= length (mask_filter mask xs))%nat.
Proof.
  revert xs ys. induction mask as [|b mask IH]; intros xs ys Hlen; [done|].
  destruct xs as [|x xs]; [simpl in Hlen; lia|].
  destruct ys as [|y ys]; [simpl; lia|].
  simpl in *. specialize (IH xs ys ltac:(lia)). destruct b; simpl; lia.
Qed.

Lemma mask_filter_all {A B : Type} (f : A -> bool) (xs : list A) (ys : list B) :
  (forall x, f x = true) -> (length ys <= length xs)%nat ->
  mask_filter (map f xs) ys = ys.
Proof.
  intros Hf. revert ys. induction xs as [|x xs IH]; intros [|y ys] Hlen;
    try done; [simpl in Hlen; lia|].
  simpl. rewrite Hf, IH; [done | simpl in Hlen; lia].
Qed.

(* dropping no column from a table that has just had columns dropped *)
Lemma drop_columns_nil_after (names : list string) (df : frame) :
  drop_columns [] (drop_columns names df) = drop_columns names df.
Proof.
  unfold drop_columns. cbn [columns rows].
  set (keep := map (fun c => bool_decide (c ∉ names)) (columns df)).
  assert (forall c : string, bool_decide (c ∉ @nil string) = true) as Htrue.
  { intros c. apply bool_decide_eq_true_2, not_elem_of_nil. }
  f_equal.
  - by apply mask_filter_all.
  - rewrite map_map. apply map_ext. intros r. cbn [fst snd]. f_equal.
    apply mask_filter_all; [done|].
    apply mask_filter_length_le. unfold keep. by rewrite length_map.
Qed.

Lemma without_nothing_after (lines_rm links_rm : list string) (n : network) :
  without [] [] (without lines_rm links_rm n) = without lines_rm links_rm n.
Proof.
  unfold without at 1.
  assert (forall (A : Type) (name : A -> string) (ls : list A),
            filter (fun x => name x ∉ @nil string) ls = ls) as Hall.
  { intros A name ls. apply filter_all. intros x. apply not_elem_of_nil. }
  rewrite !Hall.
  assert (pnl (without lines_rm links_rm n)
          = alter (fmap (drop_columns links_rm)) "links"
              (alter (fmap (drop_columns lines_rm)) "lines" (pnl n))) as Hpnl
    by (by destruct n).
  rewrite Hpnl.
  rewrite (alter_id (fmap (drop_columns [])) _ "lines").
  2:{ intros t. rewrite lookup_alter_ne by done. rewrite lookup_alter.
      case_decide; [|done].
      destruct (pnl n !! "lines") as [t0|]; [|done]. intros [= <-].
      rewrite <- map_fmap_compose. apply map_fmap_ext.
      intros i df _. apply drop_columns_nil_after. }
  rewrite (alter_id (fmap (drop_columns [])) _ "links").
  2:{ intros t. rewrite lookup_alter. case_decide; [|done].
      rewrite lookup_alter_ne by done.
      destruct (pnl n !! "links") as [t0|]; [|done]. intros [= <-].
      rewrite <- map_fmap_compose. apply map_fmap_ext.
      intros i df _. apply drop_columns_nil_after. }
  rewrite <- Hpnl. by destruct n.
Qed.

(* what is left after the removal is selected by no second removal *)
Lemma autarky_nothing_left (only_crossborder : bool) (n : network) :
  let n' := without (autarky_lines_rm only_crossborder n)
              (autarky_links_rm only_crossborder n) n in
  autarky_lines_rm only_crossborder n' = [] /\
  autarky_links_rm only_crossborder n' = [].
Proof.
  intros n'.
  assert (lines n' = filter (fun l => line_name l ∉
                               autarky_lines_rm only_crossborder n) (lines n))
    as Hlines by (by destruct n).
  assert (links n' = filter (fun k => link_name k ∉
                               autarky_links_rm only_crossborder n) (links n))
    as Hlinks by (by destruct n).
  assert (forall b, country_of n' b = country_of n b) as Hcountry
    by (by destruct n).
  unfold autarky_lines_rm at 1, autarky_links_rm at 1.
  rewrite Hlines, Hlinks.
  assert (forall (A : Type) (P : A -> Prop) `{!forall x, Decision (P x)}
            (ls : list A),
            (forall x, x ∈ ls -> ~ P x) -> filter P ls = []) as Hnone.
  { intros A P ? ls Hno. induction ls as [|x ls IH]; [done|].
    rewrite filter_cons. destruct (decide (P x)) as [HP|_].
    - destruct (Hno x); [left | done].
    - apply IH. intros y Hy. apply Hno. by right. }
  destruct only_crossborder.
  - split.
    + rewrite (Hnone _ (fun l => country_ne _ _ = true)); [done|].
      intros l [Hnot Hl]%list_elem_of_filter Hsel. apply Hnot.
      unfold autarky_lines_rm. rewrite map_is_fmap.
      apply list_elem_of_fmap_2, list_elem_of_filter. split; [|done].
      by rewrite <- !Hcountry.
    + rewrite (Hnone _ (fun k => country_ne _ _ = true)); [done|].
      intros k [Hnot Hk]%list_elem_of_filter Hsel. apply Hnot.
      unfold autarky_links_rm. rewrite map_is_fmap.
      apply list_elem_of_fmap_2, list_elem_of_filter. split; [|done].
      by rewrite <- !Hcountry.
  - split.
    + replace (filter _ (lines n)) with (@nil line); [done|].
      symmetry. apply (Hnone _ _ _). intros l Hl Hnot. apply Hnot.
      unfold autarky_lines_rm. rewrite map_is_fmap. by apply list_elem_of_fmap_2.
    + rewrite (Hnone _ (fun k => is_dc k = true)); [done|].
      intros k [Hnot Hk]%list_elem_of_filter Hsel. apply Hnot.
      unfold autarky_links_rm. rewrite map_is_fmap.
      apply list_elem_of_fmap_2, list_elem_of_filter. by split.
Qed.

(** X14 (enforce_autarky, applied again). For every network and either
    mode, enforcing autarky a second time with the same mode removes nothing
    more: the second call returns the network that the first one left. *)
Theorem enforce_autarky_twice (only_crossborder : bool) (n : network) :
  (enforce_autarky only_crossborder ;; enforce_autarky only_crossborder) n
  = enforce_autarky only_crossborder n.
Proof.
  unfold bind at 1. rewrite enforce_autarky_run.
  rewrite enforce_autarky_run.
  destruct (autarky_nothing_left only_crossborder n) as [-> ->].
  by rewrite without_nothing_after.
Qed.

(* --------------------------------------------------------------------- *)
(* set_line_s_max_pu                                                      *)
(* --------------------------------------------------------------------- *)

(** X15 (set_line_s_max_pu). The margin that is written last is the one
    that holds: setting a margin and then another one gives, for every
    network, the network that setting the second margin alone gives. *)
Theorem set_line_s_max_pu_last_wins (a b : float) (n : network) :
  (set_line_s_max_pu a ;; set_line_s_max_pu b) n = set_line_s_max_pu b n.
Proof.
  unfold set_line_s_max_pu, bind, modify, set_lines. cbn [lines].
  f_equal. destruct n. cbn. f_equal.
  rewrite map_map. by apply map_ext.
Qed.

(* --------------------------------------------------------------------- *)
(* add_dynamic_emission_prices: the price series                          *)
(* --------------------------------------------------------------------- *)

Lemma rev_is_reverse {A : Type} (l : list A) : rev l = reverse l.
Proof.
  induction l as [|x l IH]; [done|]. simpl. by rewrite reverse_cons, IH.
Qed.

Lemma ffill_length (a : float) (l : list float) :
  length (ffill a l) = length l.
Proof.
  revert a. induction l as [|x l IH]; intros a; [done|].
  simpl. destruct (isnan x); simpl; by rewrite IH.
Qed.

Lemma bfill_length (l : list float) : length (bfill l) = length l.
Proof. unfold bfill. by rewrite length_rev, ffill_length, length_rev. Qed.

(* a value that is there is not touched by the forward fill *)
Lemma ffill_keeps (a : float) (l : list float) (i : nat) (x : float) :
  l !! i = Some x -> isnan x = false -> ffill a l !! i = Some x.
Proof.
  revert a i. induction l as [|y l IH]; intros a i Hi Hx; [done|].
  destruct i as [|i]; simpl in *.
  - injection Hi as ->. by rewrite Hx.
  - destruct (isnan y); simpl; by apply IH.
Qed.

Lemma bfill_keeps (l : list float) (i : nat) (x : float) :
  l !! i = Some x -> isnan x = false -> bfill l !! i = Some x.
Proof.
  intros Hi Hx. unfold bfill. rewrite !rev_is_reverse.
  pose proof (lookup_lt_Some _ _ _ Hi) as Hlt.
  rewrite reverse_lookup by (by rewrite ffill_length, length_reverse).
  rewrite ffill_length, length_reverse.
  apply ffill_keeps; [|done].
  rewrite reverse_lookup by lia.
  replace (length l - S (length l - S i))%nat with i by lia. done.
Qed.

(* once a value was seen, the forward fill leaves no gap *)
Lemma ffill_filled (a : float) (l : list float) :
  isnan a = false -> Forall (fun x => isnan x = false) (ffill a l).
Proof.
  revert a. induction l as [|x l IH]; intros a Ha; [constructor|].
  simpl. destruct (isnan x) eqn:Hx; constructor; auto.
Qed.

Lemma ffill_gaps_only (l : list float) :
  Forall (fun x => isnan x = true) l -> ffill NaN l = l.
Proof.
  induction 1 as [|x l Hx _ IH]; [done|].
  simpl. rewrite Hx, IH. by destruct x.
Qed.

(* the forward fill ends with a value as soon as there is one to carry *)
Lemma ffill_last (a : float) (l : list float) :
  l ≠ [] ->
  isnan a = false \/ Exists (fun x => isnan x = false) l ->
  exists x, last (ffill a l) = Some x /\ isnan x = false.
Proof.
  revert a. induction l as [|y l IH]; intros a Hne Hsome; [done|].
  simpl. destruct (isnan y) eqn:Hy.
  - destruct l as [|z l].
    + exists a. split; [done|]. destruct Hsome as [Ha|Hex]; [done|].
      apply Exists_cons in Hex as [Hy'|Hnil]; [congruence|].
      by apply Exists_nil in Hnil.
    + destruct (IH a) as (x & Hlast & Hx); [done| |].
      * destruct Hsome as [Ha|Hex]; [by left|right].
        apply Exists_cons in Hex as [Hy'|Hex]; [congruence|done].
      * exists x. split; [|done].
        destruct (ffill a (z :: l)) eqn:Hf; [done|]. by rewrite last_cons, Hlast.
  - destruct l as [|z l].
    + by exists y.
    + destruct (IH y) as (x & Hlast & Hx); [done|by left|].
      exists x. split; [|done].
      destruct (ffill y (z :: l)) eqn:Hf; [done|]. by rewrite last_cons, Hlast.
Qed.

Lemma gaps_or_value (l : list float) :
  Forall (fun x => isnan x = true) l \/ Exists (fun x => isnan x = false) l.
Proof.
  induction l as [|x l [IH|IH]]; [by left| |].
  - destruct (isnan x) eqn:Hx; [left; by constructor | right; by left].
  - right. by right.
Qed.

(** X16 (add_dynamic_emission_prices, the two fills of the price series).
    Filling forwards and then backwards keeps the length of the series and
    every price that was there, and it leaves no gap exactly when the
    series is empty or holds at least one price: a series without any
    price stays without any. *)
Theorem price_gaps_filled (l : list float) :
  let filled := bfill (ffill NaN l) in
  length filled = length l /\
  (forall i x, l !! i = Some x -> isnan x = false -> filled !! i = Some x) /\
  (Forall (fun x => isnan x = false) filled
   <-> l = [] \/ Exists (fun x => isnan x = false) l).
Proof.
  intros filled. unfold filled. split; [|split].
  - by rewrite bfill_length, ffill_length.
  - intros i x Hi Hx. apply bfill_keeps; [|done]. by apply ffill_keeps.
  - split.
    + intros Hall. destruct l as [|y l]; [by left|right].
      destruct (gaps_or_value (y :: l)) as [Hgaps|Hex]; [|done].
      rewrite (ffill_gaps_only _ Hgaps) in Hall.
      unfold bfill in Hall.
      rewrite ffill_gaps_only in Hall by (by apply Forall_rev).
      rewrite rev_involutive in Hall.
      apply Forall_cons in Hall as [Hy _].
      apply Forall_cons in Hgaps as [Hy' _]. congruence.
    + intros [->|Hex]; [constructor|].
      assert (l ≠ []) as Hne by (intros ->; by apply Exists_nil in Hex).
      destruct (ffill_last NaN l Hne (or_intror Hex)) as (x & Hlast & Hx).
      apply last_Some in Hlast as [front Hfront].
      unfold bfill. rewrite Hfront, rev_unit. apply Forall_rev.
      cbn [ffill]. rewrite Hx. constructor; [done|]. by apply ffill_filled.
Qed.

(* --------------------------------------------------------------------- *)
(* add_dynamic_emission_prices: duplicated labels of the price file       *)
(* --------------------------------------------------------------------- *)

Lemma keep_first_labels (seen : list Z) (rs : list (Z * list float)) (t : Z) :
  t ∈ map fst (keep_first seen rs) -> t ∈ map fst rs /\ t ∉ seen.
Proof.
  revert seen. induction rs as [|r rs IH]; intros seen Ht; simpl in *.
  - by apply elem_of_nil in Ht.
  - case_bool_decide as Hseen.
    + destruct (IH _ Ht). split; [by right | done].
    + simpl in Ht. apply elem_of_cons in Ht as [->|Ht].
      * split; [by left | done].
      * destruct (IH _ Ht) as [H1 H2]. split; [by right|].
        intros Hin. apply H2. by right.
Qed.

Lemma keep_first_nodup (seen : list Z) (rs : list (Z * list float)) :
  NoDup (map fst (keep_first seen rs)).
Proof.
  revert seen. induction rs as [|r rs IH]; intros seen; simpl.
  - constructor.
  - case_bool_decide as Hseen; [apply IH|].
    simpl. constructor; [|apply IH].
    intros Hin. apply keep_first_labels in Hin as [_ Hnot]. apply Hnot. by left.
Qed.

Lemma keep_first_find (seen : list Z) (rs : list (Z * list float)) (t : Z) :
  t ∉ seen ->
  snd <$> list_find (fun r => r.1 = t) (keep_first seen rs)
  = snd <$> list_find (fun r => r.1 = t) rs.
Proof.
  revert seen. induction rs as [|r rs IH]; intros seen Ht; [done|].
  cbn [keep_first list_find]. case_bool_decide as Hseen.
  - destruct (decide (r.1 = t)) as [Heq|Hne]; [congruence|].
    rewrite IH by done. by destruct (list_find _ rs) as [[]|].
  - cbn [list_find]. destruct (decide (r.1 = t)) as [Heq|Hne]; [done|].
    assert (t ∉ r.1 :: seen) as Ht'.
    { intros [->|Hin]%elem_of_cons; [done|by apply Ht]. }
    specialize (IH _ Ht').
    destruct (list_find _ (keep_first _ rs)) as [[]|],
             (list_find _ rs) as [[]|]; simpl in *; congruence.
Qed.

(** X17 (add_dynamic_emission_prices, duplicated labels of the price
    file). After co2_price[~co2_price.index.duplicated()] no label occurs
    twice, every label of the file is still there, and the row kept for a
    label is the first row that the file has for it. *)
Theorem keep_first_unique (rs : list (Z * list float)) :
  NoDup (map fst (keep_first [] rs)) /\
  (forall t, t ∈ map fst (keep_first [] rs) <-> t ∈ map fst rs) /\
  (forall t, snd <$> list_find (fun r => r.1 = t) (keep_first [] rs)
             = snd <$> list_find (fun r => r.1 = t) rs).
Proof.
  split; [apply keep_first_nodup|]. split.
  - intros t. split; [by intros [H _]%keep_first_labels|].
    intros Hin. rewrite map_is_fmap in *.
    apply list_elem_of_fmap in Hin as (r & -> & Hr).
    pose proof (keep_first_find [] rs r.1 (not_elem_of_nil _)) as Hfind.
    destruct (list_find (fun r0 => r0.1 = r.1) rs) as [[i r']|] eqn:Hrs.
    + destruct (list_find (fun r0 => r0.1 = r.1) (keep_first [] rs))
        as [[j r'']|] eqn:Hkf; [|done].
      apply list_find_Some in Hkf as (Hj & Heq & _).
      rewrite <- Heq. apply list_elem_of_fmap_2.
      by eapply list_elem_of_lookup_2.
    + apply list_find_None in Hrs. rewrite Forall_forall in Hrs.
      by destruct (Hrs r Hr).
  - intros t. apply keep_first_find, not_elem_of_nil.
Qed.

(* --------------------------------------------------------------------- *)
(* add_dynamic_emission_prices: what it writes                            *)
(* --------------------------------------------------------------------- *)

Lemma column_at_length (j : nat) (rs : list (Z * list float)) :
  length (column_at j rs) = length rs.
Proof. unfold column_at. by rewrite length_map. Qed.

Lemma reindex_rows_length (fill : float) (idx : list Z) (df : frame) :
  length (rows (reindex fill idx df)) = length idx.
Proof. unfold reindex. cbn [rows]. by rewrite length_map. Qed.

Lemma static_set_pnl_table (list_name attr : string) (df : frame) (n : network) :
  let n' := set_pnl_table list_name attr df n in
  generators n' = generators n /\ storage_units n' = storage_units n /\
  carriers n' = carriers n /\ snapshots n' = snapshots n.
Proof. by destruct n. Qed.

(** X18 (add_dynamic_emission_prices, what it touches). Whatever the price
    file holds, the call changes nothing but the time-varying marginal-cost
    table of the generators: the static tables (the generators' static
    marginal costs and the storage units among them), the snapshots and all
    other time-varying tables stay as they were, and a call that raises
    leaves the whole network as it was.  When the call returns, the table
    it stored is indexed by the snapshots of the network, and each of its
    columns is labelled by a generator. *)
Theorem add_dynamic_emission_prices_frame (co2_price : frame) (n : network) :
  let out := add_dynamic_emission_prices co2_price n in
  (returned out.1 = false -> out.2 = n) /\
  generators out.2 = generators n /\
  storage_units out.2 = storage_units n /\
  carriers out.2 = carriers n /\
  snapshots out.2 = snapshots n /\
  (forall c attr,
     (c, attr) <> ("generators", "marginal_cost") ->
     pnl_of out.2 c !! attr = pnl_of n c !! attr) /\
  (returned out.1 = true ->
   exists df,
     pnl_of out.2 "generators" !! "marginal_cost" = Some df /\
     map fst (rows df) = snapshots n /\
     forall g, g ∈ columns df -> g ∈ map gen_name (generators n)).
Proof.
  unfold add_dynamic_emission_prices. run.
  destruct (columns co2_price) as [|c0 cs] eqn:Hcols; simpl.
  { repeat split; try done. }
  destruct (pnl_of n "generators" !! "marginal_cost") as [varying|] eqn:Hv;
    simpl.
  2:{ repeat split; try done. }
  match goal with
  | |- context [set_pnl_table _ _ ?df n] => set (table := df)
  end.
  destruct (static_set_pnl_table "generators" "marginal_cost" table n)
    as (Hg & Hs & Hc & Ht).
  split; [done|]. repeat (split; [done|]).
  split.
  - intros c attr Hne. rewrite pnl_of_set_pnl_table.
    rewrite bool_decide_eq_false_2; [done|]. intros [-> ->]. by apply Hne.
  - intros _. exists table. split; [|split].
    + rewrite pnl_of_set_pnl_table. by rewrite bool_decide_eq_true_2.
    + unfold table. cbn [rows]. rewrite map_map. cbn [fst].
      rewrite map_is_fmap. apply fst_zip.
      by rewrite bfill_length, ffill_length, column_at_length, length_map.
    + unfold table. cbn [columns]. intros g.
      rewrite !map_is_fmap, !list_elem_of_fmap.
      intros (x & -> & Hx). apply list_elem_of_filter in Hx as [_ Hx].
      by exists x.
Qed.

Lemma no_row_found (fill : float) (idx : list Z) (df : frame) :
  (forall t, t ∈ map fst (rows df) -> t ∉ idx) ->
  rows (reindex fill idx df)
  = map (fun t => (t, replicate (length (columns df)) fill)) idx.
Proof.
  intros Hno. unfold reindex. cbn [rows]. apply map_ext_in.
  intros t Ht%list_elem_of_In.
  destruct (list_find _ (rows df)) as [[i r]|] eqn:Hfind; [|done].
  apply list_find_Some in Hfind as (Hi & Heq & _).
  destruct (Hno t); [|done].
  rewrite <- Heq, map_is_fmap. apply list_elem_of_fmap_2.
  by eapply list_elem_of_lookup_2.
Qed.

Lemma column_of_gaps (j len : nat) (idx : list Z) :
  column_at j (map (fun t => (t, replicate len NaN)) idx)
  = map (fun _ => NaN) idx.
Proof.
  unfold column_at. rewrite map_map. apply map_ext. intros t. cbn [snd].
  destruct (replicate len NaN !! j) as [x|] eqn:Hx; [|done].
  apply lookup_replicate in Hx as [-> _]. done.
Qed.

Lemma gaps_forall {A : Type} (idx : list A) :
  Forall (fun x => isnan x = true) (map (fun _ => NaN) idx).
Proof. induction idx; by constructor. Qed.

Lemma zip_gaps {A : Type} (idx : list A) :
  zip idx (map (fun _ => NaN) idx) = map (fun t => (t, NaN)) idx.
Proof. induction idx as [|t idx IH]; [done|]. simpl. by rewrite IH. Qed.

(** X19 (add_dynamic_emission_prices, a price file beside the snapshots).
    When no label of the price file is a snapshot of the network, the two
    fills have no price to spread: the call returns without an error, and
    the table it stores gives every generator of the network, at every
    snapshot, a marginal cost that is NaN. *)
Theorem add_dynamic_emission_prices_no_overlap (co2_price varying : frame)
    (n : network) :
  columns co2_price <> [] ->
  pnl_of n "generators" !! "marginal_cost" = Some varying ->
  snapshots n <> [] ->
  (forall t, t ∈ map fst (rows co2_price) -> t ∉ snapshots n) ->
  add_dynamic_emission_prices co2_price n
  = (inr tt,
     set_pnl_table "generators" "marginal_cost"
       (Frame (map gen_name (generators n))
          (map (fun t => (t, map (fun _ => NaN) (generators n)))
               (snapshots n)))
       n).
Proof.
  intros Hcols Hv Hsnap Hno.
  unfold add_dynamic_emission_prices.
  unfold bind, get, or_raise, modify.
  change (columns (reindex ?a ?b ?c)) with (columns c).
  cbn [columns].
  destruct (columns co2_price) as [|c0 cs] eqn:Hc; [done|]. cbn [head].
  rewrite Hv. unfold ret. cbn beta iota.
  rewrite no_row_found.
  2:{ cbn [rows]. intros t Ht. apply Hno.
      by apply keep_first_labels in Ht as [Ht _]. }
  rewrite column_of_gaps.
  rewrite (ffill_gaps_only _ (gaps_forall _)).
  unfold bfill. rewrite ffill_gaps_only
    by (apply Forall_rev, gaps_forall).
  rewrite rev_involutive, zip_gaps.
  assert (forall (x : float) (t : Z) (g : generator) (e : float),
            fadd x (fmul e (t, NaN).2) = NaN) as Hnan.
  { intros x t g e. cbn [snd]. by rewrite fmul_NaN_r, fadd_NaN_r. }
  rewrite (filter_all _ (generators n)).
  2:{ intros g. destruct (snapshots n) as [|t ts]; [done|].
      cbn [map existsb]. by rewrite Hnan. }
  do 3 f_equal. rewrite map_map. apply map_ext. intros t. cbn [fst].
  f_equal. apply map_ext. intros g. by apply Hnan.
Qed.

Lemma add_dynamic_emission_prices_no_overlap_witness :
  add_dynamic_emission_prices stale_price price_network
  = (inr tt,
     set_pnl_table "generators" "marginal_cost"
       (Frame ["g1"; "g2"] [(0, [NaN; NaN]); (hour_ns, [NaN; NaN])])
       price_network).
Proof.
  apply (add_dynamic_emission_prices_no_overlap stale_price
           (Frame ["g1"] [(0, [fq 5 1]); (hour_ns, [fq 6 1])]) price_network).
  - done.
  - reflexivity.
  - done.
  - intros t Ht Hin. apply list_elem_of_In in Ht, Hin. simpl in Ht, Hin.
    destruct Ht as [<-|[]]. destruct Hin as [H|[H|[]]]; vm_compute in H;
      discriminate.
Defined.

(* --------------------------------------------------------------------- *)
(* average_every_nhours: the new snapshots                                *)
(* --------------------------------------------------------------------- *)

Lemma filter_none {A : Type} (P : A -> Prop) `{!forall x, Decision (P x)}
    (ls : list A) :
  (forall x, x ∈ ls -> ~ P x) -> filter P ls = [].
Proof.
  intros Hno. induction ls as [|x ls IH]; [done|].
  rewrite filter_cons. destruct (decide (P x)) as [HP|_].
  - destruct (Hno x); [left | done].
  - apply IH. intros y Hy. apply Hno. by right.
Qed.

(* a bucket that holds no row: every column aggregates nothing *)
Lemma resample_empty_bucket (agg : list float -> float) (width : Z)
    (df : frame) (k : nat) :
  0 < width ->
  (k < bin_count width (map fst (rows df)))%nat ->
  (forall t, t ∈ map fst (rows df) ->
     ~ (bin_label width (map fst (rows df)) k <= t
        < bin_label width (map fst (rows df)) k + width)) ->
  (bin_label width (map fst (rows df)) k,
   replicate (length (columns df)) (agg []))
  ∈ rows (resample agg width df).
Proof.
  intros Hw Hk Hno. unfold resample. cbn [rows].
  apply list_elem_of_In, in_map_iff. exists k.
  split; [|apply in_seq; lia]. f_equal.
  rewrite bin_members_bucket by done. unfold bucket.
  rewrite filter_none.
  2:{ intros r Hr. apply Hno. rewrite map_is_fmap.
      by apply list_elem_of_fmap_2. }
  cbn [column_at map].
  generalize (length (columns df)). intros len. generalize 0%nat.
  induction len as [|len IH]; intros a; [done|]. simpl. by rewrite IH.
Qed.

Section AveragingGrid.
Variable to_offset : pyval -> option Z.

(** X20 (average_every_nhours, the new snapshots). Let the offset be read
    as a positive bucket width.  The snapshots of the returned network lie
    on a regular grid: each one is exactly one width after the one before
    it, whatever gaps the old snapshots had, and each lies a whole number
    of widths after midnight of the day of the earliest old snapshot.
    Every old snapshot falls into the bucket of one new snapshot, no new
    snapshot lies a width or more before the earliest old one or after the
    latest old one, and there are new snapshots exactly when there were
    old ones. *)
Theorem average_every_nhours_grid (n m : network) (offset : pyval)
    (width : Z) :
  to_offset offset = Some width ->
  0 < width ->
  average_every_nhours to_offset n offset = inr m ->
  let old := map fst (rows (snapshot_weightings n)) in
  (forall i s s',
     snapshots m !! i = Some s -> snapshots m !! S i = Some s' ->
     s' = s + width) /\
  (forall s, s ∈ snapshots m ->
     (s - earliest old `div` day_ns * day_ns) `mod` width = 0 /\
     earliest old - width < s <= latest old) /\
  (forall t, t ∈ old -> exists s, s ∈ snapshots m /\ s <= t < s + width) /\
  (snapshots m = [] <-> old = []).
Proof.
  intros Hoff Hw Hrun old.
  destruct (averaged_weightings to_offset n m offset width Hoff Hw Hrun)
    as [Hws Hsn].
  rewrite Hws, resample_index in Hsn. fold old in Hsn. rewrite Hsn.
  clearbody old.
  assert (forall s, s ∈ map (bin_label width old) (seq 0 (bin_count width old))
            -> exists k, (k < bin_count width old)%nat /\
                         s = bin_label width old k) as Hlabel.
  { intros s. rewrite map_is_fmap, list_elem_of_fmap.
    intros (k & -> & Hk%elem_of_seq). exists k. split; [lia|done]. }
  split; [|split; [|split]].
  - intros i s s'. rewrite map_is_fmap, !list_lookup_fmap.
    intros Hi HSi.
    destruct (seq 0 (bin_count width old) !! i) as [k|] eqn:Hk; [|done].
    destruct (seq 0 (bin_count width old) !! S i) as [k'|] eqn:Hk'; [|done].
    apply lookup_seq in Hk as [-> _]. apply lookup_seq in Hk' as [-> _].
    simpl in Hi, HSi. injection Hi as <-. injection HSi as <-.
    unfold bin_label. lia.
  - intros s (k & Hk & ->)%Hlabel. clear Hlabel Hsn.
    unfold bin_count in Hk. destruct old as [|t0 old']; [simpl in Hk; lia|].
    set (idx := t0 :: old') in *.
    assert (t0 ∈ idx) as Ht0 by left.
    pose proof (earliest_le idx _ Ht0) as He.
    pose proof (latest_ge idx _ Ht0) as Hl.
    unfold bin_label, bin_of, first_edge in *.
    set (first := earliest idx) in *.
    set (origin := first `div` day_ns * day_ns) in *.
    pose proof (Z.mod_pos_bound (first - origin) width Hw) as Hmod.
    pose proof (Z.div_mod (first - origin) width ltac:(lia)) as Hdm.
    set (e := first - (first - origin) `mod` width) in *.
    assert (0 <= latest idx - e) as Hpos by lia.
    pose proof (Z.div_mod (latest idx - e) width ltac:(lia)) as Hdm'.
    pose proof (Z.mod_pos_bound (latest idx - e) width Hw) as Hmod'.
    assert (0 <= (latest idx - e) `div` width) as Hq
      by (apply Z.div_pos; lia).
    assert (Z.of_nat k <= (latest idx - e) `div` width) as Hle by lia.
    split; [|split; [nia|nia]].
    replace (e + Z.of_nat k * width - origin)
      with (((first - origin) `div` width + Z.of_nat k) * width) by lia.
    apply Z.mod_mul. lia.
  - intros t Ht. exists (bin_label width old (bin_of width old t)). split.
    + rewrite map_is_fmap. apply list_elem_of_fmap_2, elem_of_seq.
      pose proof (bin_of_lt_count width old t Hw Ht). lia.
    + by apply (bin_of_interval width old t _ Hw Ht).
  - unfold bin_count. destruct old; [done|]. simpl. split; intros; done.
Qed.
End AveragingGrid.

(* two hourly snapshots, averaged over two hours *)
Lemma average_every_nhours_grid_witness :
  exists m,
    average_every_nhours sample_offset hourly_network (PStr "2h") = inr m /\
    forall s, s ∈ snapshots m ->
      (s - 0 `div` day_ns * day_ns) `mod` (2 * hour_ns) = 0 /\
      0 - 2 * hour_ns < s <= hour_ns.
Proof.
  eexists. split; [reflexivity|].
  exact (proj1 (proj2 (average_every_nhours_grid sample_offset hourly_network _
                         (PStr "2h") (2 * hour_ns) eq_refl eq_refl eq_refl))).
Defined.

Section AveragingGaps.
Variable to_offset : pyval -> option Z.

(** X21 (average_every_nhours, a bucket without snapshots). Let the offset
    be read as a positive bucket width, and let s be a snapshot of the
    returned network into whose bucket no old snapshot falls, as happens
    when the old snapshots have a gap longer than the width.  Then the
    weightings of s are 0.0 in every column, and every averaged table that
    was indexed like the weightings holds NaN in every column at s. *)
Theorem average_every_nhours_empty_bucket (n m : network) (offset : pyval)
    (width s : Z) :
  to_offset offset = Some width ->
  0 < width ->
  average_every_nhours to_offset n offset = inr m ->
  s ∈ snapshots m ->
  (forall t, t ∈ map fst (rows (snapshot_weightings n)) ->
     ~ (s <= t < s + width)) ->
  (s, replicate (length (columns (snapshot_weightings n))) f0)
    ∈ rows (snapshot_weightings m) /\
  (forall c attr df,
     c ∈ iterate_components n ->
     pnl_of n c !! attr = Some df ->
     frame_empty df = false ->
     map fst (rows df) = map fst (rows (snapshot_weightings n)) ->
     exists df',
       pnl_of m c !! attr = Some df' /\
       (s, replicate (length (columns df)) NaN) ∈ rows df').
Proof.
  intros Hoff Hw Hrun Hs Hno.
  destruct (averaged_weightings to_offset n m offset width Hoff Hw Hrun)
    as [Hws Hsn].
  rewrite Hsn, Hws, resample_index in Hs.
  rewrite map_is_fmap in Hs.
  apply list_elem_of_fmap in Hs as (k & -> & Hk%elem_of_seq).
  split.
  - rewrite Hws. apply (resample_empty_bucket fsum); [done|lia|done].
  - intros c attr df Hc Hdf Hne Hidx.
    exists (resample fmean width df). split.
    + by eapply averaged_table.
    + rewrite <- Hidx in *.
      apply (resample_empty_bucket fmean); [done|lia|done].
Qed.
End AveragingGaps.

(* the hour between two snapshots three hours apart *)
Lemma average_every_nhours_empty_bucket_witness :
  exists m,
    average_every_nhours sample_offset gap_network (PStr "1h") = inr m /\
    (hour_ns, [f0; f0; f0]) ∈ rows (snapshot_weightings m) /\
    exists df',
      pnl_of m "loads" !! "p_set" = Some df' /\ (hour_ns, [NaN]) ∈ rows df'.
Proof.
  eexists. split; [reflexivity|].
  assert (forall t, t ∈ map fst (rows (snapshot_weightings gap_network)) ->
            ~ (hour_ns <= t < hour_ns + hour_ns)) as Hno.
  { intros t Ht. apply list_elem_of_In in Ht. simpl in Ht.
    destruct Ht as [<-|[<-|[]]]; vm_compute; intros [H1 H2];
      first [by apply H1 | discriminate]. }
  destruct (average_every_nhours_empty_bucket sample_offset gap_network _
              (PStr "1h") hour_ns hour_ns eq_refl eq_refl eq_refl
              ltac:(apply list_elem_of_In; vm_compute; tauto) Hno)
    as [Hw Htables].
  split; [exact Hw|].
  apply (Htables "loads" "p_set"
           (Frame ["d1"] [(0, [fq 4 1]); (3 * hour_ns, [fq 8 1])])).
  - apply list_elem_of_In. vm_compute. tauto.
  - reflexivity.
  - reflexivity.
  - reflexivity.
Defined.

(* --------------------------------------------------------------------- *)
(* The script: the order of the transforms                                *)
(* --------------------------------------------------------------------- *)

Lemma traces_silent {A : Type} (m : M run_state A) :
  (forall s, applied (m s).2 = applied s) -> traces m [] [].
Proof.
  intros Hm s. exists []. rewrite Hm, app_nil_r. by repeat split.
Qed.

Lemma traces_bind {A B : Type} (m : M run_state A) (k : A -> M run_state B)
    (may1 must1 may2 must2 : list string) :
  traces m may1 must1 ->
  (forall a, traces (k a) may2 must2) ->
  traces (bind m k) (may1 ++ may2) (must1 ++ must2).
Proof.
  intros Hm Hk s. unfold bind.
  destruct (Hm s) as (tr1 & Happ1 & Hsub1 & Hmust1).
  destruct (m s) as [[e|a] s1]; simpl in *.
  - exists tr1. split; [done|]. split; [by apply sublist_inserts_r | done].
  - destruct (Hk a s1) as (tr2 & Happ2 & Hsub2 & Hmust2).
    exists (tr1 ++ tr2). split; [by rewrite Happ2, Happ1, app_assoc|].
    split; [by apply sublist_app|].
    intros Hret. apply sublist_app; auto.
Qed.

Lemma traces_call {A : Type} (name : string) (m : M network A) :
  traces (call name m) [name] [name].
Proof.
  intros s. exists [name]. unfold call. destruct (m (net s)). by repeat split.
Qed.

Lemma traces_on_net {A : Type} (m : M network A) : traces (on_net m) [] [].
Proof.
  apply traces_silent. intros s. unfold on_net. by destruct (m (net s)).
Qed.

Lemma traces_when (b : bool) (m : M run_state unit) (may must : list string) :
  traces m may must -> traces (when b m) may [].
Proof.
  intros Hm s. unfold when. destruct b.
  - destruct (Hm s) as (tr & Happ & Hsub & _). exists tr.
    repeat split; [done..|]. intros _. apply sublist_nil_l.
  - exists []. unfold ret. simpl. rewrite app_nil_r.
    repeat split; [apply sublist_nil_l|]. done.
Qed.

Lemma traces_weaken {A : Type} (m : M run_state A)
    (may must may' must' : list string) :
  traces m may must ->
  may `sublist_of` may' -> must' `sublist_of` must ->
  traces m may' must'.
Proof.
  intros Hm Hmay Hmust s. destruct (Hm s) as (tr & Happ & Hsub & Hret).
  exists tr. split; [done|]. split; [by etrans|].
  intros Hr. etrans; [exact Hmust | by apply Hret].
Qed.

Section Order.
Variable py_float : string -> option float.
Variable py_int : string -> option Z.
Variable to_offset : pyval -> option Z.
Variable tsam_available : bool.
Variable tsam_create_typical_periods :
  frame -> nat -> Z -> string -> result frame.
Variable attr_default : string -> string -> float.
Variable str_contains : string -> string -> bool.
Variable comps_order : list string.
Variable costs : Type.
Variable line_cost : costs -> line -> float.
Variable link_cost : costs -> link -> float.
Variable load_costs : config -> float -> costs.

Lemma find_opt_state {S : Type} (opts : list string) (expr : string) (s : S) :
  (find_opt py_float opts expr s).2 = s.
Proof.
  induction opts as [|o opts IH]; [done|]. cbn [find_opt].
  destruct (contains expr o); [|done].
  destruct (trailing_number o) as [m0|]; [|done].
  unfold bind, or_raise. by destruct (py_float m0).
Qed.

Lemma traces_find_opt (opts : list string) (expr : string) :
  traces (find_opt py_float opts expr) [] [].
Proof. apply traces_silent. intros s. by rewrite find_opt_state. Qed.

Lemma traces_temporal_reduction (cfg : config) (opts : list string) :
  traces (temporal_reduction py_int to_offset tsam_available
            tsam_create_typical_periods attr_default cfg opts)
    ["average_every_nhours"; "apply_time_segmentation"] [].
Proof.
  unfold temporal_reduction, call_rebind.
  eapply traces_weaken.
  - eapply traces_bind; [|intros _]; eapply traces_when; apply traces_call.
  - done.
  - done.
Qed.

(** X22 (the script, the order of its transforms). Whatever the settings,
    the option tokens and the network, and whether the run returns or
    raises, the transforms that the script has applied form a selection, in
    this order and each at most once, of: set_line_s_max_pu,
    average_every_nhours, apply_time_segmentation, add_co2limit,
    add_gaslimit, one of the two emission pricings (the dynamic one when
    the token Ept or the setting co2_monthly_prices asks for it, the static
    one otherwise, and never both), set_transmission_limit,
    set_line_nom_max, enforce_autarky.  A run that returns has applied
    set_line_s_max_pu, set_transmission_limit and set_line_nom_max. *)
Theorem main_order (cfg : config) (co2_price : frame) (s : run_state) :
  let out :=
    main py_float py_int to_offset tsam_available tsam_create_typical_periods
      attr_default str_contains comps_order costs line_cost link_cost load_costs
      cfg co2_price s in
  exists tr,
    applied out.2 = applied s ++ tr /\
    tr `sublist_of` script_order cfg /\
    (returned out.1 = true ->
     ["set_line_s_max_pu"; "set_transmission_limit"; "set_line_nom_max"]
       `sublist_of` tr).
Proof.
  intros out. subst out. revert s.
  change (traces
            (main py_float py_int to_offset tsam_available
               tsam_create_typical_periods attr_default str_contains comps_order costs
               line_cost link_cost load_costs cfg co2_price)
            (script_order cfg)
            ["set_line_s_max_pu"; "set_transmission_limit";
             "set_line_nom_max"]).
  unfold main, script_order, pricing_step. cbv zeta.
  assert (forall l : list string, l `sublist_of` l) as Hrefl by done.
  destruct (bool_decide ("Ept" ∈ split_on "-" (wildcard_opts cfg))
            || truthy (emission_prices_co2_monthly_prices cfg)) eqn:Hp.
  - eapply traces_weaken.
    + eapply traces_bind; [apply traces_silent; by intros|intros s0].
      eapply traces_bind;
        [apply traces_silent; intros s; unfold or_raise;
         by destruct position_of|intros j].
      eapply traces_bind; [apply traces_call|intros _].
      eapply traces_bind; [apply traces_temporal_reduction|intros _].
      eapply traces_bind; [apply traces_find_opt|intros Co2L].
      eapply traces_bind;
        [eapply traces_when; destruct (Co2L.2); apply traces_call|intros _].
      eapply traces_bind; [apply traces_find_opt|intros CH4L].
      eapply traces_bind;
        [eapply traces_when; destruct (CH4L.2); apply traces_call|intros _].
      eapply traces_bind; [apply traces_on_net|intros _].
      eapply traces_bind; [apply traces_find_opt|intros Ep].
      eapply traces_bind; [apply traces_call|intros _].
      eapply traces_bind;
        [apply traces_silent; intros s; by destruct (wildcard_ll cfg)
        |intros ll_type].
      eapply traces_bind; [apply traces_call|intros _].
      eapply traces_bind; [apply traces_call|intros _].
      eapply traces_when; apply traces_call.
    + apply Hrefl.
    + simpl. apply sublist_skip.
      repeat first [apply sublist_nil | apply sublist_skip | apply sublist_cons].
  - eapply traces_weaken.
    + eapply traces_bind; [apply traces_silent; by intros|intros s0].
      eapply traces_bind;
        [apply traces_silent; intros s; unfold or_raise;
         by destruct position_of|intros j].
      eapply traces_bind; [apply traces_call|intros _].
      eapply traces_bind; [apply traces_temporal_reduction|intros _].
      eapply traces_bind; [apply traces_find_opt|intros Co2L].
      eapply traces_bind;
        [eapply traces_when; destruct (Co2L.2); apply traces_call|intros _].
      eapply traces_bind; [apply traces_find_opt|intros CH4L].
      eapply traces_bind;
        [eapply traces_when; destruct (CH4L.2); apply traces_call|intros _].
      eapply traces_bind; [apply traces_on_net|intros _].
      eapply traces_bind; [apply traces_find_opt|intros Ep].
      eapply traces_bind; [eapply traces_when; apply traces_call|intros _].
      eapply traces_bind;
        [apply traces_silent; intros s; by destruct (wildcard_ll cfg)
        |intros ll_type].
      eapply traces_bind; [apply traces_call|intros _].
      eapply traces_bind; [apply traces_call|intros _].
      eapply traces_when; apply traces_call.
    + apply Hrefl.
    + apply Hrefl.
Qed.
End Order.

(* --------------------------------------------------------------------- *)
(* The script: the tokens that scale attributes                           *)
(* --------------------------------------------------------------------- *)

Section ScalingTokens.
Variable py_float : string -> option float.
Variable str_contains : string -> string -> bool.
Variable comps_order : list string.

(** X23 (the scaling loop on a network without carriers). When n.carriers
    is empty no token is taken for a scaling token: the loop returns
    without an error and leaves the network as it was, whatever the
    tokens are, those with an unknown attribute code or without a factor
    included. *)
Theorem scale_options_no_carriers (opts : list string) (n : network) :
  carriers n = [] ->
  scale_options py_float str_contains comps_order opts n = (inr tt, n).
Proof.
  intros Hno. unfold scale_options.
  induction opts as [|o opts IH]; [done|].
  cbn [for_each]. unfold bind at 1.
  assert (scale_option py_float str_contains comps_order o n = (inr tt, n)) as ->.
  { unfold scale_option. destruct (contains "+" o); [|done].
    cbn [negb]. unfold bind, get, suptechs. rewrite Hno. done. }
  exact IH.
Qed.

(* a token that splits into a carrier that some carrier of the network
   starts, an attribute code and a factor that float() reads *)
Lemma scale_option_parsed (o carrier rest : string) (code : ascii)
    (more : list string) (x : float) (n : network) :
  split_on "+" o = carrier :: String code rest :: more ->
  existsb (fun p => String.prefix p carrier) (suptechs n) = true ->
  py_float rest = Some x ->
  forall attr, attr_lookup !! String code "" = Some attr ->
  scale_option py_float str_contains comps_order o n
  = (if bool_decide (carrier = "AC")
     then scale_lines attr x
     else for_each comps_order
            (scale_component str_contains n carrier attr x)) n.
Proof.
  intros Hsplit Hcarrier Hfloat attr Hattr. unfold scale_option.
  rewrite (split_on_contains _ _ _ _ Hsplit) by done.
  rewrite Hsplit. cbn [negb lookup list_lookup default].
  unfold bind at 1. unfold get at 1. simpl default. unfold id.
  rewrite Hcarrier.
  unfold bind at 1 2. unfold ret at 1. rewrite Hattr.
  unfold or_raise at 1. unfold ret at 1.
  unfold bind at 1.
  rewrite (float_of_value py_float network (PStr rest) x n Hfloat).
  reflexivity.
Qed.

(** X24 (a scaling token for the carrier AC). Let the token split at "+"
    into the carrier AC, which a carrier of the network starts, and a
    piece made of an attribute code and a factor that float() reads as x.
    With the code c the capital cost of every line is multiplied by x and
    nothing else changes; no generator, link, storage unit or store is
    touched, whatever its carrier.  With the code p the token raises
    KeyError for p_nom_max, a column that the lines do not have, and the
    network stays as it was. *)
Theorem scale_option_lines (o rest : string) (code : ascii)
    (more : list string) (x : float) (n : network) :
  split_on "+" o = "AC" :: String code rest :: more ->
  existsb (fun p => String.prefix p "AC") (suptechs n) = true ->
  py_float rest = Some x ->
  (code = "c"%char ->
   scale_option py_float str_contains comps_order o n
   = (inr tt,
      set_lines (map (fun l => line_with_capital_cost
                                 (fmul (line_capital_cost l) x) l)
                     (lines n)) n)) /\
  (code = "p"%char ->
   scale_option py_float str_contains comps_order o n
   = (inl (KeyError "p_nom_max"), n)).
Proof.
  intros Hsplit Hcarrier Hfloat. split; intros ->.
  - by rewrite (scale_option_parsed _ _ _ _ _ _ _ Hsplit Hcarrier Hfloat
                  "capital_cost").
  - by rewrite (scale_option_parsed _ _ _ _ _ _ _ Hsplit Hcarrier Hfloat
                  "p_nom_max").
Qed.

(* with the attribute p_nom_max the stores raise and the other components
   do not *)
Lemma scale_component_potential (carrier : string) (x : float)
    (n m : network) (c : string) :
  stores n <> [] ->
  (c = "Store" /\
   (scale_component str_contains n carrier "p_nom_max" x c m).1
   = inl (KeyError "p_nom_max")) \/
  (c <> "Store" /\
   (scale_component str_contains n carrier "p_nom_max" x c m).1 = inr tt).
Proof.
  intros Hstores. unfold scale_component.
  repeat case_bool_decide; subst.
  - right. split; [done|]. by destruct (generators n).
  - right. split; [done|]. by destruct (links n).
  - right. split; [done|]. by destruct (storage_units n).
  - left. split; [done|]. by destruct (stores n).
  - right. done.
Qed.

(** X25 (a token that scales potentials, on a network with stores). Let
    the token split at "+" into a carrier other than AC, which a carrier
    of the network starts, and a piece made of the code p and a factor
    that float() reads.  When the network has at least one store the
    token raises KeyError for p_nom_max, whatever the carriers of the
    stores are and in whatever order the components Generator, Link,
    StorageUnit and Store are visited: the stores have no such column. *)
Theorem scale_option_potential_with_stores (o carrier rest : string)
    (more : list string) (x : float) (n : network) :
  "Store" ∈ comps_order ->
  split_on "+" o = carrier :: String "p" rest :: more ->
  existsb (fun p => String.prefix p carrier) (suptechs n) = true ->
  carrier <> "AC" ->
  py_float rest = Some x ->
  stores n <> [] ->
  (scale_option py_float str_contains comps_order o n).1
  = inl (KeyError "p_nom_max").
Proof.
  intros Hin Hsplit Hcarrier Hac Hfloat Hstores.
  rewrite (scale_option_parsed _ _ _ _ _ _ _ Hsplit Hcarrier Hfloat
             "p_nom_max") by done.
  rewrite bool_decide_eq_false_2 by done.
  cut (forall m : network,
         (for_each comps_order
            (scale_component str_contains n carrier "p_nom_max" x) m).1
         = inl (KeyError "p_nom_max")); [intros Hall; apply Hall|].
  clear Hsplit. revert Hin.
  induction comps_order as [|c order IH]; intros Hin m.
  { by apply elem_of_nil in Hin. }
  cbn [for_each]. unfold bind.
  destruct (scale_component_potential carrier x n m c Hstores)
    as [[-> Hc]|[Hne Hc]];
    destruct (scale_component _ _ _ _ _ _ m) as [[e|[]] m'];
    simpl in Hc; try done.
  apply IH. apply elem_of_cons in Hin. destruct Hin as [Heq|Hin]; [|done].
  by destruct Hne.
Qed.
End ScalingTokens.

Lemma scale_options_no_carriers_witness :
  scale_options sample_float (fun _ _ => true)
    ["Generator"; "Link"; "StorageUnit"; "Store"]
    ["solar+p2"; "wind+x"; "Ep"] grid_network
  = (inr tt, grid_network).
Proof.
  apply (scale_options_no_carriers sample_float (fun _ _ => true)
           ["Generator"; "Link"; "StorageUnit"; "Store"]
           ["solar+p2"; "wind+x"; "Ep"] grid_network).
  reflexivity.
Defined.

(* line costs doubled by the token AC+c2, and the token AC+p2 refused *)
Lemma scale_option_lines_witness :
  scale_option sample_float (fun _ _ => true)
    ["Link"; "Store"; "Generator"; "StorageUnit"] "AC+c2" ac_network
  = (inr tt,
     set_lines
       [ Line "l1" "b1" "b2" "" f1 (fq 120 1) (fq 1000 1) f0 PInf false f1
           (fmul (fq 3 1) (fq 2 1)) ]
       ac_network).
Proof.
  exact (proj1 (scale_option_lines sample_float (fun _ _ => true)
                  ["Link"; "Store"; "Generator"; "StorageUnit"]
                  "AC+c2" "2" "c" [] (fq 2 1) ac_network
                  eq_refl eq_refl eq_refl) eq_refl).
Defined.

Lemma scale_option_potential_with_stores_witness :
  (scale_option sample_float (fun c s => bool_decide (c = s))
     ["Generator"; "StorageUnit"; "Store"; "Link"] "solar+p2"
     store_network).1
  = inl (KeyError "p_nom_max").
Proof.
  apply (scale_option_potential_with_stores sample_float
           (fun c s => bool_decide (c = s))
           ["Generator"; "StorageUnit"; "Store"; "Link"]
           "solar+p2" "solar" "2" [] (fq 2 1) store_network).
  - by apply (bool_decide_unpack _).
  - reflexivity.
  - reflexivity.
  - discriminate.
  - reflexivity.
  - discriminate.
Defined.
